(** * Network monitoring and bridge-operation pipeline: a shallow embedding

    The development follows the TypeScript sources
      - tests/utils/ApiMonitor.ts          (class ApiMonitor)
      - unnamed/part_002                   (class ApiResponseHandler)
      - tests/pages/AppPage.ts             (class AppPage)
      - tests/pages/BasePage.ts            (takeScreenshot)
    and keeps their names.  JavaScript values that travel through the code
    as [any] are JSON documents; [undefined] is the [None] of an option.
    Numbers are restricted to integers and strings are byte strings with
    ASCII case mapping.  [JSON.parse] and [atob] are built-ins of the
    runtime and are taken as parameters (class [JsRuntime]). *)

From Stdlib Require Import ZArith String Ascii List Bool Lia.
From stdpp Require Import base tactics option list strings pretty.

Local Set Warnings "-register-all".
Local Open Scope string_scope.
Local Open Scope Z_scope.

(* ================================================================== *)
(** ** JavaScript values                                               *)
(* ================================================================== *)

Inductive json : Type :=
| JNull
| JBool (b : bool)
| JNum (z : Z)
| JStr (s : string)
| JArr (items : list json)
| JObj (fields : list (string * json)).

(** A thrown value: every [throw] and every rejection in the sources
    carries an [Error]; [isTimeout] is the ad-hoc marker property. *)
Record JsError := mkError { message : string; isTimeout : bool }.

Class JsRuntime := {
  JSON_parse : string -> option json;   (* [None]: SyntaxError *)
  atob : string -> option string        (* [None]: InvalidCharacterError *)
}.

Definition dquote : string := String "034"%char EmptyString.

(** Truthiness ([if (v)], [!v], [a || b]). *)
Definition truthy (v : json) : bool :=
  match v with
  | JNull => false
  | JBool b => b
  | JNum z => negb (z =? 0)
  | JStr s => negb (String.eqb s "")
  | JArr _ | JObj _ => true
  end.

Definition truthy_opt (o : option json) : bool :=
  match o with Some v => truthy v | None => false end.

Definition typeof_object (v : json) : bool :=
  match v with JNull | JArr _ | JObj _ => true | _ => false end.

Definition typeof_string (v : json) : bool :=
  match v with JStr _ => true | _ => false end.

Fixpoint assoc {A} (k : string) (l : list (string * A)) : option A :=
  match l with
  | [] => None
  | (k', v) :: l' => if String.eqb k k' then Some v else assoc k l'
  end.

(** [v.k] for a value [v] that is neither [null] nor [undefined];
    [None] is [undefined]. *)
Definition prop (v : json) (k : string) : option json :=
  match v with
  | JObj fields => assoc k fields
  | JArr items => if String.eqb k "length" then Some (JNum (Z.of_nat (length items))) else None
  | JStr s => if String.eqb k "length" then Some (JNum (Z.of_nat (String.length s))) else None
  | _ => None
  end.

(** [o.k] where [o] may be [null] or [undefined]: the outer [None] is the
    TypeError the access raises. *)
Definition access (o : option json) (k : string) : option (option json) :=
  match o with
  | None | Some JNull => None
  | Some v => Some (prop v k)
  end.

(** [v === s] for a string [s]. *)
Definition is_str (o : option json) (s : string) : bool :=
  match o with Some (JStr s') => String.eqb s' s | _ => false end.

(** [v === n] for a number [n]. *)
Definition is_num (o : option json) (n : Z) : bool :=
  match o with Some (JNum z) => z =? n | _ => false end.

(** [a === b] on values of the JSON fragment: objects and arrays are
    compared by identity, and two values of distinct origin are never the
    same object. *)
Definition strict_eq (a b : option json) : bool :=
  match a, b with
  | None, None => true
  | Some JNull, Some JNull => true
  | Some (JBool x), Some (JBool y) => Bool.eqb x y
  | Some (JNum x), Some (JNum y) => x =? y
  | Some (JStr x), Some (JStr y) => String.eqb x y
  | _, _ => false
  end.

(** [String.prototype.includes]. *)
Fixpoint includes (s sub : string) : bool :=
  String.prefix sub s ||
  match s with
  | EmptyString => false
  | String _ s' => includes s' sub
  end.

Definition lower_char (c : ascii) : ascii :=
  let n := nat_of_ascii c in
  if ((65 <=? n) && (n <=? 90))%nat then ascii_of_nat (n + 32) else c.

Fixpoint toLowerCase (s : string) : string :=
  match s with
  | EmptyString => EmptyString
  | String c s' => String (lower_char c) (toLowerCase s')
  end.

Fixpoint join (sep : string) (l : list string) : string :=
  match l with
  | [] => ""
  | [x] => x
  | x :: l' => x ++ sep ++ join sep l'
  end.

Definition num_to_string (z : Z) : string := pretty z.

(** [String(v)], also what a template literal does to [${v}]. *)
Fixpoint to_String (v : json) : string :=
  match v with
  | JNull => "null"
  | JBool true => "true"
  | JBool false => "false"
  | JNum z => num_to_string z
  | JStr s => s
  | JArr items =>
      join "," (map (fun x => match x with JNull => "" | _ => to_String x end) items)
  | JObj _ => "[object Object]"
  end.

Definition to_String_opt (o : option json) : string :=
  match o with Some v => to_String v | None => "undefined" end.

Definition hex_digit (n : nat) : ascii :=
  if (n <? 10)%nat then ascii_of_nat (48 + n) else ascii_of_nat (87 + n).

(** One character inside a JSON string literal. *)
Definition escape_char (c : ascii) : string :=
  let n := nat_of_ascii c in
  if (n =? 34)%nat then "\" ++ dquote
  else if (n =? 92)%nat then "\\"
  else if (n =? 8)%nat then "\b"
  else if (n =? 9)%nat then "\t"
  else if (n =? 10)%nat then "\n"
  else if (n =? 12)%nat then "\f"
  else if (n =? 13)%nat then "\r"
  else if (n <? 32)%nat then
    "\u00" ++ String (hex_digit (n / 16)) (String (hex_digit (n mod 16)) "")
  else String c "".

Fixpoint escape (s : string) : string :=
  match s with
  | EmptyString => ""
  | String c s' => escape_char c ++ escape s'
  end.

Definition quote (s : string) : string := dquote ++ escape s ++ dquote.

(** [JSON.stringify(v)] (no indentation). *)
Fixpoint JSON_stringify (v : json) : string :=
  match v with
  | JNull => "null"
  | JBool true => "true"
  | JBool false => "false"
  | JNum z => num_to_string z
  | JStr s => quote s
  | JArr items => "[" ++ join "," (map JSON_stringify items) ++ "]"
  | JObj fields =>
      "{" ++ join "," (map (fun kv => quote (fst kv) ++ ":" ++ JSON_stringify (snd kv)) fields) ++ "}"
  end.

Definition is_space (c : ascii) : bool :=
  let n := nat_of_ascii c in
  ((9 <=? n) && (n <=? 13) || (n =? 32))%nat.

(** [s.trim()] is truthy: some character of [s] is not white space. *)
Fixpoint trim_truthy (s : string) : bool :=
  match s with
  | EmptyString => false
  | String c s' => negb (is_space c) || trim_truthy s'
  end.

Definition nonempty (s : string) : bool := negb (String.eqb s "").

(* ================================================================== *)
(** ** JavaScript [Map]: insertion-ordered, keys compared by value      *)
(* ================================================================== *)

Definition jsmap (V : Type) : Type := list (string * V).

Definition map_get {V} (k : string) (m : jsmap V) : option V := assoc k m.

Definition map_has {V} (k : string) (m : jsmap V) : bool :=
  match map_get k m with Some _ => true | None => false end.

Fixpoint map_set {V} (k : string) (v : V) (m : jsmap V) : jsmap V :=
  match m with
  | [] => [(k, v)]
  | (k', v') :: m' =>
      if String.eqb k k' then (k, v) :: m' else (k', v') :: map_set k v m'
  end.

Fixpoint map_delete {V} (k : string) (m : jsmap V) : jsmap V :=
  match m with
  | [] => []
  | (k', v') :: m' =>
      if String.eqb k k' then map_delete k m' else (k', v') :: map_delete k m'
  end.

Definition map_size {V} (m : jsmap V) : nat := length m.

Definition map_keys {V} (m : jsmap V) : list string := map fst m.

(** [for (const [k, v] of m.entries()) body] inside a [try] whose [catch]
    swallows the exception: an iteration that throws ([None]) ends the
    loop and keeps what the earlier iterations did. *)
Fixpoint for_entries {V S} (body : string -> V -> S -> option S)
    (entries : jsmap V) (s : S) : S :=
  match entries with
  | [] => s
  | (k, v) :: rest =>
      match body k v s with
      | Some s' => for_entries body rest s'
      | None => s
      end
  end.

(* ================================================================== *)
(** ** tests/utils/ApiMonitor.ts: data                                  *)
(* ================================================================== *)

(** What the code reads off a Playwright request. *)
Module Request.
Record t := mk {
  url : string;
  method : string;
  postData : option string      (* [None]: [null] *)
}.
End Request.

(** What the code reads off a Playwright response; [json] and [text]
    are [None] when the promise they return rejects. *)
Module Response.
Record t := mk {
  url : string;
  status : Z;
  request : Request.t;
  json : option json;
  text : option string
}.
End Response.

Module ApiResponseResult.
Record t := mk {
  success : bool;
  data : json;
  responseTime : Z;
  error : option string;
  rawResponse : option Response.t;
  url : option string;
  status : option Z;
  method : option string;
  requestId : option json;
  timedOut : option bool
}.
End ApiResponseResult.

(** [MonitorOptions] after the spread over the defaults; an absent
    field reads as [false] (or [0]), which is all the code tests. *)
Module MonitorOptions.
Record t := mk {
  oneTime : bool;
  verbose : bool;
  timeout : Z;
  silentTimeout : bool;
  partialMatch : bool
}.
(** The options literal a caller passes: [None] is an absent field. *)
Record arg := mkArg {
  a_oneTime : option bool;
  a_verbose : option bool;
  a_timeout : option Z;
  a_silentTimeout : option bool;
  a_partialMatch : option bool
}.
(** [{}] *)
Definition empty : t := mk false false 0 false false.
Definition no_arg : arg := mkArg None None None None None.
(** [{ ...defaults, ...options }] *)
Definition spread (d : t) (o : arg) : t :=
  mk (default (oneTime d) (a_oneTime o))
     (default (verbose d) (a_verbose o))
     (default (timeout d) (a_timeout o))
     (default (silentTimeout d) (a_silentTimeout o))
     (default (partialMatch d) (a_partialMatch o)).
End MonitorOptions.

(** A call of [controller.resolve] or [controller.reject]. *)
Inductive Settlement :=
| Resolve (response : Response.t)
| Reject (reason : JsError).

(** [promise] is the list of calls made on the promise's [resolve] and
    [reject] functions, oldest first. *)
Module PromiseController.
Record t := mk {
  promise : list Settlement;
  timeoutId : option nat;
  isResolved : bool;
  isRejected : bool
}.
End PromiseController.

Module CapturedRequest.
Record t := mk {
  url : string;
  method : string;
  timestamp : Z;
  rpc : option json;
  body : option json
}.
End CapturedRequest.

Module CapturedResponse.
Record t := mk {
  url : string;
  status : Z;
  timestamp : Z;
  rpc : option json;
  body : option json
}.
End CapturedResponse.

(** The callback handed to [setTimeout]. *)
Inductive TimerClosure :=
| MonitorTimeout (monitorId : string) (monitorOptions : MonitorOptions.t)
| WaitTimeout (timeout : Z).

Inductive TimerState :=
| TArmed (cl : TimerClosure)
| TFired (cl : TimerClosure)
| TCleared.

(** A pending [page.waitForResponse(predicate, ...)] with the
    continuation attached to it. *)
Inductive WaiterClosure :=
| PathWaiter (monitorId path method : string) (monitorOptions : MonitorOptions.t)
| RpcWaiter (monitorId methodName paramPath : string) (monitorOptions : MonitorOptions.t)
| BroadcastWaiter (monitorId methodName : string) (monitorOptions : MonitorOptions.t)
| CallWaiter (methodName paramPath : option string) (options : MonitorOptions.t).

Inductive WaiterState :=
| WArmed (cl : WaiterClosure)
| WFulfilled (response : Response.t)
| WRejected (reason : JsError).

(** The fields of the class, the controller objects they refer to, and
    the timers and waiters the class has started. *)
Record ApiMonitor := mkApiMonitor {
  controllers : list PromiseController.t;
  monitorPromises : jsmap nat;
  monitorStartTimes : jsmap Z;
  monitorPaths : jsmap string;
  monitorOptions : jsmap MonitorOptions.t;
  capturedRequests : jsmap (list CapturedRequest.t);
  capturedResponses : jsmap (list CapturedResponse.t);
  monitorMethods : jsmap string;
  timers : list TimerState;
  waiters : list WaiterState
}.

Definition set_controllers (f : list PromiseController.t -> list PromiseController.t)
    (s : ApiMonitor) : ApiMonitor :=
  mkApiMonitor (f (controllers s)) (monitorPromises s) (monitorStartTimes s)
    (monitorPaths s) (monitorOptions s) (capturedRequests s) (capturedResponses s)
    (monitorMethods s) (timers s) (waiters s).

Definition set_capturedRequests
    (f : jsmap (list CapturedRequest.t) -> jsmap (list CapturedRequest.t))
    (s : ApiMonitor) : ApiMonitor :=
  mkApiMonitor (controllers s) (monitorPromises s) (monitorStartTimes s)
    (monitorPaths s) (monitorOptions s) (f (capturedRequests s)) (capturedResponses s)
    (monitorMethods s) (timers s) (waiters s).

Definition set_capturedResponses
    (f : jsmap (list CapturedResponse.t) -> jsmap (list CapturedResponse.t))
    (s : ApiMonitor) : ApiMonitor :=
  mkApiMonitor (controllers s) (monitorPromises s) (monitorStartTimes s)
    (monitorPaths s) (monitorOptions s) (capturedRequests s) (f (capturedResponses s))
    (monitorMethods s) (timers s) (waiters s).

Definition set_timers (f : list TimerState -> list TimerState) (s : ApiMonitor) : ApiMonitor :=
  mkApiMonitor (controllers s) (monitorPromises s) (monitorStartTimes s)
    (monitorPaths s) (monitorOptions s) (capturedRequests s) (capturedResponses s)
    (monitorMethods s) (f (timers s)) (waiters s).

Definition set_waiters (f : list WaiterState -> list WaiterState) (s : ApiMonitor) : ApiMonitor :=
  mkApiMonitor (controllers s) (monitorPromises s) (monitorStartTimes s)
    (monitorPaths s) (monitorOptions s) (capturedRequests s) (capturedResponses s)
    (monitorMethods s) (timers s) (f (waiters s)).

(** [const a = m.get(k) || []; a.push(x); m.set(k, a)] *)
Definition push {V} (k : string) (x : V) (m : jsmap (list V)) : jsmap (list V) :=
  map_set k (default [] (map_get k m) ++ [x])%list m.

(** The state the constructor leaves (the listeners it installs are
    [on_request], [on_response] and [on_close] below). *)
Definition constructor : ApiMonitor :=
  mkApiMonitor [] [] [] [] [] [("all", [])] [("all", [])] [] [] [].

Definition pathMatches (targetPath : json) (monitorPath : string)
    (options : MonitorOptions.t) : option bool :=
  if negb (truthy targetPath) || negb (nonempty monitorPath) then Some false
  else if MonitorOptions.partialMatch options then
    match targetPath with
    | JStr s => Some (includes s monitorPath)
    | JArr items => Some (existsb (fun v => is_str (Some v) monitorPath) items)
    | _ => None                       (* [includes] is not a function *)
    end
  else Some (is_str (Some targetPath) monitorPath).

(** [pathMatches(url, path, options)] on a URL, which is a string. *)
Definition urlMatches (url monitorPath : string) (options : MonitorOptions.t) : bool :=
  default false (pathMatches (JStr url) monitorPath options).

Definition options_of (s : ApiMonitor) (monitorId : string) : MonitorOptions.t :=
  default MonitorOptions.empty (map_get monitorId (monitorOptions s)).

(** [c.isResolved = true; c.resolve(v)] or [c.isRejected = true; c.reject(e)] *)
Definition settle (how : Settlement) (c : PromiseController.t) : PromiseController.t :=
  match how with
  | Resolve _ =>
      PromiseController.mk (PromiseController.promise c ++ [how])%list
        (PromiseController.timeoutId c) true (PromiseController.isRejected c)
  | Reject _ =>
      PromiseController.mk (PromiseController.promise c ++ [how])%list
        (PromiseController.timeoutId c) (PromiseController.isResolved c) true
  end.

Definition pending (c : PromiseController.t) : bool :=
  negb (PromiseController.isResolved c) && negb (PromiseController.isRejected c).

(** [const c = this.monitorPromises.get(monitorId);
     if (c && !c.isResolved && !c.isRejected) { c.isX = true; c.settle(v) }] *)
Definition settle_if_pending (monitorId : string) (how : Settlement) (s : ApiMonitor)
    : ApiMonitor :=
  match map_get monitorId (monitorPromises s) with
  | None => s
  | Some a =>
      match controllers s !! a with
      | None => s
      | Some c =>
          if pending c then set_controllers (fun h => <[a := settle how c]> h) s
          else s
      end
  end.

(** The one-time branch of the listeners: [options.oneTime && controller && ...]. *)
Definition resolve_if_oneTime (monitorId : string) (options : MonitorOptions.t)
    (response : Response.t) (s : ApiMonitor) : ApiMonitor :=
  if MonitorOptions.oneTime options then settle_if_pending monitorId (Resolve response) s
  else s.

(* ================================================================== *)
(** ** tests/utils/ApiMonitor.ts: listeners, timers, registration       *)
(* ================================================================== *)

Section ApiMonitorCode.
Context {rt : JsRuntime}.

Definition record_request (monitorId : string) (rec : CapturedRequest.t)
    (s : ApiMonitor) : ApiMonitor :=
  set_capturedRequests (push monitorId rec) s.

Definition record_response (monitorId : string) (rec : CapturedResponse.t)
    (s : ApiMonitor) : ApiMonitor :=
  set_capturedResponses (push monitorId rec) s.

(** [expectedMethod && body.method === expectedMethod] *)
Definition rpc_method_matches (s : ApiMonitor) (monitorId : string) (body : json) : bool :=
  match map_get monitorId (monitorMethods s) with
  | Some expectedMethod => nonempty expectedMethod && is_str (prop body "method") expectedMethod
  | None => false
  end.

(** [paramPath && body.params &&
     (body.params.path ? this.pathMatches(body.params.path, paramPath, options) : false)];
    [None] when [pathMatches] throws. *)
Definition rpc_path_matches (body : json) (paramPath : string)
    (options : MonitorOptions.t) : option bool :=
  if negb (nonempty paramPath) then Some false
  else match prop body "params" with
       | Some params =>
           if truthy params then
             match prop params "path" with
             | Some p => if truthy p then pathMatches p paramPath options else Some false
             | None => Some false
             end
           else Some false
       | None => Some false
       end.

Definition typeof_object_opt (o : option json) : bool :=
  match o with Some v => typeof_object v | None => false end.

(** [if (postData) requestBody = JSON.parse(postData)] under a [try]:
    [None] is a body the code goes on without. *)
Definition parse_postData (request : Request.t) : option json :=
  match Request.postData request with
  | Some postData => if nonempty postData then JSON_parse postData else None
  | None => None
  end.

(** The callback of [this.page.on('request', ...)]. *)
Definition on_request (request : Request.t) (now : Z) (s : ApiMonitor) : ApiMonitor :=
  let method := Request.method request in
  let url := Request.url request in
  let s := record_request "all" (CapturedRequest.mk url method now None None) s in
  if String.eqb method "POST" then
    match Request.postData request with
    | None => s
    | Some postData =>
        if nonempty postData then
          match JSON_parse postData with
          | None => s                       (* Not JSON format, ignore *)
          | Some JNull => s                 (* [jsonBody.jsonrpc] throws, ignored *)
          | Some jsonBody =>
              let isRpcRequest :=
                is_str (prop jsonBody "jsonrpc") "2.0"
                || (truthy_opt (prop jsonBody "method")
                    && typeof_object_opt (prop jsonBody "params")) in
              if isRpcRequest then
                for_entries
                  (fun monitorId paramPath s =>
                     let options := options_of s monitorId in
                     let methodMatches := rpc_method_matches s monitorId jsonBody in
                     match rpc_path_matches jsonBody paramPath options with
                     | None => None
                     | Some pathMatches =>
                         Some (if methodMatches && pathMatches
                               then record_request monitorId
                                      (CapturedRequest.mk url method now
                                         (Some jsonBody) (Some jsonBody)) s
                               else s)
                     end)
                  (monitorPaths s) s
              else
                for_entries
                  (fun monitorId path s =>
                     Some (if urlMatches url path (options_of s monitorId)
                           then record_request monitorId
                                  (CapturedRequest.mk url method now None (Some jsonBody)) s
                           else s))
                  (monitorPaths s) s
          end
        else s
    end
  else
    for_entries
      (fun monitorId path s =>
         Some (if urlMatches url path (options_of s monitorId)
               then record_request monitorId (CapturedRequest.mk url method now None None) s
               else s))
      (monitorPaths s) s.

(** The URL loops of the response listener. *)
Definition match_response_by_url (response : Response.t) (now : Z)
    (body : option json) (s : ApiMonitor) : ApiMonitor :=
  let url := Response.url response in
  for_entries
    (fun monitorId path s =>
       let options := options_of s monitorId in
       Some (if urlMatches url path options
             then resolve_if_oneTime monitorId options response
                    (record_response monitorId
                       (CapturedResponse.mk url (Response.status response) now None body) s)
             else s))
    (monitorPaths s) s.

(** The callback of [this.page.on('response', ...)] up to its first
    [await]: the record in the log of all responses and, for a request
    that is not a POST, the URL loop. *)
Definition on_response (response : Response.t) (now : Z) (s : ApiMonitor) : ApiMonitor :=
  let url := Response.url response in
  let method := Request.method (Response.request response) in
  let s := record_response "all"
             (CapturedResponse.mk url (Response.status response) now None None) s in
  if String.eqb method "POST" then s
  else match_response_by_url response now None s.

(** The body the response listener ends up with. *)
Definition listener_responseBody (response : Response.t) : option json :=
  match Response.json response with
  | Some v => Some v
  | None =>
      match Response.text response with
      | Some text =>
          if nonempty text && trim_truthy text then
            match JSON_parse text with
            | Some v => Some v
            | None => Some (JStr text)
            end
          else None
      | None => None
      end
  end.

(** The rest of the response callback for a POST, once the body has
    been read; [now] is the [timestamp] taken before the [await]. *)
Definition on_response_body (response : Response.t) (now : Z) (s : ApiMonitor) : ApiMonitor :=
  let url := Response.url response in
  let status := Response.status response in
  if String.eqb (Request.method (Response.request response)) "POST" then
    let requestBody := parse_postData (Response.request response) in
    match listener_responseBody response with
    | None => s
    | Some responseBody =>
        if truthy responseBody then
          let isRpcResponse :=
            typeof_object responseBody
            && match prop responseBody "id" with Some _ => true | None => false end in
          match requestBody with
          | Some requestBody =>
              if isRpcResponse && truthy requestBody then
                for_entries
                  (fun monitorId paramPath s =>
                     let options := options_of s monitorId in
                     let methodMatches := rpc_method_matches s monitorId requestBody in
                     match rpc_path_matches requestBody paramPath options with
                     | None => None
                     | Some pathMatches =>
                         let idMatches :=
                           strict_eq (prop responseBody "id") (prop requestBody "id") in
                         Some (if methodMatches && pathMatches && idMatches
                               then resolve_if_oneTime monitorId options response
                                      (record_response monitorId
                                         (CapturedResponse.mk url status now
                                            (Some (JObj [("request", requestBody);
                                                         ("response", responseBody)]))
                                            (Some responseBody)) s)
                               else s)
                     end)
                  (monitorPaths s) s
              else match_response_by_url response now (Some responseBody) s
          | None => match_response_by_url response now (Some responseBody) s
          end
        else s
    end
  else s.

(** [setTimeout(cl, ...)]: the identifier and the new state. *)
Definition setTimeout (cl : TimerClosure) (s : ApiMonitor) : nat * ApiMonitor :=
  (length (timers s), set_timers (fun t => (t ++ [TArmed cl])%list) s).

Definition clearTimeout (tid : nat) (s : ApiMonitor) : ApiMonitor :=
  match timers s !! tid with
  | Some (TArmed _) => set_timers (fun t => <[tid := TCleared]> t) s
  | _ => s
  end.

Definition monitorTimeoutError (monitorOptions : MonitorOptions.t) : JsError :=
  mkError ("Monitor timed out (" ++ num_to_string (MonitorOptions.timeout monitorOptions)
           ++ "ms)") true.

Definition waitTimeoutError (timeout : Z) : JsError :=
  mkError ("Waiting for response timed out (" ++ num_to_string timeout ++ "ms)") true.

(** A timer runs its callback, once, unless it was cleared. *)
Definition fire_timer (tid : nat) (s : ApiMonitor) : ApiMonitor :=
  match timers s !! tid with
  | Some (TArmed cl) =>
      let s := set_timers (fun t => <[tid := TFired cl]> t) s in
      match cl with
      | MonitorTimeout monitorId monitorOptions =>
          settle_if_pending monitorId (Reject (monitorTimeoutError monitorOptions)) s
      | WaitTimeout _ => s
      end
  | _ => s
  end.

(** The RPC predicates handed to [page.waitForResponse]; every
    exception inside them makes them answer [false].  [paramPath] is
    [None] for the broadcast monitor, which checks no path. *)
Definition rpc_predicate (methodName : string) (paramPath : option string)
    (options : MonitorOptions.t) (resp : Response.t) : bool :=
  let request := Response.request resp in
  if negb (String.eqb (Request.method request) "POST") then false
  else
    match Request.postData request with
    | None => false
    | Some postData =>
        if negb (nonempty postData) then false
        else
          match JSON_parse postData with
          | None | Some JNull => false
          | Some requestBody =>
              if negb (is_str (prop requestBody "method") methodName) then false
              else
                let path_ok :=
                  match paramPath with
                  | None => true
                  | Some paramPath =>
                      match prop requestBody "params" with
                      | Some params =>
                          if truthy params then
                            match prop params "path" with
                            | Some p =>
                                truthy p && default false (pathMatches p paramPath options)
                            | None => false
                            end
                          else false
                      | None => false
                      end
                  end in
                if negb path_ok then false
                else
                  match Response.json resp with
                  | None => false
                  | Some jsonResponse =>
                      truthy jsonResponse
                      && match prop jsonResponse "id" with
                         | Some id => strict_eq (Some id) (prop requestBody "id")
                         | None => false
                         end
                  end
          end
    end.

Definition truthy_str (o : option string) : bool :=
  match o with Some s => nonempty s | None => false end.

Definition waiter_predicate (cl : WaiterClosure) (resp : Response.t) : bool :=
  match cl with
  | PathWaiter _ path method monitorOptions =>
      urlMatches (Response.url resp) path monitorOptions
      && (negb (nonempty method)
          || String.eqb (Request.method (Response.request resp)) method)
  | RpcWaiter _ methodName paramPath monitorOptions =>
      rpc_predicate methodName (Some paramPath) monitorOptions resp
  | BroadcastWaiter _ methodName monitorOptions =>
      rpc_predicate methodName None monitorOptions resp
  | CallWaiter methodName paramPath options =>
      if truthy_str methodName && truthy_str paramPath
         && String.eqb (Request.method (Response.request resp)) "POST"
      then rpc_predicate (default "" methodName) (Some (default "" paramPath)) options resp
      else match paramPath with
           | Some paramPath =>
               nonempty paramPath && urlMatches (Response.url resp) paramPath options
           | None => false
           end
  end.

(** The monitor a waiter's continuation settles, with the options the
    continuation closed over. *)
Definition waiter_monitor (cl : WaiterClosure) : option (string * MonitorOptions.t) :=
  match cl with
  | PathWaiter monitorId _ _ o | RpcWaiter monitorId _ _ o
  | BroadcastWaiter monitorId _ o => Some (monitorId, o)
  | CallWaiter _ _ _ => None
  end.

Definition mentions_timeout (msg : string) : bool :=
  nonempty msg && (includes msg "timeout" || includes msg "timed out").

(** The error the [.catch] continuation rejects the controller with. *)
Definition waiter_rejection (monitorOptions : MonitorOptions.t) (error : JsError) : JsError :=
  if mentions_timeout (message error) then
    mkError ("Monitor timed out (" ++ num_to_string (MonitorOptions.timeout monitorOptions)
             ++ "ms): " ++ message error) true
  else error.

(** [page.waitForResponse] fulfils with a response its predicate
    accepts: the [.then] continuation. *)
Definition on_waiter_response (wid : nat) (resp : Response.t) (s : ApiMonitor) : ApiMonitor :=
  match waiters s !! wid with
  | Some (WArmed cl) =>
      if waiter_predicate cl resp then
        let s := set_waiters (fun w => <[wid := WFulfilled resp]> w) s in
        match waiter_monitor cl with
        | Some (monitorId, _) => settle_if_pending monitorId (Resolve resp) s
        | None => s
        end
      else s
  | _ => s
  end.

(** [page.waitForResponse] rejects: the [.catch] continuation. *)
Definition on_waiter_error (wid : nat) (error : JsError) (s : ApiMonitor) : ApiMonitor :=
  match waiters s !! wid with
  | Some (WArmed cl) =>
      let s := set_waiters (fun w => <[wid := WRejected error]> w) s in
      match waiter_monitor cl with
      | Some (monitorId, monitorOptions) =>
          settle_if_pending monitorId (Reject (waiter_rejection monitorOptions error)) s
      | None => s
      end
  | _ => s
  end.

Definition arm_waiter (cl : WaiterClosure) (s : ApiMonitor) : nat * ApiMonitor :=
  (length (waiters s), set_waiters (fun w => (w ++ [WArmed cl])%list) s).

Definition cleanupMonitor (monitorId : string) (s : ApiMonitor) : ApiMonitor :=
  let s :=
    match map_get monitorId (monitorPromises s) with
    | Some a =>
        match controllers s !! a with
        | Some controller =>
            match PromiseController.timeoutId controller with
            | Some tid => clearTimeout tid s
            | None => s
            end
        | None => s
        end
    | None => s
    end in
  mkApiMonitor (controllers s)
    (map_delete monitorId (monitorPromises s))
    (map_delete monitorId (monitorStartTimes s))
    (map_delete monitorId (monitorPaths s))
    (map_delete monitorId (monitorOptions s))
    (capturedRequests s) (capturedResponses s)
    (map_delete monitorId (monitorMethods s))
    (timers s) (waiters s).

Definition cancelMonitor (monitorId : string) (s : ApiMonitor) : ApiMonitor :=
  if map_has monitorId (monitorPromises s) then cleanupMonitor monitorId s else s.

Definition cancelAllMonitors (s : ApiMonitor) : ApiMonitor :=
  fold_left (fun s monitorId => cleanupMonitor monitorId s) (map_keys (monitorPromises s)) s.

Definition getActiveMonitorsCount (s : ApiMonitor) : nat := map_size (monitorPromises s).

Definition getActiveMonitorIds (s : ApiMonitor) : list string := map_keys (monitorPromises s).


Definition clearTrafficData (monitorId : option string) (s : ApiMonitor) : ApiMonitor :=
  if truthy_str monitorId then
    set_capturedResponses (map_set (default "" monitorId) [])
      (set_capturedRequests (map_set (default "" monitorId) []) s)
  else
    set_capturedResponses (map (fun kv => (fst kv, [])))
      (set_capturedRequests (map (fun kv => (fst kv, []))) s).

(** What the four [startMonitoring...] methods share: the bookkeeping
    maps, a fresh controller, and the timeout timer. *)
Definition register (monitorId : string) (path : option string)
    (methodName : option string) (opts : MonitorOptions.t) (now : Z)
    (s : ApiMonitor) : ApiMonitor :=
  let a := length (controllers s) in
  let s :=
    mkApiMonitor
      (controllers s ++ [PromiseController.mk [] None false false])%list
      (map_set monitorId a (monitorPromises s))
      (map_set monitorId now (monitorStartTimes s))
      (match path with Some p => map_set monitorId p (monitorPaths s) | None => monitorPaths s end)
      (map_set monitorId opts (monitorOptions s))
      (map_set monitorId [] (capturedRequests s))
      (map_set monitorId [] (capturedResponses s))
      (match methodName with
       | Some m => map_set monitorId m (monitorMethods s)
       | None => monitorMethods s
       end)
      (timers s) (waiters s) in
  if negb (MonitorOptions.timeout opts =? 0) then
    let '(tid, s) := setTimeout (MonitorTimeout monitorId opts) s in
    set_controllers (fun h => <[a := PromiseController.mk [] (Some tid) false false]> h) s
  else s.

Definition defaultOptions : MonitorOptions.t := MonitorOptions.mk false false 30000 false false.

Definition startMonitoringAll (monitorId : string) (options : MonitorOptions.arg) (now : Z)
    (s : ApiMonitor) : string * ApiMonitor :=
  let monitorOptions := MonitorOptions.spread defaultOptions options in
  (monitorId, register monitorId None None monitorOptions now s).

Definition startMonitoringSpecificPath (path method monitorId : string)
    (options : MonitorOptions.arg) (now : Z) (s : ApiMonitor) : string * ApiMonitor :=
  let monitorOptions := MonitorOptions.spread defaultOptions options in
  let s := register monitorId (Some path) None monitorOptions now s in
  let s := if MonitorOptions.oneTime monitorOptions
           then snd (arm_waiter (PathWaiter monitorId path method monitorOptions) s)
           else s in
  (monitorId, s).

Definition startMonitoringRpcMethod (methodName paramPath monitorId : string)
    (options : MonitorOptions.arg) (now : Z) (s : ApiMonitor) : string * ApiMonitor :=
  let monitorOptions := MonitorOptions.spread defaultOptions options in
  let s := register monitorId (Some paramPath) (Some methodName) monitorOptions now s in
  let s := if MonitorOptions.oneTime monitorOptions
           then snd (arm_waiter (RpcWaiter monitorId methodName paramPath monitorOptions) s)
           else s in
  (monitorId, s).

Definition broadcastDefaultOptions : MonitorOptions.t :=
  MonitorOptions.mk true true 30000 false false.

Definition startMonitoringBroadcastRPC (methodName monitorId : string)
    (options : MonitorOptions.arg) (now : Z) (s : ApiMonitor) : string * ApiMonitor :=
  let monitorOptions := MonitorOptions.spread broadcastDefaultOptions options in
  let s := register monitorId (Some "") (Some methodName) monitorOptions now s in
  let s := if MonitorOptions.oneTime monitorOptions
           then snd (arm_waiter (BroadcastWaiter monitorId methodName monitorOptions) s)
           else s in
  (monitorId, s).

(** What the event loop delivers to the class while a caller is
    suspended: the page's events, timers, and the completion of a
    pending [page.waitForResponse]. *)
Inductive Event :=
| EvRequest (request : Request.t) (now : Z)
| EvResponse (response : Response.t) (now : Z)
| EvResponseBody (response : Response.t) (now : Z)
| EvTimer (tid : nat)
| EvWaiterResponse (wid : nat) (response : Response.t)
| EvWaiterError (wid : nat) (reason : JsError)
| EvClose.

Definition on_event (s : ApiMonitor) (e : Event) : ApiMonitor :=
  match e with
  | EvRequest request now => on_request request now s
  | EvResponse response now => on_response response now s
  | EvResponseBody response now => on_response_body response now s
  | EvTimer tid => fire_timer tid s
  | EvWaiterResponse wid response => on_waiter_response wid response s
  | EvWaiterError wid reason => on_waiter_error wid reason s
  | EvClose => cancelAllMonitors s
  end.

Definition on_events (s : ApiMonitor) (evs : list Event) : ApiMonitor :=
  fold_left on_event evs s.

(** How [await Promise.race([p, timeoutPromise])] ends. *)
Inductive RaceOutcome :=
| RaceResponse (response : Response.t)
| RaceError (error : JsError).

(** The state of [controller.promise]: its first settlement counts. *)
Definition promise_state (c : PromiseController.t) : option RaceOutcome :=
  match PromiseController.promise c with
  | [] => None
  | Resolve r :: _ => Some (RaceResponse r)
  | Reject e :: _ => Some (RaceError e)
  end.

Definition waiter_state (w : WaiterState) : option RaceOutcome :=
  match w with
  | WArmed _ => None
  | WFulfilled r => Some (RaceResponse r)
  | WRejected e => Some (RaceError e)
  end.

(** The two promises [waitForResponse] races: the first one is the
    controller's promise (at address [a]) for a one-time monitor and
    the waiter [wid] otherwise; the second is the timer [tid]. *)
Inductive RaceSource :=
| FromController (a : nat)
| FromWaiter (wid : nat).

Definition race (src : RaceSource) (tid : nat) (timeout : Z) (s : ApiMonitor)
    : option RaceOutcome :=
  let first :=
    match src with
    | FromController a => controllers s !! a ≫= promise_state
    | FromWaiter wid => waiters s !! wid ≫= waiter_state
    end in
  match first with
  | Some o => Some o
  | None =>
      match timers s !! tid with
      | Some (TFired _) => Some (RaceError (waitTimeoutError timeout))
      | _ => None
      end
  end.

(** The caller stays suspended, events being delivered one by one,
    until the race is settled; [None] when the events run out first. *)
Fixpoint await_race (src : RaceSource) (tid : nat) (timeout : Z)
    (evs : list Event) (s : ApiMonitor) : option RaceOutcome * ApiMonitor :=
  match race src tid timeout s with
  | Some o => (Some o, s)
  | None =>
      match evs with
      | [] => (None, s)
      | e :: evs' => await_race src tid timeout evs' (on_event s e)
      end
  end.

Definition error_isTimeout (error : JsError) : bool :=
  isTimeout error || mentions_timeout (message error).

(** [waitForResponse] up to its [await]: the timer of [timeoutPromise]
    and, for a monitor that is not one-time, a [page.waitForResponse]
    of its own.  The answer names the two promises of the race. *)
Definition wait_arm (monitorId : string) (timeout : Z) (controller : nat)
    (s : ApiMonitor) : RaceSource * nat * ApiMonitor :=
  let options := options_of s monitorId in
  let methodName := map_get monitorId (monitorMethods s) in
  let paramPath := map_get monitorId (monitorPaths s) in
  let '(tid, s) := setTimeout (WaitTimeout timeout) s in
  if negb (MonitorOptions.oneTime options) then
    let '(wid, s) := arm_waiter (CallWaiter methodName paramPath options) s in
    (FromWaiter wid, tid, s)
  else (FromController controller, tid, s).

(** The body and the request identifier [waitForResponse] reads off
    a captured response. *)
Definition decode_response (response : Response.t) : json * option json :=
  let reqMethod := Request.method (Response.request response) in
  let responseData :=
    match Response.json response with
    | Some v => v
    | None =>
        match Response.text response with
        | Some t => JStr t
        | None => JNull
        end
    end in
  let requestId :=
    if String.eqb reqMethod "POST" then
      match Response.json response with
      | Some v =>
          if truthy v && truthy_opt (parse_postData (Response.request response))
          then prop v "id" else None
      | None => None
      end
    else None in
  (responseData, requestId).

(** [waitForResponse] after its [await]: the [try] block continues
    with a response, the [catch] block with an error; both end with
    [cleanupMonitor].  [after] are the events delivered while the body
    of the response is read. *)
Definition wait_finish (monitorId : string) (startTime now1 : Z) (after : list Event)
    (o : RaceOutcome) (s : ApiMonitor) : ApiResponseResult.t * ApiMonitor :=
  match o with
  | RaceResponse response =>
      let responseTime := now1 - startTime in
      let reqMethod := Request.method (Response.request response) in
      let s := on_events s after in
      let '(responseData, requestId) := decode_response response in
      (ApiResponseResult.mk true responseData responseTime None
         (Some response) (Some (Response.url response))
         (Some (Response.status response)) (Some reqMethod)
         requestId (Some false),
       cleanupMonitor monitorId s)
  | RaceError error =>
      let waitedTime := now1 - startTime in
      let errorMessage :=
        if nonempty (message error) then message error else "Unknown error" in
      (ApiResponseResult.mk false JNull waitedTime (Some errorMessage)
         None None None None None (Some (error_isTimeout error)),
       cleanupMonitor monitorId s)
  end.

(** [waitForResponse(monitorId, timeout)].  [now0] is the clock when
    the call starts and [now1] when the race is settled; [during] are
    the events delivered while the race is pending.  The answer is
    [None] as long as the call has not returned. *)
Definition waitForResponse (monitorId : string) (timeout : Z) (now0 : Z)
    (during : list Event) (now1 : Z) (after : list Event) (s : ApiMonitor)
    : option ApiResponseResult.t * ApiMonitor :=
  match map_get monitorId (monitorPromises s) with
  | None =>
      (Some (ApiResponseResult.mk false JNull 0
               (Some ("Monitor " ++ monitorId ++ " does not exist"))
               None None None None None None), s)
  | Some controller =>
      let startTime :=
        match map_get monitorId (monitorStartTimes s) with
        | Some t => if t =? 0 then now0 else t
        | None => now0
        end in
      let '(src, tid, s) := wait_arm monitorId timeout controller s in
      match await_race src tid timeout during s with
      | (None, s) => (None, s)
      | (Some o, s) =>
          let '(r, s) := wait_finish monitorId startTime now1 after o s in
          (Some r, s)
      end
  end.

(** [processBroadcastResponse(result)]: [(success, hash, error)]. *)
Definition processBroadcastResponse (result : ApiResponseResult.t)
    : bool * option json * option string :=
  if negb (ApiResponseResult.success result) || negb (truthy (ApiResponseResult.data result))
  then
    (false, None,
     Some (match ApiResponseResult.error result with
           | Some e => if nonempty e then e else "Failed to get response"
           | None => "Failed to get response"
           end))
  else
    let responseData := ApiResponseResult.data result in
    match prop responseData "result" with
    | Some r =>
        if truthy r then
          let code := prop r "code" in
          if is_num code 0 then
            match prop r "hash" with
            | Some hash => if truthy hash then (true, Some hash, None) else (true, None, None)
            | None => (true, None, None)
            end
          else
            let log :=
              match prop r "log" with
              | Some l => if truthy l then to_String l else "Unknown error"
              | None => "Unknown error"
              end in
            (false, None,
             Some ("Transaction failed (code=" ++ to_String_opt code ++ "): " ++ log))
        else (false, None, Some "No result field in response")
    | None => (false, None, Some "No result field in response")
    end.

(** The calls a user of the class can make, and the events between them. *)
Inductive Op :=
| OpStartAll (monitorId : string) (options : MonitorOptions.arg) (now : Z)
| OpStartPath (path method monitorId : string) (options : MonitorOptions.arg) (now : Z)
| OpStartRpc (methodName paramPath monitorId : string) (options : MonitorOptions.arg) (now : Z)
| OpStartBroadcast (methodName monitorId : string) (options : MonitorOptions.arg) (now : Z)
| OpWait (monitorId : string) (timeout now0 : Z) (during : list Event) (now1 : Z)
    (after : list Event)
| OpCancel (monitorId : string)
| OpCancelAll
| OpClearTraffic (monitorId : option string)
| OpEvent (e : Event).

Definition step (s : ApiMonitor) (op : Op) : ApiMonitor :=
  match op with
  | OpStartAll monitorId options now => snd (startMonitoringAll monitorId options now s)
  | OpStartPath path method monitorId options now =>
      snd (startMonitoringSpecificPath path method monitorId options now s)
  | OpStartRpc methodName paramPath monitorId options now =>
      snd (startMonitoringRpcMethod methodName paramPath monitorId options now s)
  | OpStartBroadcast methodName monitorId options now =>
      snd (startMonitoringBroadcastRPC methodName monitorId options now s)
  | OpWait monitorId timeout now0 during now1 after =>
      snd (waitForResponse monitorId timeout now0 during now1 after s)
  | OpCancel monitorId => cancelMonitor monitorId s
  | OpCancelAll => cancelAllMonitors s
  | OpClearTraffic monitorId => clearTrafficData monitorId s
  | OpEvent e => on_event s e
  end.

(** The state after a history of calls and events on a new monitor. *)
Definition run (ops : list Op) : ApiMonitor := fold_left step ops constructor.

End ApiMonitorCode.

(* ================================================================== *)
(** ** tests/pages/BridgeInterfaces.ts                                   *)
(* ================================================================== *)

Module ApiResponseRecord.
Record t := mk {
  endpoint : string;
  method : string;
  status : Z;
  success : bool;
  data : json;
  timestamp : Z;
  responseTime : Z
}.
End ApiResponseRecord.

Inductive TestProgress := untested | routeTested | SignTested.

Module Timing.
Record t := mk { startTime : Z; endTime : Z; duration : Z }.
End Timing.

(** The result object of one bridge operation; an absent field is [None]. *)
Module BridgeOperationOutput.
Record t := mk {
  success : option bool;
  transactionHash : option json;
  error : option string;
  testProgress : option TestProgress;
  routePass : option bool;
  apiResponses : option (jsmap ApiResponseRecord.t);
  preview : option (jsmap json);
  timing : option Timing.t;
  screenshots : option (list string)
}.
Definition set_success (v : option bool) (r : t) : t :=
  mk v (transactionHash r) (error r) (testProgress r) (routePass r) (apiResponses r)
     (preview r) (timing r) (screenshots r).
Definition set_transactionHash (v : option json) (r : t) : t :=
  mk (success r) v (error r) (testProgress r) (routePass r) (apiResponses r)
     (preview r) (timing r) (screenshots r).
Definition set_error (v : option string) (r : t) : t :=
  mk (success r) (transactionHash r) v (testProgress r) (routePass r) (apiResponses r)
     (preview r) (timing r) (screenshots r).
Definition set_testProgress (v : option TestProgress) (r : t) : t :=
  mk (success r) (transactionHash r) (error r) v (routePass r) (apiResponses r)
     (preview r) (timing r) (screenshots r).
Definition set_routePass (v : option bool) (r : t) : t :=
  mk (success r) (transactionHash r) (error r) (testProgress r) v (apiResponses r)
     (preview r) (timing r) (screenshots r).
Definition set_apiResponses (v : option (jsmap ApiResponseRecord.t)) (r : t) : t :=
  mk (success r) (transactionHash r) (error r) (testProgress r) (routePass r) v
     (preview r) (timing r) (screenshots r).
Definition set_preview (v : option (jsmap json)) (r : t) : t :=
  mk (success r) (transactionHash r) (error r) (testProgress r) (routePass r)
     (apiResponses r) v (timing r) (screenshots r).
Definition set_timing (v : option Timing.t) (r : t) : t :=
  mk (success r) (transactionHash r) (error r) (testProgress r) (routePass r)
     (apiResponses r) (preview r) v (screenshots r).
Definition set_screenshots (v : option (list string)) (r : t) : t :=
  mk (success r) (transactionHash r) (error r) (testProgress r) (routePass r)
     (apiResponses r) (preview r) (timing r) v.
End BridgeOperationOutput.

(* ================================================================== *)
(** ** tests/utils/ApiResponseHandler.ts                                 *)
(* ================================================================== *)

Section ApiResponseHandler.
Context {rt : JsRuntime}.

Definition recordApiResponse (result : BridgeOperationOutput.t)
    (apiResult : ApiResponseResult.t) (responseKey endpoint : string) (now : Z)
    : BridgeOperationOutput.t :=
  let apiResponses := default [] (BridgeOperationOutput.apiResponses result) in
  let responseRecord :=
    ApiResponseRecord.mk endpoint
      (match ApiResponseResult.method apiResult with
       | Some m => if nonempty m then m else "POST"
       | None => "POST"
       end)
      (default 0 (ApiResponseResult.status apiResult))
      (ApiResponseResult.success apiResult)
      (if truthy (ApiResponseResult.data apiResult)
       then ApiResponseResult.data apiResult else JNull)
      now
      (ApiResponseResult.responseTime apiResult) in
  BridgeOperationOutput.set_apiResponses
    (Some (map_set responseKey responseRecord apiResponses)) result.

(** [apiResult.status === n] *)
Definition status_is (n : Z) (apiResult : ApiResponseResult.t) : bool :=
  match ApiResponseResult.status apiResult with
  | Some m => m =? n
  | None => false
  end.

Definition hasNoRoutesFoundError (apiResult : ApiResponseResult.t) : bool :=
  let data := ApiResponseResult.data apiResult in
  (status_is 404 apiResult || negb (ApiResponseResult.success apiResult))
  && truthy data
  && ((typeof_object data
       && (is_str (prop data "message") "no routes found"
           || (is_num (prop data "code") 5
               && is_str (prop data "message") "no routes found")))
      || match data with
         | JStr s => includes s "no routes found"
         | _ => false
         end).

(** The error message the two handlers build for a status other
    than 201; [what] is ["Route"] or ["Messages"]. *)
Definition non201_errorMessage (what : string) (apiResult : ApiResponseResult.t) : string :=
  let data := ApiResponseResult.data apiResult in
  let errorMessage :=
    if truthy data then
      match data with
      | JStr s =>
          match JSON_parse s with
          | Some parsedData => JSON_stringify parsedData
          | None => s
          end
      | JArr _ | JObj _ => JSON_stringify data
      | _ => ""
      end
    else "" in
  if nonempty errorMessage then errorMessage
  else what ++ " API request failed, status code: "
       ++ match ApiResponseResult.status apiResult with
          | Some n => num_to_string n
          | None => "undefined"
          end.

(** [dataStr.includes("error") || dataStr.includes("Error")] on a body
    that is an object. *)
Definition embedded_error (apiResult : ApiResponseResult.t) : option string :=
  let data := ApiResponseResult.data apiResult in
  if truthy data && typeof_object data then
    let dataStr := JSON_stringify data in
    if includes dataStr "error" || includes dataStr "Error" then Some dataStr else None
  else None.

(** [handleRouteApiResponse(result, apiResult)]: whether the operation
    should be aborted, and the result object afterwards. *)
Definition handleRouteApiResponse (result : BridgeOperationOutput.t)
    (apiResult : ApiResponseResult.t) (now : Z) : bool * BridgeOperationOutput.t :=
  let result := recordApiResponse result apiResult "route" "/v2/fungible/route" now in
  if negb (status_is 201 apiResult) then
    let errorMessage := non201_errorMessage "Route" apiResult in
    let errorMessage :=
      if hasNoRoutesFoundError apiResult then "no routes found" else errorMessage in
    (true,
     BridgeOperationOutput.set_routePass (Some false)
       (BridgeOperationOutput.set_testProgress (Some routeTested)
          (BridgeOperationOutput.set_error (Some errorMessage) result)))
  else
    match embedded_error apiResult with
    | Some dataStr =>
        (true,
         BridgeOperationOutput.set_routePass (Some false)
           (BridgeOperationOutput.set_testProgress (Some routeTested)
              (BridgeOperationOutput.set_error (Some dataStr) result)))
    | None =>
        (false,
         BridgeOperationOutput.set_routePass (Some true)
           (BridgeOperationOutput.set_testProgress (Some routeTested) result))
    end.

(** [o?.k] *)
Definition chain (o : option json) (k : string) : option json :=
  match o with
  | None | Some JNull => None
  | Some v => prop v k
  end.

(** [a[0]] on a value that is not [null]. *)
Definition first_item (v : json) : option json :=
  match v with
  | JArr (x :: _) => Some x
  | JObj _ => prop v "0"
  | JStr (String c _) => Some (JStr (String c ""))
  | _ => None
  end.

(** [v.length > 0]; a [length] that is not a number compares [false]. *)
Definition length_positive (v : json) : bool :=
  match prop v "length" with
  | Some (JNum n) => 0 <? n
  | _ => false
  end.

Definition set_preview_field (k : string) (v : json) (result : BridgeOperationOutput.t)
    : BridgeOperationOutput.t :=
  BridgeOperationOutput.set_preview
    (Some (map_set k v (default [] (BridgeOperationOutput.preview result)))) result.

(** The fields [handleMsgsApiResponse] copies into [result.preview]. *)
Definition extract_msgs_preview (data : json) (result : BridgeOperationOutput.t)
    : BridgeOperationOutput.t :=
  let result :=
    BridgeOperationOutput.set_preview
      (Some (default [] (BridgeOperationOutput.preview result))) result in
  let result :=
    match prop data "fee" with
    | Some fee =>
        if truthy fee then
          set_preview_field "fee"
            (JStr (if typeof_object fee then JSON_stringify fee else to_String fee)) result
        else result
    | None => result
    end in
  let result :=
    match prop data "estimatedDuration" with
    | Some d =>
        if truthy d then set_preview_field "estimatedDuration" (JStr (to_String d)) result
        else result
    | None => result
    end in
  match prop data "txs" with
  | Some txs =>
      if truthy txs && length_positive txs then
        let cosmos_tx := chain (first_item txs) "cosmos_tx" in
        let result :=
          match chain cosmos_tx "chain_id" with
          | Some chainId => if truthy chainId then set_preview_field "chainId" chainId result
                            else result
          | None => result
          end in
        let result :=
          match chain cosmos_tx "path" with
          | Some (JArr items) =>
              set_preview_field "path"
                (JStr (join " -> "
                         (map (fun x => match x with JNull => "" | _ => to_String x end)
                              items))) result
          | _ => result
          end in
        let result :=
          match chain cosmos_tx "signer_address" with
          | Some a => if truthy a then set_preview_field "signerAddress" a result else result
          | None => result
          end in
        match chain (chain cosmos_tx "msgs") "length" with
        | Some n => if truthy n then set_preview_field "msgsCount" n result else result
        | None => result
        end
      else result
  | None => result
  end.

Definition handleMsgsApiResponse (result : BridgeOperationOutput.t)
    (apiResult : ApiResponseResult.t) (now : Z) : bool * BridgeOperationOutput.t :=
  let result := recordApiResponse result apiResult "msgs" "/v2/fungible/msgs" now in
  if negb (status_is 201 apiResult) then
    (true,
     BridgeOperationOutput.set_error (Some (non201_errorMessage "Messages" apiResult)) result)
  else
    match embedded_error apiResult with
    | Some dataStr => (true, BridgeOperationOutput.set_error (Some dataStr) result)
    | None =>
        if ApiResponseResult.success apiResult && truthy (ApiResponseResult.data apiResult)
        then (false, extract_msgs_preview (ApiResponseResult.data apiResult) result)
        else (false, result)
    end.

End ApiResponseHandler.

(* ================================================================== *)
(** ** tests/pages/AppPage.ts: the operation pipeline                    *)
(* ================================================================== *)

(** How an awaited call ends. *)
Inductive outcome (A : Type) : Type :=
| Ret (a : A)
| Throw (e : JsError).
Arguments Ret {A} a.
Arguments Throw {A} e.

(** The calls the pipeline makes on its collaborators (page objects,
    the browser page, the monitor). *)
Inductive call :=
| PageScreenshot (name : string)
| VerifyWalletConnected
| ConnectWallet
| LaunchWalletUI
| NavigateToBridgeUI
| WaitForBridgePageLoading
| CheckFormElementsReady
| Wait (ms : Z)
| ClickSelectButton (buttonType : string)
| SelectChainAndToken (chainName tokenSymbol : string)
| KeyboardPress (key : string)
| EnterAmount (amount : string)
| GetBridgePreviewInfo
| EvaluatePreviewRouteButton
| SelectRouteType (routeType : string)
| ClickPreviewRouteButton
| HandleKeplrConfirmation
| ClickSubmitButton
| WaitForTimeout (ms : Z)
| ExtractGasFeeInfo
| IsApproveButtonEnabled
| CheckForErrorMessage
| ClickApproveButton
| HandlePossibleModals
| CancelAllMonitors
| StartMonitoringSpecificPath (path method monitorId : string) (options : MonitorOptions.arg)
| StartMonitoringRpcMethod (methodName paramPath monitorId : string)
    (options : MonitorOptions.arg)
| StartMonitoringBroadcastRPC (methodName monitorId : string) (options : MonitorOptions.arg)
| WaitForResponse (monitorId : string) (timeout : Z).

(** The behaviour of everything outside the pipeline: what the call
    made as the [n]-th one answers, and what the clock reads at the
    [n]-th [Date.now()].  [waitForResponse] returns a result on every
    path and so has no [Throw]. *)
Record Env := mkEnv {
  env_unit : nat -> call -> outcome unit;
  env_bool : nat -> call -> outcome bool;
  env_str : nat -> call -> outcome (option string);
  env_ui : nat -> call -> outcome (jsmap string);
  env_button : nat -> call -> outcome (bool * bool);
  env_api : nat -> call -> ApiResponseResult.t;
  env_clock : nat -> Z
}.

(** The result object under construction, the calls made so far, and
    the number of clock readings taken. *)
Record PState := mkPState {
  result : BridgeOperationOutput.t;
  calls : list call;
  ticks : nat
}.

Definition M (A : Type) : Type := PState -> PState * outcome A.

Definition ret {A} (a : A) : M A := fun st => (st, Ret a).

Definition bind {A B} (m : M A) (k : A -> M B) : M B :=
  fun st =>
    match m st with
    | (st', Ret a) => k a st'
    | (st', Throw e) => (st', Throw e)
    end.

Definition try_catch {A} (body : M A) (handler : JsError -> M A) : M A :=
  fun st =>
    match body st with
    | (st', Ret a) => (st', Ret a)
    | (st', Throw e) => handler e st'
    end.

Declare Scope pipeline_scope.
Delimit Scope pipeline_scope with pipeline.
Notation "'let*' x := m 'in' k" := (bind m (fun x => k))
  (at level 10, x name, m at level 100, k at level 200) : pipeline_scope.
Notation "m ;; k" := (bind m (fun _ => k))
  (at level 100, k at level 200, right associativity) : pipeline_scope.

Definition get_result : M BridgeOperationOutput.t := fun st => (st, Ret (result st)).

Definition update (f : BridgeOperationOutput.t -> BridgeOperationOutput.t) : M unit :=
  fun st => (mkPState (f (result st)) (calls st) (ticks st), Ret tt).

Definition logged (c : call) (st : PState) : PState :=
  mkPState (result st) (calls st ++ [c])%list (ticks st).

(** A call that cannot throw. *)
Definition tell (c : call) : M unit := fun st => (logged c st, Ret tt).

Definition ask {A} (oracle : nat -> call -> outcome A) (c : call) : M A :=
  fun st => (logged c st, oracle (length (calls st)) c).

Definition push_screenshot (path : string) : M unit :=
  update (fun r =>
    match BridgeOperationOutput.screenshots r with
    | Some l => BridgeOperationOutput.set_screenshots (Some (l ++ [path])%list) r
    | None => r
    end).

Definition set_error (msg : string) : M unit :=
  update (BridgeOperationOutput.set_error (Some msg)).

Definition set_progress (p : TestProgress) (pass : bool) : M unit :=
  update (fun r =>
    BridgeOperationOutput.set_routePass (Some pass)
      (BridgeOperationOutput.set_testProgress (Some p) r)).

(** The [options] argument of [finalizeResult]. *)
Record FinalizeOptions := mkFinalize {
  o_success : option bool;
  o_testProgress : option TestProgress;
  o_routePass : option bool
}.

Definition option_or {A} (a b : option A) : option A :=
  match a with Some x => Some x | None => b end.

Definition error_truthy (r : BridgeOperationOutput.t) : bool :=
  truthy_str (BridgeOperationOutput.error r).

(** [/^[A-Za-z0-9+/=]+$/] *)
Definition base64_char (c : ascii) : bool :=
  let n := nat_of_ascii c in
  ((65 <=? n) && (n <=? 90) || (97 <=? n) && (n <=? 122) || (48 <=? n) && (n <=? 57)
   || (n =? 43) || (n =? 47) || (n =? 61))%nat.

Fixpoint all_chars (p : ascii -> bool) (s : string) : bool :=
  match s with
  | EmptyString => true
  | String c s' => p c && all_chars p s'
  end.

Definition looks_base64 (s : string) : bool := nonempty s && all_chars base64_char s.

Fixpoint through_brace (s : string) : option string :=
  match s with
  | EmptyString => None
  | String c s' =>
      if (nat_of_ascii c =? 125)%nat then Some (String c "")
      else option_map (String c) (through_brace s')
  end.

(** [s.match(/error[^}]*}/i)] on a string already in lower case: the
    text from the first ["error"] through the next closing brace. *)
Fixpoint match_error_fragment (s : string) : option string :=
  if String.prefix "error" s then through_brace s
  else match s with
       | EmptyString => None
       | String _ s' => match_error_fragment s'
       end.

(** [result.success === undefined] *)
Definition undefined_success (r : BridgeOperationOutput.t) : bool :=
  match BridgeOperationOutput.success r with None => true | Some _ => false end.

(** [if (options) { ... }]: the fields given in [options] are set as given. *)
Definition apply_options (options : option FinalizeOptions)
    (r : BridgeOperationOutput.t) : BridgeOperationOutput.t :=
  match options with
  | Some o =>
      let r := match o_success o with
               | Some b => BridgeOperationOutput.set_success (Some b) r
               | None => r
               end in
      let r := match o_testProgress o with
               | Some p => BridgeOperationOutput.set_testProgress (Some p) r
               | None => r
               end in
      match o_routePass o with
      | Some b => BridgeOperationOutput.set_routePass (Some b) r
      | None => r
      end
  | None => r
  end.

(** [if (result.error && result.success === undefined) result.success = false] *)
Definition success_from_error (r : BridgeOperationOutput.t) : BridgeOperationOutput.t :=
  if error_truthy r && undefined_success r
  then BridgeOperationOutput.set_success (Some false) r else r.

(** [if (result.routePass === false && result.success === undefined)
     result.success = false] *)
Definition success_from_routePass (r : BridgeOperationOutput.t) : BridgeOperationOutput.t :=
  match BridgeOperationOutput.routePass r with
  | Some false =>
      if undefined_success r then BridgeOperationOutput.set_success (Some false) r else r
  | _ => r
  end.

(** [if (!result.testProgress) { ... }] *)
Definition derive_testProgress (r : BridgeOperationOutput.t) : BridgeOperationOutput.t :=
  match BridgeOperationOutput.testProgress r with
  | Some _ => r
  | None =>
      if match BridgeOperationOutput.error r with
         | Some e => String.eqb e "Wallet connection failed"
         | None => false
         end
      then BridgeOperationOutput.set_testProgress (Some untested) r
      else match BridgeOperationOutput.routePass r with
           | Some _ => BridgeOperationOutput.set_testProgress (Some routeTested) r
           | None => r
           end
  end.

(** [if (result.success === undefined) result.success = true] *)
Definition default_success (r : BridgeOperationOutput.t) : BridgeOperationOutput.t :=
  if undefined_success r then BridgeOperationOutput.set_success (Some true) r else r.

(** The part of [finalizeResult] after the timing fields. *)
Definition finalize_status (options : option FinalizeOptions)
    (r : BridgeOperationOutput.t) : BridgeOperationOutput.t :=
  default_success
    (derive_testProgress
       (success_from_routePass (success_from_error (apply_options options r)))).

Section AppPage.
Context {rt : JsRuntime}.
Variable env : Env.
Variable taskId : string.          (* [process.env.TASKID || '0'] *)

Local Open Scope pipeline_scope.

Definition date_now : M Z :=
  fun st => (mkPState (result st) (calls st) (S (ticks st)), Ret (env_clock env (ticks st))).

(** [BasePage.takeScreenshot]: whatever goes wrong is caught and logged. *)
Definition takeScreenshot (name : string) : M unit :=
  try_catch (ask (env_unit env) (PageScreenshot name)) (fun _ => ret tt).

Definition screenshot_path (name : string) : string :=
  "screenshots/" ++ name ++ "-task-" ++ taskId ++ ".png".

Definition finalizeResult (options : option FinalizeOptions)
    : M BridgeOperationOutput.t :=
  let* r := get_result in
  let* timing :=
    match BridgeOperationOutput.timing r with
    | Some t => ret t
    | None => let* now := date_now in ret (Timing.mk now 0 0)
    end in
  let* startTime :=
    if Timing.startTime timing =? 0 then date_now else ret (Timing.startTime timing) in
  let* endTime := date_now in
  let r :=
    finalize_status options
      (BridgeOperationOutput.set_timing
         (Some (Timing.mk startTime endTime (endTime - startTime))) r) in
  update (fun _ => r) ;; ret r.

Definition setupWalletConnection : M bool :=
  let* walletConnected := ask (env_bool env) VerifyWalletConnected in
  let* proceed :=
    if negb walletConnected then
      ask (env_unit env) ConnectWallet ;;
      let* walletConnected := ask (env_bool env) VerifyWalletConnected in
      if negb walletConnected then set_error "Wallet connection failed" ;; ret false
      else ret true
    else ret true in
  if proceed then ask (env_bool env) LaunchWalletUI ;; ret true
  else ret false.

Definition navigateToBridgeUI : M bool :=
  let* walletUIStarted := ask (env_bool env) LaunchWalletUI in
  if negb walletUIStarted then ret false
  else ask (env_bool env) NavigateToBridgeUI.

Definition configure_side (buttonType chainName tokenSymbol : string) : M unit :=
  ask (env_unit env) (ClickSelectButton buttonType) ;;
  ask (env_unit env) (Wait 1000) ;;
  let* selected := ask (env_bool env) (SelectChainAndToken chainName tokenSymbol) in
  if negb selected then
    ask (env_unit env) (KeyboardPress "Escape") ;;
    ask (env_unit env) (Wait 1000)
  else ret tt.

Definition setupBridgeTransaction (fromChain fromToken toChain toToken : string) : M bool :=
  let* navigatedToBridge := navigateToBridgeUI in
  if negb navigatedToBridge then
    set_error "Unable to navigate to Bridge interface" ;; ret false
  else
    ask (env_unit env) WaitForBridgePageLoading ;;
    let* formReady := ask (env_bool env) CheckFormElementsReady in
    (if negb formReady then ask (env_unit env) (Wait 5000) else ret tt) ;;
    takeScreenshot "bridge-page-loaded" ;;
    push_screenshot (screenshot_path "bridge-page-loaded") ;;
    configure_side "from" fromChain fromToken ;;
    configure_side "to" toChain toToken ;;
    ret true.

Definition preview_of_ui (uiInfo : jsmap string) : jsmap json :=
  map (fun kv => (fst kv, JStr (snd kv))) uiInfo.

Definition set_preview_from_ui (uiInfo : jsmap string) : M unit :=
  update (BridgeOperationOutput.set_preview (Some (preview_of_ui uiInfo))).

Definition checkUIStateForRouteValidity : M bool :=
  takeScreenshot "route-ui-check" ;;
  let* uiInfo := ask (env_ui env) GetBridgePreviewInfo in
  if truthy_str (map_get "error" uiInfo) then
    set_error (default "" (map_get "error" uiInfo)) ;;
    set_progress routeTested false ;; set_preview_from_ui uiInfo ;;
    ret false
  else
    let* previewRouteButtonStatus := ask (env_button env) EvaluatePreviewRouteButton in
    let '(found, enabled) := previewRouteButtonStatus in
    if negb found || negb enabled then
      set_error (if found then "Preview Route button is disabled"
                 else "Preview Route button not found") ;;
      set_progress routeTested false ;; set_preview_from_ui uiInfo ;; ret false
    else set_progress routeTested true ;; set_preview_from_ui uiInfo ;; ret true.

Definition quietOptions (timeout : Z) : MonitorOptions.arg :=
  MonitorOptions.mkArg (Some true) None (Some timeout) (Some true) (Some true).

Definition processAmountAndMonitorRoute (amount : string) : M bool :=
  let* t := date_now in
  let monitorId := "path_monitor_" ++ num_to_string t in
  tell (StartMonitoringSpecificPath "route" "POST" monitorId (quietOptions 5000)) ;;
  let* amountEntered := ask (env_bool env) (EnterAmount amount) in
  let* apiResult := ask (fun n c => Ret (env_api env n c)) (WaitForResponse monitorId 5000) in
  if ApiResponseResult.success apiResult then
    let* now := date_now in
    let* r := get_result in
    let '(shouldAbort, r) := handleRouteApiResponse r apiResult now in
    update (fun _ => r) ;;
    ret (negb shouldAbort)
  else checkUIStateForRouteValidity.

(** [{ ...a, ...b }] *)
Definition spread_objects {V} (a b : jsmap V) : jsmap V :=
  fold_left (fun m kv => map_set (fst kv) (snd kv) m) b
    (fold_left (fun m kv => map_set (fst kv) (snd kv) m) a []).

Definition selectRouteAndGetPreview (routeType : string) : M unit :=
  ask (env_bool env) (SelectRouteType routeType) ;;
  takeScreenshot "bridge-form-filled" ;;
  push_screenshot (screenshot_path "bridge-form-filled") ;;
  let* uiPreviewInfo := ask (env_ui env) GetBridgePreviewInfo in
  update (fun r =>
    BridgeOperationOutput.set_preview
      (Some (spread_objects (preview_of_ui uiPreviewInfo)
               (default [] (BridgeOperationOutput.preview r)))) r).

(** [responseData.response && responseData.response.result], when truthy. *)
Definition nested_result (responseData : json) : json :=
  match prop responseData "response" with
  | Some resp =>
      if truthy resp then
        match prop resp "result" with
        | Some rr => if truthy rr then rr else JNull
        | None => JNull
        end
      else JNull
  | None => JNull
  end.

(** The value [handleSimulateRpcResponse] checks for errors, [JNull]
    when the response carries none. *)
Definition simulateResult_of (responseData : json) : json :=
  match prop responseData "result" with
  | Some (JStr s) =>
      if nonempty s then
        if looks_base64 s then
          match atob s with
          | Some decodedResult =>
              match JSON_parse decodedResult with
              | Some v => v
              | None => JStr decodedResult
              end
          | None => JStr s
          end
        else match JSON_parse s with
             | Some v => v
             | None => JStr s
             end
      else nested_result responseData
  | Some r => if truthy r then r else nested_result responseData
  | None => nested_result responseData
  end.

(** [a || b] on values that may be [undefined]. *)
Definition js_or (a b : option json) : option json :=
  if truthy_opt a then a else b.

(** The error of a simulation result, when it has one. *)
Definition simulate_error (simulateResult : json) : option string :=
  if truthy simulateResult then
    let code := prop simulateResult "code" in
    if match code with Some _ => negb (is_num code 0) | None => false end then
      let errorMessage :=
        match js_or (prop simulateResult "raw_log") (prop simulateResult "message") with
        | Some m => if truthy m then to_String m else "Code: " ++ to_String_opt code
        | None => "Code: " ++ to_String_opt code
        end in
      Some errorMessage
    else
      let resultString := toLowerCase (JSON_stringify simulateResult) in
      if includes resultString "error" || includes resultString "fail" then
        Some (if truthy_opt (prop simulateResult "raw_log")
              then to_String_opt (prop simulateResult "raw_log")
              else if truthy_opt (prop simulateResult "log")
              then to_String_opt (prop simulateResult "log")
              else default "Unknown error" (match_error_fragment resultString))
      else None
  else None.

(** [handleSimulateRpcResponse(result, rpcResult)]: [true] when the
    simulation failed.  Nothing in the body throws on the values of
    this model, so the handler of its [try] is not reached. *)
Definition handleSimulateRpcResponse (rpcResult : ApiResponseResult.t) : M bool :=
  let* now := date_now in
  update (fun r =>
    BridgeOperationOutput.set_apiResponses
      (Some (map_set "simulate"
               (ApiResponseRecord.mk "/cosmos.tx.v1beta1.Service/Simulate" "POST"
                  (default 0 (ApiResponseResult.status rpcResult))
                  (ApiResponseResult.success rpcResult)
                  (if truthy (ApiResponseResult.data rpcResult)
                   then ApiResponseResult.data rpcResult else JNull)
                  now (ApiResponseResult.responseTime rpcResult))
               (default [] (BridgeOperationOutput.apiResponses r)))) r) ;;
  let responseData := ApiResponseResult.data rpcResult in
  if negb (truthy responseData) then ret false
  else if truthy_opt (prop responseData "error") then
    let e := default JNull (prop responseData "error") in
    set_error ("Transaction simulation failed: "
               ++ (if typeof_object e then JSON_stringify e else to_String e)) ;;
    ret true
  else
    match simulate_error (simulateResult_of responseData) with
    | Some errorMessage =>
        set_error ("Transaction simulation failed: " ++ errorMessage) ;; ret true
    | None => ret false
    end.

Definition simulateOptions : MonitorOptions.arg :=
  MonitorOptions.mkArg (Some true) (Some true) (Some 15000) None (Some true).

Definition previewAndSubmitRoute : M bool :=
  let* t := date_now in
  let msgsMonitorId := "path_monitor_" ++ num_to_string t in
  tell (StartMonitoringSpecificPath "msgs" "POST" msgsMonitorId (quietOptions 5000)) ;;
  let* clickedPreviewRoute := ask (env_bool env) ClickPreviewRouteButton in
  if negb clickedPreviewRoute then
    set_error "Unable to click Preview Route button" ;; ret false
  else
    ask (env_bool env) HandleKeplrConfirmation ;;
    let* msgsApiResult :=
      ask (fun n c => Ret (env_api env n c)) (WaitForResponse msgsMonitorId 10000) in
    let* shouldAbort :=
      if ApiResponseResult.success msgsApiResult then
        let* now := date_now in
        let* r := get_result in
        let '(shouldAbort, r) := handleMsgsApiResponse r msgsApiResult now in
        update (fun _ => r) ;; ret shouldAbort
      else ret false in
    if shouldAbort then ret false
    else
      takeScreenshot "route-preview-page" ;;
      push_screenshot (screenshot_path "route-preview-page") ;;
      let* t := date_now in
      let simulateMonitorId := "simulate_monitor_" ++ num_to_string t in
      tell (StartMonitoringRpcMethod "abci_query" "Simulate" simulateMonitorId
              simulateOptions) ;;
      let* clickedSubmit := ask (env_bool env) ClickSubmitButton in
      if negb clickedSubmit then set_error "Unable to click Submit button" ;; ret false
      else
        ask (env_bool env) HandleKeplrConfirmation ;;
        let* simulateResult :=
          ask (fun n c => Ret (env_api env n c)) (WaitForResponse simulateMonitorId 15000) in
        if ApiResponseResult.success simulateResult then
          let* isSimulateError := handleSimulateRpcResponse simulateResult in
          if isSimulateError then
            set_progress SignTested true ;;
            update (BridgeOperationOutput.set_success (Some false)) ;;
            ret false
          else ret true
        else ret true.

Definition broadcastOptions : MonitorOptions.arg :=
  MonitorOptions.mkArg (Some true) (Some true) (Some 15000) None None.

Definition handleTransactionConfirmation : M bool :=
  try_catch
    (ask (env_unit env) (WaitForTimeout 2000) ;;
     try_catch
       (let* fee := ask (env_str env) ExtractGasFeeInfo in
        match fee with
        | Some f => if nonempty f then update (set_preview_field "gasfee" (JStr f)) else ret tt
        | None => ret tt
        end)
       (fun error =>
          set_error ("Failed to extract Gas Fee information: " ++ message error)) ;;
     set_progress SignTested true ;;
     let* isApproveButtonEnabled := ask (env_bool env) IsApproveButtonEnabled in
     if negb isApproveButtonEnabled then
       set_error "Approve button is disabled" ;;
       let* errorMessage := ask (env_str env) CheckForErrorMessage in
       (if truthy_str errorMessage then
          set_error ("Approve button is disabled" ++ ", reason might be: "
                     ++ default "" errorMessage)
        else ret tt) ;;
       update (BridgeOperationOutput.set_success (Some false)) ;;
       ret false
     else
       let* t := date_now in
       let broadcastMonitorId := "broadcast_monitor_" ++ num_to_string t in
       tell (StartMonitoringBroadcastRPC "broadcast_tx_sync" broadcastMonitorId
               broadcastOptions) ;;
       let* clickedApprove := ask (env_bool env) ClickApproveButton in
       (if negb clickedApprove then ask (env_bool env) HandlePossibleModals ;; ret tt
        else ret tt) ;;
       ask (env_bool env) HandleKeplrConfirmation ;;
       let* broadcastResult :=
         ask (fun n c => Ret (env_api env n c)) (WaitForResponse broadcastMonitorId 15000) in
       if ApiResponseResult.success broadcastResult then
         let '(txSuccess, txHash, txError) := processBroadcastResponse broadcastResult in
         if txSuccess then
           (match txHash with
            | Some h => update (BridgeOperationOutput.set_transactionHash (Some h))
            | None => ret tt
            end) ;;
           update (BridgeOperationOutput.set_success (Some true)) ;;
           ret true
         else
           update (BridgeOperationOutput.set_error txError) ;;
           update (BridgeOperationOutput.set_success (Some false)) ;;
           ret false
       else ret true)
    (fun error =>
       set_error ("Transaction confirmation failed: " ++ message error) ;; ret false).

Definition initial_result (startTime : Z) : BridgeOperationOutput.t :=
  BridgeOperationOutput.mk (Some false) None None (Some untested) None (Some []) None
    (Some (Timing.mk startTime 0 0)) (Some []).

Definition performBridgeOperation_body
    (amount fromChain fromToken toChain toToken routeType : string)
    : M BridgeOperationOutput.t :=
  takeScreenshot "bridge-operation-start" ;;
  push_screenshot (screenshot_path "bridge-operation-start") ;;
  tell CancelAllMonitors ;;
  let* connected := setupWalletConnection in
  if negb connected then
    finalizeResult (Some (mkFinalize (Some false) (Some untested) None))
  else
    let* configured := setupBridgeTransaction fromChain fromToken toChain toToken in
    if negb configured then
      finalizeResult (Some (mkFinalize (Some false) (Some untested) None))
    else
      let* routed := processAmountAndMonitorRoute amount in
      if negb routed then
        finalizeResult (Some (mkFinalize (Some false) (Some routeTested) (Some false)))
      else
        selectRouteAndGetPreview routeType ;;
        let* submitted := previewAndSubmitRoute in
        if negb submitted then
          finalizeResult (Some (mkFinalize (Some false) (Some routeTested) (Some false)))
        else
          let* confirmed := handleTransactionConfirmation in
          if negb confirmed then
            finalizeResult (Some (mkFinalize (Some false) (Some SignTested) (Some true)))
          else
            finalizeResult (Some (mkFinalize (Some true) (Some SignTested) (Some true))).

(** The [catch] of [performBridgeOperation]. *)
Definition performBridgeOperation_catch (error : JsError) : M BridgeOperationOutput.t :=
  update (BridgeOperationOutput.set_error (Some (message error))) ;;
  takeScreenshot "bridge-operation-error" ;;
  push_screenshot (screenshot_path "bridge-operation-error") ;;
  let* r := get_result in
  finalizeResult
    (Some (mkFinalize (Some false) (BridgeOperationOutput.testProgress r)
             (BridgeOperationOutput.routePass r))).

(** [performBridgeOperation(amount, fromChain, fromToken, toChain,
    toToken, routeType)]: how the call ends, with the calls it made. *)
Definition performBridgeOperation
    (amount fromChain fromToken toChain toToken routeType : string)
    : PState * outcome BridgeOperationOutput.t :=
  let startTime := env_clock env 0 in
  try_catch
    (performBridgeOperation_body amount fromChain fromToken toChain toToken routeType)
    performBridgeOperation_catch
    (mkPState (initial_result startTime) [] 1).

End AppPage.

(* ================================================================== *)
(** ** A runtime for closed scenarios                                    *)
(* ================================================================== *)

(** The runtime of a scenario: [JSON.parse] accepts exactly the texts
    listed in [documents] and [atob] decodes exactly those in
    [encodings]. *)
Definition scenario_runtime (documents : list (string * json))
    (encodings : list (string * string)) : JsRuntime :=
  {| JSON_parse := fun s => assoc s documents;
     atob := fun s => assoc s encodings |}.

(* ================================================================== *)
(** ** More of the sources                                               *)
(* ================================================================== *)

(** [getAllTraffic()] of tests/utils/ApiMonitor.ts. *)
Definition getAllTraffic (s : ApiMonitor)
    : list CapturedRequest.t * list CapturedResponse.t :=
  (default [] (map_get "all" (capturedRequests s)),
   default [] (map_get "all" (capturedResponses s))).

(** [getMonitorTraffic(monitorId)] of tests/utils/ApiMonitor.ts. *)
Definition getMonitorTraffic (monitorId : string) (s : ApiMonitor)
    : list CapturedRequest.t * list CapturedResponse.t :=
  (default [] (map_get monitorId (capturedRequests s)),
   default [] (map_get monitorId (capturedResponses s))).

(** [fileName] in [takeScreenshot(name)] of tests/pages/BasePage.ts. *)
Definition screenshot_fileName (taskId name : string) : string :=
  if includes name ("task-" ++ taskId) then name ++ ".png"
  else name ++ "-task-" ++ taskId ++ ".png".

(** The [path] handed to [page.screenshot]. *)
Definition screenshot_file (taskId name : string) : string :=
  "./screenshots/" ++ screenshot_fileName taskId name.

(* ================================================================== *)
(** ** Vocabulary of the properties                                      *)
(* ================================================================== *)

(** A controller whose flags and settlement history agree: pending and
    never settled, or settled exactly once. *)
Definition ctrl_ok (c : PromiseController.t) : Prop :=
  match PromiseController.promise c with
  | [] => PromiseController.isResolved c = false /\ PromiseController.isRejected c = false
  | [Resolve _] =>
      PromiseController.isResolved c = true /\ PromiseController.isRejected c = false
  | [Reject _] =>
      PromiseController.isResolved c = false /\ PromiseController.isRejected c = true
  | _ => False
  end.

(** What can happen to a controller object: nothing, or one settlement
    while it is pending. *)
Definition evolves (c c' : PromiseController.t) : Prop :=
  c' = c \/ (pending c = true /\ exists how, c' = settle how c).

Definition heap_evolves (h h' : list PromiseController.t) : Prop :=
  (forall a c, h !! a = Some c -> exists c', h' !! a = Some c' /\ evolves c c')
  /\ (forall a c', h !! a = None -> h' !! a = Some c' -> ctrl_ok c').

(** The controller at address [a] is the controller of a registered monitor. *)
Definition referenced (s : ApiMonitor) (a : nat) : Prop :=
  exists monitorId, map_get monitorId (monitorPromises s) = Some a.

(** The effect of a listener on the state: it appends to the traffic
    logs and settles pending controllers of registered monitors,
    nothing else. *)
Record listener_rel (s s' : ApiMonitor) : Prop := mkListenerRel {
  lr_promises : monitorPromises s' = monitorPromises s;
  lr_starts : monitorStartTimes s' = monitorStartTimes s;
  lr_paths : monitorPaths s' = monitorPaths s;
  lr_options : monitorOptions s' = monitorOptions s;
  lr_methods : monitorMethods s' = monitorMethods s;
  lr_timers : timers s' = timers s;
  lr_waiters : waiters s' = waiters s;
  lr_length : length (controllers s') = length (controllers s);
  lr_heap : heap_evolves (controllers s) (controllers s');
  lr_unref : forall a, ~ referenced s a -> controllers s' !! a = controllers s !! a
}.

Definition not_armed (o : option TimerState) : Prop := forall cl, o <> Some (TArmed cl).

(** What can happen to a timer: it fires or it is cleared, once. *)
Definition timer_step (st st' : TimerState) : Prop :=
  st' = st \/ exists cl, st = TArmed cl /\ (st' = TFired cl \/ st' = TCleared).

Definition timers_evolve (t t' : list TimerState) : Prop :=
  forall tid st, t !! tid = Some st -> exists st', t' !! tid = Some st' /\ timer_step st st'.

(** The timer [cleanupMonitor] clears, if any. *)
Definition monitor_timer (monitorId : string) (s : ApiMonitor) : option nat :=
  match map_get monitorId (monitorPromises s) with
  | Some a =>
      match controllers s !! a with
      | Some c => PromiseController.timeoutId c
      | None => None
      end
  | None => None
  end.

Definition cleanup_all (ks : list string) (s : ApiMonitor) : ApiMonitor :=
  fold_left (fun s monitorId => cleanupMonitor monitorId s) ks s.

(** What the delivery of events can do to the registry: controllers
    settle, timers fire or are cleared, and the page closing empties
    the registry. *)
Record event_rel (s s' : ApiMonitor) : Prop := mkEventRel {
  ev_heap : heap_evolves (controllers s) (controllers s');
  ev_clen : length (controllers s') = length (controllers s);
  ev_timers : timers_evolve (timers s) (timers s');
  ev_tlen : length (timers s') = length (timers s);
  ev_promises : monitorPromises s' = monitorPromises s \/ monitorPromises s' = [];
  ev_cleared : forall monitorId tid,
    monitor_timer monitorId s = Some tid -> (tid < length (timers s))%nat ->
    monitor_timer monitorId s' = Some tid \/ not_armed (timers s' !! tid);
  ev_free : forall tid cl,
    (forall a c, controllers s !! a = Some c -> PromiseController.timeoutId c <> Some tid) ->
    timers s !! tid = Some (TArmed cl) ->
    timers s' !! tid = Some (TArmed cl) \/ timers s' !! tid = Some (TFired cl);
  ev_unref : forall a, ~ referenced s a -> controllers s' !! a = controllers s !! a
}.

(** What every reachable state satisfies: the keys of the registry are
    distinct and a controller's timer identifier names a timer. *)
Definition wf (s : ApiMonitor) : Prop :=
  NoDup (map_keys (monitorPromises s))
  /\ forall a c t, controllers s !! a = Some c ->
                   PromiseController.timeoutId c = Some t -> (t < length (timers s))%nat.

(** What a call can do: controllers settle (new ones are well formed)
    and a well-formed registry stays so. *)
Definition op_rel (s s' : ApiMonitor) : Prop :=
  heap_evolves (controllers s) (controllers s')
  /\ (wf s -> wf s')
  /\ (forall a, (a < length (controllers s))%nat -> ~ referenced s a ->
                ~ referenced s' a /\ controllers s' !! a = controllers s !! a).

Inductive MonitorState := Pending | Resolved | Rejected | Cancelled.

(** The state of the monitor whose controller is the object at address
    [a]: [Resolved] and [Rejected] are the controller's flags;
    a controller with neither flag belongs to a [Pending] monitor while
    the registry refers to it and to a [Cancelled] one afterwards. *)
Definition monitor_state (s : ApiMonitor) (a : nat) (st : MonitorState) : Prop :=
  exists c, controllers s !! a = Some c
    /\ match st with
       | Resolved => PromiseController.isResolved c = true
       | Rejected => PromiseController.isResolved c = false
                     /\ PromiseController.isRejected c = true
       | Pending => pending c = true /\ referenced s a
       | Cancelled => pending c = true /\ ~ referenced s a
       end.

(** The outcome of the race of a wait on a registered monitor, [None]
    while the wait is suspended or when the monitor is not registered. *)
Definition wait_outcome {rt : JsRuntime} (monitorId : string) (timeout : Z)
    (during : list Event) (s : ApiMonitor) : option RaceOutcome :=
  match map_get monitorId (monitorPromises s) with
  | None => None
  | Some controller =>
      let '(src, tid, s1) := wait_arm monitorId timeout controller s in
      fst (await_race src tid timeout during s1)
  end.

(** A runtime whose [JSON.parse] rejects every text. *)
Definition rt_none : JsRuntime := scenario_runtime [] [].

Definition route_options : MonitorOptions.arg :=
  MonitorOptions.mkArg (Some true) None (Some 5000) (Some true) (Some true).

(** One one-time monitor ["m1"] on the partial path ["route"]. *)
Definition route_monitor_ops : list Op := [OpStartPath "route" "POST" "m1" route_options 100].

Definition route_url : string := "https://api.example/v2/fungible/route".


Definition plain_get : Request.t := Request.mk route_url "GET" None.

(** After a wait has consumed ["m1"], a second wait on it finds nothing. *)
Definition consumed_ops : list Op :=
  route_monitor_ops ++ [OpWait "m1" 5000 102 [EvTimer 1] 110 []].


Definition body_with_error_text : ApiResponseResult.t :=
  ApiResponseResult.mk true (JStr "Internal Server Error") 12 None None
    (Some route_url) (Some 201) (Some "POST") None (Some false).

Definition blank_result : BridgeOperationOutput.t := initial_result 0.

Definition object_with_error_field : ApiResponseResult.t :=
  ApiResponseResult.mk true (JObj [("error", JStr "route unavailable")]) 12 None None
    (Some route_url) (Some 201) (Some "POST") None (Some false).

(** A result record as [finalizeResult] leaves it in state [st]:
    [endTime] is the last clock reading and [duration] the difference. *)
Definition finalized (env : Env) (st : PState) (r : BridgeOperationOutput.t) : Prop :=
  result st = r
  /\ exists t, BridgeOperationOutput.timing r = Some t
               /\ Timing.endTime t = env_clock env (pred (ticks st))
               /\ Timing.duration t = Timing.endTime t - Timing.startTime t.

(** A computation that returns, when it returns, a finalized result. *)
Definition finalizing (env : Env) (m : M BridgeOperationOutput.t) : Prop :=
  forall st st' r, m st = (st', Ret r) -> finalized env st' r.

(** Steps of [finalizeResult] that only derive [success] and
    [testProgress] where they are undefined. *)
Definition derivation (f : BridgeOperationOutput.t -> BridgeOperationOutput.t) : Prop :=
  forall r,
    BridgeOperationOutput.error (f r) = BridgeOperationOutput.error r
    /\ BridgeOperationOutput.timing (f r) = BridgeOperationOutput.timing r
    /\ BridgeOperationOutput.transactionHash (f r) = BridgeOperationOutput.transactionHash r
    /\ BridgeOperationOutput.routePass (f r) = BridgeOperationOutput.routePass r
    /\ (forall b, BridgeOperationOutput.success r = Some b ->
                  BridgeOperationOutput.success (f r) = Some b)
    /\ (forall p, BridgeOperationOutput.testProgress r = Some p ->
                  BridgeOperationOutput.testProgress (f r) = Some p).

(** Every page object does what it is asked: nothing throws, every
    boolean answer is [true], the preview shows no fields, no error
    text and no gas fee are found, and the Preview Route button is
    present and enabled. *)
Definition cooperative (env : Env) : Prop :=
  (forall n c, env_unit env n c = Ret tt)
  /\ (forall n c, env_bool env n c = Ret true)
  /\ (forall n c, env_str env n c = Ret None)
  /\ (forall n c, env_ui env n c = Ret [])
  /\ (forall n c, env_button env n c = Ret (true, true)).

(** The only response captured in the run is [captured], by the
    monitors whose identifier starts with [prefix]; the waits on the
    other monitors come back without one. *)
Definition captures_only (env : Env) (prefix : string) (captured : ApiResponseResult.t)
    : Prop :=
  forall n monitorId timeout,
    if String.prefix prefix monitorId
    then env_api env n (WaitForResponse monitorId timeout) = captured
    else ApiResponseResult.success (env_api env n (WaitForResponse monitorId timeout))
         = false.


(** The calls of a run that stops at the simulation. *)
Definition simulate_abort_trace (clock : nat -> Z)
    (amount fromChain fromToken toChain toToken routeType : string) : list call :=
  [PageScreenshot "bridge-operation-start"; CancelAllMonitors;
   VerifyWalletConnected; LaunchWalletUI; LaunchWalletUI; NavigateToBridgeUI;
   WaitForBridgePageLoading; CheckFormElementsReady;
   PageScreenshot "bridge-page-loaded";
   ClickSelectButton "from"; Wait 1000; SelectChainAndToken fromChain fromToken;
   ClickSelectButton "to"; Wait 1000; SelectChainAndToken toChain toToken;
   StartMonitoringSpecificPath "route" "POST" ("path_monitor_" ++ num_to_string (clock 1%nat))
     (quietOptions 5000);
   EnterAmount amount;
   WaitForResponse ("path_monitor_" ++ num_to_string (clock 1%nat)) 5000;
   PageScreenshot "route-ui-check"; GetBridgePreviewInfo; EvaluatePreviewRouteButton;
   SelectRouteType routeType; PageScreenshot "bridge-form-filled"; GetBridgePreviewInfo;
   StartMonitoringSpecificPath "msgs" "POST" ("path_monitor_" ++ num_to_string (clock 2%nat))
     (quietOptions 5000);
   ClickPreviewRouteButton; HandleKeplrConfirmation;
   WaitForResponse ("path_monitor_" ++ num_to_string (clock 2%nat)) 10000;
   PageScreenshot "route-preview-page";
   StartMonitoringRpcMethod "abci_query" "Simulate"
     ("simulate_monitor_" ++ num_to_string (clock 3%nat)) simulateOptions;
   ClickSubmitButton; HandleKeplrConfirmation;
   WaitForResponse ("simulate_monitor_" ++ num_to_string (clock 3%nat)) 15000].

(** What [waitForResponse] returns when the wait timed out. *)
Definition no_capture : ApiResponseResult.t :=
  ApiResponseResult.mk false JNull 5000 (Some "Waiting for response timed out (5000ms)")
    None None None None None (Some true).

(** An environment in which every collaborator succeeds and the
    monitors whose identifier starts with [prefix] capture [captured]. *)
Definition scripted_env (prefix : string) (captured : ApiResponseResult.t) : Env :=
  mkEnv (fun _ _ => Ret tt) (fun _ _ => Ret true) (fun _ _ => Ret None)
    (fun _ _ => Ret []) (fun _ _ => Ret (true, true))
    (fun _ c =>
       match c with
       | WaitForResponse monitorId _ =>
           if String.prefix prefix monitorId then captured else no_capture
       | _ => no_capture
       end)
    (fun n => 1700000000000 + Z.of_nat n).



Definition rpc_url : string := "https://rpc.example/".

Definition insufficient_funds_result : ApiResponseResult.t :=
  ApiResponseResult.mk true
    (JObj [("jsonrpc", JStr "2.0"); ("id", JNum 7);
           ("result", JObj [("code", JNum 5); ("raw_log", JStr "insufficient funds")])])
    31 None None (Some rpc_url) (Some 200) (Some "POST") (Some (JNum 7)) (Some false).

Definition broadcast_ok_result : ApiResponseResult.t :=
  ApiResponseResult.mk true
    (JObj [("jsonrpc", JStr "2.0"); ("id", JNum 8);
           ("result", JObj [("code", JNum 0); ("hash", JStr "ABC123")])])
    25 None None (Some rpc_url) (Some 200) (Some "POST") (Some (JNum 8)) (Some false).

(** An environment in which the click on a select button fails. *)
Definition throwing_env : Env :=
  mkEnv
    (fun _ c =>
       match c with
       | ClickSelectButton _ => Throw (mkError "Target closed" false)
       | _ => Ret tt
       end)
    (fun _ _ => Ret true) (fun _ _ => Ret None) (fun _ _ => Ret [])
    (fun _ _ => Ret (true, true)) (fun _ _ => no_capture)
    (fun n => 1700000000000 + Z.of_nat n).

(** The entries of one identifier in both logs are the same. *)
Definition same_traffic (monitorId : string) (s s' : ApiMonitor) : Prop :=
  map_get monitorId (capturedRequests s') = map_get monitorId (capturedRequests s)
  /\ map_get monitorId (capturedResponses s') = map_get monitorId (capturedResponses s).

(** The five bookkeeping maps of the registry are the same. *)
Definition same_registry (s s' : ApiMonitor) : Prop :=
  monitorPromises s' = monitorPromises s
  /\ monitorStartTimes s' = monitorStartTimes s
  /\ monitorPaths s' = monitorPaths s
  /\ monitorOptions s' = monitorOptions s
  /\ monitorMethods s' = monitorMethods s.

(** The keys of [monitorPaths] stay distinct, as those of a [Map] are. *)
Definition paths_rel (s s' : ApiMonitor) : Prop :=
  NoDup (map_keys (monitorPaths s)) -> NoDup (map_keys (monitorPaths s')).

(** The controller at address [a] has been resolved with [response]. *)
Definition resolved_with (a : nat) (response : Response.t) (s : ApiMonitor) : Prop :=
  exists c, controllers s !! a = Some c
            /\ promise_state c = Some (RaceResponse response).

(** It is still open, or has been resolved with [response]. *)
Definition open_or_resolved (a : nat) (response : Response.t) (s : ApiMonitor) : Prop :=
  exists c, controllers s !! a = Some c
            /\ ((pending c = true /\ PromiseController.promise c = [])
                \/ promise_state c = Some (RaceResponse response)).

(** Every identifier with a start time, a path, options or a method
    has a controller. *)
Definition registry_closed (s : ApiMonitor) : Prop :=
  forall k,
    k ∈ map_keys (monitorStartTimes s) \/ k ∈ map_keys (monitorPaths s)
    \/ k ∈ map_keys (monitorOptions s) \/ k ∈ map_keys (monitorMethods s) ->
    k ∈ map_keys (monitorPromises s).

Definition closed_rel (s s' : ApiMonitor) : Prop := registry_closed s -> registry_closed s'.

(** The result objects that differ at most in [preview]. *)
Definition same_but_preview (r r' : BridgeOperationOutput.t) : Prop :=
  BridgeOperationOutput.success r' = BridgeOperationOutput.success r
  /\ BridgeOperationOutput.transactionHash r' = BridgeOperationOutput.transactionHash r
  /\ BridgeOperationOutput.error r' = BridgeOperationOutput.error r
  /\ BridgeOperationOutput.testProgress r' = BridgeOperationOutput.testProgress r
  /\ BridgeOperationOutput.routePass r' = BridgeOperationOutput.routePass r
  /\ BridgeOperationOutput.apiResponses r' = BridgeOperationOutput.apiResponses r
  /\ BridgeOperationOutput.timing r' = BridgeOperationOutput.timing r
  /\ BridgeOperationOutput.screenshots r' = BridgeOperationOutput.screenshots r.

(** The preview shows [v] under the key [k]. *)
Definition preview_shows (k : string) (v : json) (r : BridgeOperationOutput.t) : Prop :=
  exists pv, BridgeOperationOutput.preview r = Some pv /\ map_get k pv = Some v.

(** The calls of a run that goes through every stage. *)
Definition complete_trace (clock : nat -> Z)
    (amount fromChain fromToken toChain toToken routeType : string) : list call :=
  (simulate_abort_trace clock amount fromChain fromToken toChain toToken routeType
   ++ [WaitForTimeout 2000; ExtractGasFeeInfo; IsApproveButtonEnabled;
       StartMonitoringBroadcastRPC "broadcast_tx_sync"
         ("broadcast_monitor_" ++ num_to_string (clock 4%nat)) broadcastOptions;
       ClickApproveButton; HandleKeplrConfirmation;
       WaitForResponse ("broadcast_monitor_" ++ num_to_string (clock 4%nat)) 15000])%list.

Definition plain_response : Response.t :=
  Response.mk route_url 200 plain_get (Some (JObj [("ok", JBool true)])) None.

Definition server_error_result : ApiResponseResult.t :=
  ApiResponseResult.mk true (JObj [("message", JStr "no routes found")]) 12 None None
    (Some route_url) (Some 500) (Some "POST") None (Some false).

(** An environment in which the wallet is never connected. *)
Definition disconnected_env : Env :=
  mkEnv (fun _ _ => Ret tt)
    (fun _ c => match c with VerifyWalletConnected => Ret false | _ => Ret true end)
    (fun _ _ => Ret None) (fun _ _ => Ret []) (fun _ _ => Ret (true, true))
    (fun _ _ => no_capture) (fun n => 1700000000000 + Z.of_nat n).

(** An environment in which the Bridge interface cannot be reached. *)
Definition unreachable_env : Env :=
  mkEnv (fun _ _ => Ret tt)
    (fun _ c => match c with NavigateToBridgeUI => Ret false | _ => Ret true end)
    (fun _ _ => Ret None) (fun _ _ => Ret []) (fun _ _ => Ret (true, true))
    (fun _ _ => no_capture) (fun n => 1700000000000 + Z.of_nat n).

(** An environment in which the Approve button is disabled and the
    page says why. *)
Definition disabled_approve_env : Env :=
  mkEnv (fun _ _ => Ret tt)
    (fun _ c => match c with IsApproveButtonEnabled => Ret false | _ => Ret true end)
    (fun _ c =>
       match c with
       | CheckForErrorMessage => Ret (Some "Insufficient balance")
       | _ => Ret None
       end)
    (fun _ _ => Ret []) (fun _ _ => Ret (true, true))
    (fun _ _ => no_capture) (fun n => 1700000000000 + Z.of_nat n).

(** A broadcast the chain rejects. *)
Definition broadcast_rejected_result : ApiResponseResult.t :=
  ApiResponseResult.mk true
    (JObj [("jsonrpc", JStr "2.0"); ("id", JNum 9);
           ("result", JObj [("code", JNum 13); ("log", JStr "insufficient fees")])])
    25 None None (Some rpc_url) (Some 200) (Some "POST") (Some (JNum 9)) (Some false).

(** An environment whose every wait returns the rejected broadcast. *)
Definition rejecting_env : Env :=
  mkEnv (fun _ _ => Ret tt) (fun _ _ => Ret true) (fun _ _ => Ret None)
    (fun _ _ => Ret []) (fun _ _ => Ret (true, true))
    (fun _ _ => broadcast_rejected_result) (fun n => 1700000000000 + Z.of_nat n).

(* ================================================================== *)
(** ** Properties                                                        *)
(* ================================================================== *)

(* ================================================================== *)
(** * Properties                                                        *)
(* ================================================================== *)

(** ** Maps *)

Lemma map_get_delete_eq {V} (k : string) (m : jsmap V) :
  map_get k (map_delete k m) = None.
Proof.
  induction m as [|[k' v] m IH]; simpl; [reflexivity|].
  destruct (String.eqb_spec k k') as [->|Hne]; [exact IH|].
  unfold map_get in *; simpl.
  destruct (String.eqb_spec k k'); [contradiction|exact IH].
Qed.

Lemma map_has_delete_eq {V} (k : string) (m : jsmap V) :
  map_has k (map_delete k m) = false.
Proof. unfold map_has. now rewrite map_get_delete_eq. Qed.

Lemma map_get_In_keys {V} (k : string) (m : jsmap V) (v : V) :
  map_get k m = Some v -> k ∈ map_keys m.
Proof.
  induction m as [|[k' v'] m IH]; unfold map_get; simpl; [discriminate|].
  destruct (String.eqb_spec k k') as [->|Hne]; [intros _; apply list_elem_of_here|].
  intros H. apply list_elem_of_further. now apply IH.
Qed.

Lemma map_delete_absent {V} (k : string) (m : jsmap V) :
  k ∉ map_keys m -> map_delete k m = m.
Proof.
  induction m as [|[k' v'] m IH]; simpl; [reflexivity|].
  intros H. apply not_elem_of_cons in H as [Hne H].
  destruct (String.eqb_spec k k') as [->|_]; [contradiction|].
  f_equal. now apply IH.
Qed.

Lemma map_size_delete {V} (k : string) (m : jsmap V) (v : V) :
  NoDup (map_keys m) -> map_get k m = Some v ->
  S (map_size (map_delete k m)) = map_size m.
Proof.
  induction m as [|[k' v'] m IH]; unfold map_get; simpl; [discriminate|].
  intros Hnd Hget. apply NoDup_cons in Hnd as [Hnotin Hnd].
  destruct (String.eqb_spec k k') as [->|Hne].
  - rewrite map_delete_absent by exact Hnotin. reflexivity.
  - simpl. f_equal. now apply IH.
Qed.

Lemma map_keys_set {V} (k : string) (v : V) (m : jsmap V) :
  map_keys (map_set k v m)
  = if map_has k m then map_keys m else (map_keys m ++ [k])%list.
Proof.
  induction m as [|[k' v'] m IH]; unfold map_has, map_get; simpl; [reflexivity|].
  destruct (String.eqb_spec k k') as [->|Hne]; simpl; [reflexivity|].
  rewrite IH. unfold map_has, map_get. now destruct (assoc k m).
Qed.

Lemma map_has_In_keys {V} (k : string) (m : jsmap V) :
  map_has k m = false -> k ∉ map_keys m.
Proof.
  induction m as [|[k' v'] m IH]; unfold map_has, map_get; simpl; [intros _; apply not_elem_of_nil|].
  destruct (String.eqb_spec k k') as [->|Hne]; [discriminate|].
  intros H. apply not_elem_of_cons. split; [exact Hne|now apply IH].
Qed.

Lemma NoDup_keys_set {V} (k : string) (v : V) (m : jsmap V) :
  NoDup (map_keys m) -> NoDup (map_keys (map_set k v m)).
Proof.
  intros Hnd. rewrite map_keys_set.
  destruct (map_has k m) eqn:Hhas; [exact Hnd|].
  apply NoDup_app; repeat split; [exact Hnd| |apply NoDup_singleton].
  intros x Hx Hin. apply list_elem_of_singleton in Hin. subst x.
  now apply (map_has_In_keys k m).
Qed.

Lemma map_keys_delete_incl {V} (k x : string) (m : jsmap V) :
  x ∈ map_keys (map_delete k m) -> x ∈ map_keys m.
Proof.
  induction m as [|[k' v'] m IH]; simpl; [tauto|].
  destruct (String.eqb_spec k k'); simpl.
  - intros H. apply list_elem_of_further. now apply IH.
  - intros H. apply elem_of_cons in H as [->|H];
      [apply list_elem_of_here|apply list_elem_of_further; now apply IH].
Qed.

Lemma NoDup_keys_delete {V} (k : string) (m : jsmap V) :
  NoDup (map_keys m) -> NoDup (map_keys (map_delete k m)).
Proof.
  induction m as [|[k' v'] m IH]; simpl; [trivial|].
  intros Hnd. apply NoDup_cons in Hnd as [Hnotin Hnd].
  destruct (String.eqb_spec k k'); [now apply IH|].
  simpl. apply NoDup_cons. split; [|now apply IH].
  intros Hin. apply Hnotin. eapply map_keys_delete_incl, Hin.
Qed.

Lemma map_get_delete_ne {V} (k k' : string) (m : jsmap V) :
  k <> k' -> map_get k' (map_delete k m) = map_get k' m.
Proof.
  intros Hne. induction m as [|[k0 v0] m IH]; unfold map_get in *; simpl; [reflexivity|].
  destruct (String.eqb_spec k k0) as [->|Hne0].
  - destruct (String.eqb_spec k' k0); [congruence|exact IH].
  - simpl. now destruct (String.eqb_spec k' k0).
Qed.

Lemma for_entries_rel {V S} (R : S -> S -> Prop) (body : string -> V -> S -> option S) :
  (forall s, R s s) -> (forall a b c, R a b -> R b c -> R a c) ->
  (forall k v s s', body k v s = Some s' -> R s s') ->
  forall entries s, R s (for_entries body entries s).
Proof.
  intros Hrefl Htrans Hbody entries.
  induction entries as [|[k v] rest IH]; intros s; simpl; [apply Hrefl|].
  destruct (body k v s) as [s'|] eqn:Hb; [|apply Hrefl].
  eapply Htrans; [eapply Hbody, Hb|apply IH].
Qed.

(** ** Controllers: settled at most once *)

Lemma pending_settle how c : pending (settle how c) = false.
Proof.
  destruct how; unfold pending, settle; simpl;
    [reflexivity|apply andb_false_r].
Qed.

Lemma timeoutId_settle how c :
  PromiseController.timeoutId (settle how c) = PromiseController.timeoutId c.
Proof. now destruct how. Qed.

Lemma evolves_refl c : evolves c c.
Proof. now left. Qed.

Lemma evolves_trans c1 c2 c3 : evolves c1 c2 -> evolves c2 c3 -> evolves c1 c3.
Proof.
  intros [->|[Hp [how ->]]] H23; [exact H23|].
  destruct H23 as [->|[Hp' _]]; [right; eauto|].
  rewrite pending_settle in Hp'. discriminate.
Qed.

Lemma evolves_settled c c' : evolves c c' -> pending c = false -> c' = c.
Proof. intros [->|[Hp _]] H; [reflexivity|congruence]. Qed.

Lemma evolves_timeoutId c c' :
  evolves c c' -> PromiseController.timeoutId c' = PromiseController.timeoutId c.
Proof. intros [->|[_ [how ->]]]; [reflexivity|apply timeoutId_settle]. Qed.

Lemma ctrl_ok_pending_promise c :
  ctrl_ok c -> pending c = true -> PromiseController.promise c = [].
Proof.
  unfold ctrl_ok, pending. destruct c as [p t r j]; simpl.
  destruct p as [|[x|x] [|y p]]; intros H Hp; try reflexivity; try contradiction;
    destruct H as [-> ->]; discriminate.
Qed.

Lemma ctrl_ok_evolves c c' : ctrl_ok c -> evolves c c' -> ctrl_ok c'.
Proof.
  intros Hok [->|[Hp [how ->]]]; [exact Hok|].
  pose proof (ctrl_ok_pending_promise c Hok Hp) as Hnil.
  unfold pending in Hp. apply andb_true_iff in Hp as [Hr Hj].
  apply negb_true_iff in Hr, Hj.
  unfold ctrl_ok, settle. destruct how; simpl; rewrite Hnil; simpl; auto.
Qed.

Lemma heap_evolves_refl h : heap_evolves h h.
Proof.
  split; [intros a c H; exists c; split; [exact H|apply evolves_refl]|].
  intros a c' H1 H2. congruence.
Qed.

Lemma heap_evolves_trans h1 h2 h3 :
  heap_evolves h1 h2 -> heap_evolves h2 h3 -> heap_evolves h1 h3.
Proof.
  intros [H12 N12] [H23 N23]. split.
  - intros a c Ha. destruct (H12 a c Ha) as [c' [Ha' E1]].
    destruct (H23 a c' Ha') as [c'' [Ha'' E2]].
    exists c''. split; [exact Ha''|eapply evolves_trans; eassumption].
  - intros a c'' Hn Ha''. destruct (h2 !! a) as [c'|] eqn:Ha'.
    + destruct (H23 a c' Ha') as [d [Hd E2]].
      assert (d = c'') by congruence. subst d.
      eapply ctrl_ok_evolves; [eapply N12; eassumption|exact E2].
    + eapply N23; eassumption.
Qed.

Lemma heap_evolves_ok h h' :
  heap_evolves h h' -> Forall ctrl_ok h -> Forall ctrl_ok h'.
Proof.
  intros [He Hn] Hok. apply Forall_lookup. intros a c' Ha'.
  destruct (h !! a) as [c|] eqn:Ha.
  - destruct (He a c Ha) as [d [Hd E]]. assert (d = c') by congruence. subst d.
    eapply ctrl_ok_evolves; [|exact E].
    eapply Forall_lookup_1; eassumption.
  - eapply Hn; eassumption.
Qed.

Lemma heap_evolves_insert h a c how :
  h !! a = Some c -> pending c = true -> heap_evolves h (<[a := settle how c]> h).
Proof.
  intros Ha Hp. split.
  - intros b d Hb. destruct (decide (a = b)) as [->|Hne].
    + exists (settle how c). split.
      * apply list_lookup_insert_eq. eapply lookup_lt_Some, Ha.
      * assert (d = c) by congruence. subst d. right. eauto.
    + exists d. split; [now rewrite list_lookup_insert_ne|apply evolves_refl].
  - intros b d Hn Hb. destruct (decide (a = b)) as [->|Hne]; [congruence|].
    rewrite list_lookup_insert_ne in Hb by exact Hne. congruence.
Qed.

Lemma listener_rel_refl s : listener_rel s s.
Proof. constructor; try reflexivity. apply heap_evolves_refl. Qed.

Lemma listener_rel_trans s1 s2 s3 :
  listener_rel s1 s2 -> listener_rel s2 s3 -> listener_rel s1 s3.
Proof.
  intros [] []. constructor; try congruence.
  - eapply heap_evolves_trans; eassumption.
  - intros a Ha. rewrite lr_unref1, lr_unref0; [reflexivity|exact Ha|].
    unfold referenced in *. now rewrite lr_promises0.
Qed.

Lemma listener_rel_settle monitorId how s :
  listener_rel s (settle_if_pending monitorId how s).
Proof.
  unfold settle_if_pending.
  destruct (map_get monitorId (monitorPromises s)) as [a|] eqn:Hget;
    [|apply listener_rel_refl].
  destruct (controllers s !! a) as [c|] eqn:Ha; [|apply listener_rel_refl].
  destruct (pending c) eqn:Hp; [|apply listener_rel_refl].
  constructor; try reflexivity; simpl.
  - apply length_insert.
  - now apply heap_evolves_insert.
  - intros b Hb. apply list_lookup_insert_ne. intros ->. apply Hb. now exists monitorId.
Qed.

Lemma listener_rel_record_request monitorId rec s :
  listener_rel s (record_request monitorId rec s).
Proof. constructor; try reflexivity. apply heap_evolves_refl. Qed.

Lemma listener_rel_record_response monitorId rec s :
  listener_rel s (record_response monitorId rec s).
Proof. constructor; try reflexivity. apply heap_evolves_refl. Qed.

Lemma listener_rel_resolve monitorId options response s :
  listener_rel s (resolve_if_oneTime monitorId options response s).
Proof.
  unfold resolve_if_oneTime. destruct (MonitorOptions.oneTime options);
    [apply listener_rel_settle|apply listener_rel_refl].
Qed.

Section ApiMonitorProofs.
Context {rt : JsRuntime}.

Lemma listener_rel_match_url response now body s :
  listener_rel s (match_response_by_url response now body s).
Proof.
  unfold match_response_by_url.
  apply for_entries_rel; [apply listener_rel_refl|apply listener_rel_trans|].
  intros k v s0 s0' H. injection H as <-.
  destruct (urlMatches _ _ _); [|apply listener_rel_refl].
  eapply listener_rel_trans;
    [apply listener_rel_record_response|apply listener_rel_resolve].
Qed.

Lemma listener_rel_on_request request now s :
  listener_rel s (on_request request now s).
Proof.
  unfold on_request. cbv zeta.
  assert (H1 := listener_rel_record_request "all"
                  (CapturedRequest.mk (Request.url request) (Request.method request)
                     now None None) s).
  set (s1 := record_request "all" _ s) in *. clearbody s1.
  eapply listener_rel_trans; [exact H1|]. clear H1.
  assert (Hurl : forall rec, listener_rel s1
            (for_entries
               (fun monitorId path s =>
                  Some (if urlMatches (Request.url request) path (options_of s monitorId)
                        then record_request monitorId (rec monitorId) s else s))
               (monitorPaths s1) s1)).
  { intros rec. apply for_entries_rel; [apply listener_rel_refl|apply listener_rel_trans|].
    intros k v s0 s0' H. injection H as <-.
    destruct (urlMatches _ _ _);
      [apply listener_rel_record_request|apply listener_rel_refl]. }
  destruct (String.eqb _ "POST").
  - destruct (Request.postData request) as [postData|]; [|apply listener_rel_refl].
    destruct (nonempty postData); [|apply listener_rel_refl].
    destruct (JSON_parse postData) as [jsonBody|]; [|apply listener_rel_refl].
    assert (Hrpc : listener_rel s1
              (for_entries
                 (fun monitorId paramPath s =>
                    match rpc_path_matches jsonBody paramPath (options_of s monitorId) with
                    | None => None
                    | Some pathMatches =>
                        Some (if rpc_method_matches s monitorId jsonBody && pathMatches
                              then record_request monitorId
                                     (CapturedRequest.mk (Request.url request)
                                        (Request.method request) now
                                        (Some jsonBody) (Some jsonBody)) s
                              else s)
                    end)
                 (monitorPaths s1) s1)).
    { apply for_entries_rel; [apply listener_rel_refl|apply listener_rel_trans|].
      intros k v s0 s0' H.
      destruct (rpc_path_matches _ _ _) as [pm|]; [|discriminate].
      injection H as <-.
      destruct (_ && _); [apply listener_rel_record_request|apply listener_rel_refl]. }
    destruct jsonBody; try apply listener_rel_refl;
      match goal with
      | |- context [if ?c then _ else _] => destruct c
      end; first [exact Hrpc | apply (Hurl (fun _ => _))].
  - apply (Hurl (fun _ => _)).
Qed.

Lemma listener_rel_on_response response now s :
  listener_rel s (on_response response now s).
Proof.
  unfold on_response. cbv zeta.
  destruct (String.eqb _ "POST"); [apply listener_rel_record_response|].
  eapply listener_rel_trans; [apply listener_rel_record_response|].
  apply listener_rel_match_url.
Qed.

Lemma listener_rel_on_response_body response now s :
  listener_rel s (on_response_body response now s).
Proof.
  unfold on_response_body. cbv zeta.
  destruct (String.eqb _ "POST"); [|apply listener_rel_refl].
  destruct (listener_responseBody response) as [responseBody|]; [|apply listener_rel_refl].
  destruct (truthy responseBody); [|apply listener_rel_refl].
  destruct (parse_postData _) as [requestBody|]; [|apply listener_rel_match_url].
  destruct (_ && truthy requestBody); [|apply listener_rel_match_url].
  apply for_entries_rel; [apply listener_rel_refl|apply listener_rel_trans|].
  intros k v s0 s0' H.
  destruct (rpc_path_matches _ _ _) as [pm|]; [|discriminate].
  injection H as <-.
  destruct (_ && _); [|apply listener_rel_refl].
  eapply listener_rel_trans;
    [apply listener_rel_record_response|apply listener_rel_resolve].
Qed.

End ApiMonitorProofs.

(** ** Timers *)

Lemma timer_step_trans a b c : timer_step a b -> timer_step b c -> timer_step a c.
Proof.
  intros [->|[cl [-> H1]]] H2; [exact H2|].
  destruct H2 as [->|[cl' [-> _]]]; [right; eauto|].
  destruct H1; discriminate.
Qed.

Lemma timers_evolve_refl t : timers_evolve t t.
Proof. intros tid st H. exists st. split; [exact H|now left]. Qed.

Lemma timers_evolve_trans t1 t2 t3 :
  timers_evolve t1 t2 -> timers_evolve t2 t3 -> timers_evolve t1 t3.
Proof.
  intros H12 H23 tid st H. destruct (H12 tid st H) as [st' [H' S1]].
  destruct (H23 tid st' H') as [st'' [H'' S2]].
  exists st''. split; [exact H''|eapply timer_step_trans; eassumption].
Qed.

Lemma timers_evolve_app t x : timers_evolve t (t ++ [x]).
Proof.
  intros tid st H. exists st. split; [|now left].
  rewrite lookup_app_l; [exact H|eapply lookup_lt_Some, H].
Qed.

Lemma timers_evolve_insert t tid cl st' :
  t !! tid = Some (TArmed cl) -> (st' = TFired cl \/ st' = TCleared) ->
  timers_evolve t (<[tid := st']> t).
Proof.
  intros Ht Hst b st Hb. destruct (decide (tid = b)) as [->|Hne].
  - exists st'. split; [apply list_lookup_insert_eq; eapply lookup_lt_Some, Ht|].
    right. exists cl. split; [congruence|exact Hst].
  - exists st. split; [now rewrite list_lookup_insert_ne|now left].
Qed.

Lemma timers_evolve_length t t' : timers_evolve t t' -> (length t <= length t')%nat.
Proof.
  intros H. destruct (decide (length t <= length t')%nat) as [|Hgt]; [assumption|].
  exfalso. assert (Hlt : (length t' < length t)%nat) by lia.
  destruct (lookup_lt_is_Some_2 t (length t') Hlt) as [st Hst].
  destruct (H _ _ Hst) as [st' [Hst' _]].
  apply lookup_lt_Some in Hst'. lia.
Qed.

Lemma timers_evolve_not_armed t t' tid :
  timers_evolve t t' -> (tid < length t)%nat -> not_armed (t !! tid) -> not_armed (t' !! tid).
Proof.
  intros H Hlt Hn cl Hcl.
  destruct (lookup_lt_is_Some_2 t tid Hlt) as [st Hst].
  destruct (H _ _ Hst) as [st' [Hst' [->|[cl' [-> _]]]]].
  - apply (Hn cl). congruence.
  - apply (Hn cl'). exact Hst.
Qed.

Lemma clearTimeout_evolve tid s : timers_evolve (timers s) (timers (clearTimeout tid s)).
Proof.
  unfold clearTimeout. destruct (timers s !! tid) as [[cl|cl|]|] eqn:Ht;
    try apply timers_evolve_refl.
  simpl. eapply timers_evolve_insert; [exact Ht|now right].
Qed.

Lemma clearTimeout_not_armed tid s : not_armed (timers (clearTimeout tid s) !! tid).
Proof.
  unfold clearTimeout. intros cl'.
  destruct (timers s !! tid) as [[cl|cl|]|] eqn:Ht; simpl; try congruence.
  rewrite list_lookup_insert_eq by (eapply lookup_lt_Some, Ht). discriminate.
Qed.

Lemma clearTimeout_other tid tid' s :
  tid <> tid' -> timers (clearTimeout tid s) !! tid' = timers s !! tid'.
Proof.
  intros Hne. unfold clearTimeout.
  destruct (timers s !! tid) as [[cl|cl|]|]; try reflexivity.
  simpl. now apply list_lookup_insert_ne.
Qed.

Lemma clearTimeout_fields tid s :
  controllers (clearTimeout tid s) = controllers s
  /\ monitorPromises (clearTimeout tid s) = monitorPromises s
  /\ monitorStartTimes (clearTimeout tid s) = monitorStartTimes s
  /\ monitorPaths (clearTimeout tid s) = monitorPaths s
  /\ monitorOptions (clearTimeout tid s) = monitorOptions s
  /\ monitorMethods (clearTimeout tid s) = monitorMethods s
  /\ waiters (clearTimeout tid s) = waiters s.
Proof.
  unfold clearTimeout. destruct (timers s !! tid) as [[cl|cl|]|]; simpl; tauto.
Qed.

(** ** [cleanupMonitor] and [cancelAllMonitors] *)

Lemma cleanupMonitor_fields monitorId s :
  controllers (cleanupMonitor monitorId s) = controllers s
  /\ monitorPromises (cleanupMonitor monitorId s) = map_delete monitorId (monitorPromises s)
  /\ monitorStartTimes (cleanupMonitor monitorId s)
     = map_delete monitorId (monitorStartTimes s)
  /\ monitorPaths (cleanupMonitor monitorId s) = map_delete monitorId (monitorPaths s)
  /\ monitorOptions (cleanupMonitor monitorId s) = map_delete monitorId (monitorOptions s)
  /\ monitorMethods (cleanupMonitor monitorId s) = map_delete monitorId (monitorMethods s)
  /\ waiters (cleanupMonitor monitorId s) = waiters s
  /\ timers (cleanupMonitor monitorId s)
     = match monitor_timer monitorId s with
       | Some tid => timers (clearTimeout tid s)
       | None => timers s
       end.
Proof.
  unfold cleanupMonitor, monitor_timer.
  destruct (map_get monitorId (monitorPromises s)) as [a|]; [|simpl; tauto].
  destruct (controllers s !! a) as [c|]; [|simpl; tauto].
  destruct (PromiseController.timeoutId c) as [tid|]; [|simpl; tauto].
  destruct (clearTimeout_fields tid s) as (-> & -> & -> & -> & -> & -> & ->).
  simpl. tauto.
Qed.

Lemma cleanupMonitor_timers_evolve monitorId s :
  timers_evolve (timers s) (timers (cleanupMonitor monitorId s)).
Proof.
  destruct (cleanupMonitor_fields monitorId s) as (_ & _ & _ & _ & _ & _ & _ & ->).
  destruct (monitor_timer monitorId s); [apply clearTimeout_evolve|apply timers_evolve_refl].
Qed.

Lemma cleanupMonitor_clears monitorId s tid :
  monitor_timer monitorId s = Some tid ->
  not_armed (timers (cleanupMonitor monitorId s) !! tid).
Proof.
  intros H. destruct (cleanupMonitor_fields monitorId s) as (_ & _ & _ & _ & _ & _ & _ & ->).
  rewrite H. apply clearTimeout_not_armed.
Qed.

Lemma cleanupMonitor_timer_other monitorId s tid :
  monitor_timer monitorId s <> Some tid ->
  timers (cleanupMonitor monitorId s) !! tid = timers s !! tid.
Proof.
  intros H. destruct (cleanupMonitor_fields monitorId s) as (_ & _ & _ & _ & _ & _ & _ & ->).
  destruct (monitor_timer monitorId s) as [tid'|]; [|reflexivity].
  apply clearTimeout_other. congruence.
Qed.

Lemma cleanupMonitor_absent monitorId s :
  map_has monitorId (monitorPromises (cleanupMonitor monitorId s)) = false
  /\ map_has monitorId (monitorStartTimes (cleanupMonitor monitorId s)) = false
  /\ map_has monitorId (monitorPaths (cleanupMonitor monitorId s)) = false
  /\ map_has monitorId (monitorOptions (cleanupMonitor monitorId s)) = false
  /\ map_has monitorId (monitorMethods (cleanupMonitor monitorId s)) = false.
Proof.
  destruct (cleanupMonitor_fields monitorId s) as (_ & -> & -> & -> & -> & -> & _).
  repeat split; apply map_has_delete_eq.
Qed.

Lemma map_keys_delete {V} (k x : string) (m : jsmap V) :
  x ∈ map_keys (map_delete k m) -> x <> k /\ x ∈ map_keys m.
Proof.
  induction m as [|[k' v'] m IH]; simpl; [intros H; now apply elem_of_nil in H|].
  destruct (String.eqb_spec k k') as [->|Hne]; simpl.
  - intros H. destruct (IH H). split; [assumption|now apply list_elem_of_further].
  - intros H. apply elem_of_cons in H as [->|H].
    + split; [congruence|apply list_elem_of_here].
    + destruct (IH H). split; [assumption|now apply list_elem_of_further].
Qed.

Lemma delete_all_keys {V} (ks : list string) (m : jsmap V) :
  (forall k, k ∈ map_keys m -> k ∈ ks) ->
  fold_left (fun m k => map_delete k m) ks m = [].
Proof.
  revert m. induction ks as [|k ks IH]; intros m H; simpl.
  - destruct m as [|[k v] m]; [reflexivity|].
    exfalso. eapply elem_of_nil, (H k). apply list_elem_of_here.
  - apply IH. intros x Hx. apply map_keys_delete in Hx as [Hne Hx].
    apply H in Hx. apply elem_of_cons in Hx as [->|Hx]; [contradiction|exact Hx].
Qed.

Lemma cleanup_all_fields ks s :
  controllers (cleanup_all ks s) = controllers s
  /\ waiters (cleanup_all ks s) = waiters s
  /\ monitorPromises (cleanup_all ks s)
     = fold_left (fun m k => map_delete k m) ks (monitorPromises s)
  /\ timers_evolve (timers s) (timers (cleanup_all ks s)).
Proof.
  revert s. induction ks as [|k ks IH]; intros s; simpl.
  - repeat split; try reflexivity. apply timers_evolve_refl.
  - destruct (IH (cleanupMonitor k s)) as (Hc & Hw & Hp & Ht).
    destruct (cleanupMonitor_fields k s) as (Hc' & Hp' & _ & _ & _ & _ & Hw' & _).
    unfold cleanup_all in *. rewrite Hc, Hw, Hp, Hc', Hw', Hp'.
    repeat split; try reflexivity.
    eapply timers_evolve_trans; [apply cleanupMonitor_timers_evolve|exact Ht].
Qed.

Lemma monitor_timer_bound monitorId s tid :
  (forall a c t, controllers s !! a = Some c ->
                 PromiseController.timeoutId c = Some t -> (t < length (timers s))%nat) ->
  monitor_timer monitorId s = Some tid -> (tid < length (timers s))%nat.
Proof.
  unfold monitor_timer. intros Hb H.
  destruct (map_get monitorId (monitorPromises s)) as [a|]; [|discriminate].
  destruct (controllers s !! a) as [c|] eqn:Ha; [|discriminate].
  eapply Hb; eassumption.
Qed.

Lemma cleanup_all_clears ks s monitorId tid :
  (tid < length (timers s))%nat ->
  monitorId ∈ ks -> monitor_timer monitorId s = Some tid ->
  not_armed (timers (cleanup_all ks s) !! tid).
Proof.
  revert s. induction ks as [|k ks IH]; intros s Hlt Hin Hmt; simpl.
  - now apply elem_of_nil in Hin.
  - destruct (String.eqb_spec k monitorId) as [->|Hne].
    + destruct (cleanup_all_fields ks (cleanupMonitor monitorId s)) as (_ & _ & _ & Ht).
      eapply timers_evolve_not_armed; [exact Ht| |now apply cleanupMonitor_clears].
      pose proof (timers_evolve_length _ _ (cleanupMonitor_timers_evolve monitorId s)). lia.
    + apply elem_of_cons in Hin as [->|Hin]; [contradiction|].
      apply IH; [|exact Hin|].
      * pose proof (timers_evolve_length _ _ (cleanupMonitor_timers_evolve k s)). lia.
      * unfold monitor_timer in *.
        destruct (cleanupMonitor_fields k s) as (-> & -> & _).
        rewrite map_get_delete_ne by exact Hne. exact Hmt.
Qed.

Lemma cancelAllMonitors_promises s : monitorPromises (cancelAllMonitors s) = [].
Proof.
  unfold cancelAllMonitors. fold (cleanup_all (map_keys (monitorPromises s)) s).
  destruct (cleanup_all_fields (map_keys (monitorPromises s)) s) as (_ & _ & -> & _).
  apply delete_all_keys. auto.
Qed.

(** ** Events *)

Lemma referenced_back s s' a :
  monitorPromises s' = monitorPromises s \/ monitorPromises s' = [] ->
  referenced s' a -> referenced s a.
Proof.
  unfold referenced. intros [-> | ->] [monitorId H]; [eauto|discriminate].
Qed.

Lemma heap_back h h' a c' :
  heap_evolves h h' -> length h' = length h -> h' !! a = Some c' ->
  exists c, h !! a = Some c /\ evolves c c'.
Proof.
  intros [He _] Hlen Ha'.
  assert (Hlt : (a < length h)%nat) by (rewrite <- Hlen; eapply lookup_lt_Some, Ha').
  destruct (lookup_lt_is_Some_2 h a Hlt) as [c Hc].
  destruct (He a c Hc) as [d [Hd E]]. exists c. split; [exact Hc|congruence].
Qed.

Lemma monitor_timer_stable s s' monitorId :
  heap_evolves (controllers s) (controllers s') ->
  length (controllers s') = length (controllers s) ->
  monitorPromises s' = monitorPromises s ->
  monitor_timer monitorId s' = monitor_timer monitorId s.
Proof.
  intros [He _] Hcl Hp. unfold monitor_timer. rewrite Hp.
  destruct (map_get monitorId (monitorPromises s)) as [a|]; [|reflexivity].
  destruct (controllers s !! a) as [c|] eqn:Hc.
  - destruct (He a c Hc) as [c' [-> E]]. apply evolves_timeoutId, E.
  - destruct (controllers s' !! a) as [c'|] eqn:Hc'; [|reflexivity].
    apply lookup_lt_Some in Hc'. apply lookup_ge_None in Hc. lia.
Qed.

Lemma timer_step_fired cl st : timer_step (TFired cl) st -> st = TFired cl.
Proof. intros [->|[cl' [H _]]]; [reflexivity|discriminate]. Qed.

Lemma event_rel_refl s : event_rel s s.
Proof.
  constructor; try reflexivity;
    [apply heap_evolves_refl|apply timers_evolve_refl|now left|now left|now left].
Qed.

Lemma event_rel_trans s1 s2 s3 : event_rel s1 s2 -> event_rel s2 s3 -> event_rel s1 s3.
Proof.
  intros [H1 L1 T1 N1 P1 C1 F1 U1] [H2 L2 T2 N2 P2 C2 F2 U2]. constructor; try congruence.
  - eapply heap_evolves_trans; eassumption.
  - eapply timers_evolve_trans; eassumption.
  - destruct P2 as [-> | ->]; [exact P1|now right].
  - intros monitorId tid Hm Hlt. destruct (C1 _ _ Hm Hlt) as [Hm'|Hn].
    + apply C2; [exact Hm'|lia].
    + right. eapply timers_evolve_not_armed; [exact T2|lia|exact Hn].
  - intros tid cl Hfree Ht. destruct (F1 _ _ Hfree Ht) as [Ht'|Ht'].
    + apply F2; [|exact Ht'].
      intros a c' Ha'. destruct (heap_back _ _ _ _ H1 L1 Ha') as [c [Hc E]].
      rewrite (evolves_timeoutId _ _ E). eapply Hfree, Hc.
    + right. destruct (T2 _ _ Ht') as [st [Hst Hs]].
      apply timer_step_fired in Hs. congruence.
  - intros a Ha. rewrite U2, U1; [reflexivity|exact Ha|].
    intros Hr. apply Ha. eapply referenced_back; eassumption.
Qed.

Lemma listener_event_rel s s' : listener_rel s s' -> event_rel s s'.
Proof.
  intros []. constructor; try assumption; try congruence.
  - rewrite lr_timers0. apply timers_evolve_refl.
  - now left.
  - intros monitorId tid Hm _. left.
    now rewrite (monitor_timer_stable s s' monitorId).
  - intros tid cl _ Ht. left. congruence.
Qed.

Lemma monitor_timer_free monitorId s tid :
  (forall a c, controllers s !! a = Some c -> PromiseController.timeoutId c <> Some tid) ->
  monitor_timer monitorId s <> Some tid.
Proof.
  intros Hfree. unfold monitor_timer.
  destruct (map_get monitorId (monitorPromises s)) as [a|]; [|discriminate].
  destruct (controllers s !! a) as [c|] eqn:Hc; [|discriminate].
  eapply Hfree, Hc.
Qed.

Lemma set_timers_fire_rel tid cl s :
  timers s !! tid = Some (TArmed cl) ->
  event_rel s (set_timers (fun t => <[tid := TFired cl]> t) s).
Proof.
  intros Ht. constructor; simpl; try reflexivity.
  - apply heap_evolves_refl.
  - eapply timers_evolve_insert; [exact Ht|now left].
  - apply length_insert.
  - now left.
  - intros monitorId tid' Hm _. left. exact Hm.
  - intros tid' cl' _ Ht'. destruct (decide (tid = tid')) as [<-|Hne].
    + right. rewrite list_lookup_insert_eq by (eapply lookup_lt_Some, Ht). congruence.
    + left. now rewrite list_lookup_insert_ne.
Qed.

Lemma set_waiters_rel f s : event_rel s (set_waiters f s).
Proof.
  constructor; simpl; try reflexivity;
    [apply heap_evolves_refl|apply timers_evolve_refl|now left| |];
    intros; now left.
Qed.

Lemma fire_timer_rel tid s : event_rel s (fire_timer tid s).
Proof.
  unfold fire_timer. destruct (timers s !! tid) as [[cl|cl|]|] eqn:Ht;
    try apply event_rel_refl.
  pose proof (set_timers_fire_rel tid cl s Ht) as H1.
  destruct cl; [|exact H1].
  eapply event_rel_trans; [exact H1|].
  apply listener_event_rel, listener_rel_settle.
Qed.

Lemma fire_timer_fired tid s cl :
  timers s !! tid = Some (TArmed cl) -> timers (fire_timer tid s) !! tid = Some (TFired cl).
Proof.
  intros Ht. unfold fire_timer. rewrite Ht.
  assert (Hins : timers (set_timers (fun t => <[tid := TFired cl]> t) s) !! tid
                 = Some (TFired cl)).
  { simpl. apply list_lookup_insert_eq. eapply lookup_lt_Some, Ht. }
  destruct cl; [|exact Hins].
  rewrite (lr_timers _ _ (listener_rel_settle _ _ _)). exact Hins.
Qed.

Lemma fire_timer_other tid tid' s :
  tid <> tid' -> timers (fire_timer tid s) !! tid' = timers s !! tid'.
Proof.
  intros Hne. unfold fire_timer. destruct (timers s !! tid) as [[cl|cl|]|]; try reflexivity.
  assert (Hins : timers (set_timers (fun t => <[tid := TFired cl]> t) s) !! tid'
                 = timers s !! tid').
  { simpl. now apply list_lookup_insert_ne. }
  destruct cl; [|exact Hins].
  rewrite (lr_timers _ _ (listener_rel_settle _ _ _)). exact Hins.
Qed.

Lemma cleanup_all_timer_other ks s tid :
  (forall a c, controllers s !! a = Some c -> PromiseController.timeoutId c <> Some tid) ->
  timers (cleanup_all ks s) !! tid = timers s !! tid.
Proof.
  revert s. induction ks as [|k ks IH]; intros s Hfree; simpl; [reflexivity|].
  unfold cleanup_all in IH. rewrite IH.
  - apply cleanupMonitor_timer_other, monitor_timer_free, Hfree.
  - destruct (cleanupMonitor_fields k s) as (-> & _). exact Hfree.
Qed.

Lemma cleanup_all_tlen ks s : length (timers (cleanup_all ks s)) = length (timers s).
Proof.
  revert s. induction ks as [|k ks IH]; intros s; simpl; [reflexivity|].
  unfold cleanup_all in IH. rewrite IH.
  destruct (cleanupMonitor_fields k s) as (_ & _ & _ & _ & _ & _ & _ & ->).
  destruct (monitor_timer k s) as [tid|]; [|reflexivity].
  unfold clearTimeout. destruct (timers s !! tid) as [[cl|cl|]|]; try reflexivity.
  simpl. apply length_insert.
Qed.

Lemma monitor_timer_key monitorId s tid :
  monitor_timer monitorId s = Some tid -> monitorId ∈ map_keys (monitorPromises s).
Proof.
  unfold monitor_timer.
  destruct (map_get monitorId (monitorPromises s)) as [a|] eqn:Hg; [|discriminate].
  intros _. eapply map_get_In_keys, Hg.
Qed.

Lemma cancelAllMonitors_rel s : event_rel s (cancelAllMonitors s).
Proof.
  pose proof (cancelAllMonitors_promises s) as Hp. unfold cancelAllMonitors in *.
  fold (cleanup_all (map_keys (monitorPromises s)) s) in *.
  destruct (cleanup_all_fields (map_keys (monitorPromises s)) s) as (Hc & _ & _ & Ht).
  constructor.
  - rewrite Hc. apply heap_evolves_refl.
  - now rewrite Hc.
  - exact Ht.
  - apply cleanup_all_tlen.
  - now right.
  - intros monitorId tid Hm Hlt. right.
    eapply cleanup_all_clears; [exact Hlt|eapply monitor_timer_key, Hm|exact Hm].
  - intros tid cl Hfree Hcl. left. now rewrite cleanup_all_timer_other.
  - intros a _. now rewrite Hc.
Qed.

Section EventProofs.
Context {rt : JsRuntime}.

Lemma on_waiter_response_rel wid resp s : event_rel s (on_waiter_response wid resp s).
Proof.
  unfold on_waiter_response.
  destruct (waiters s !! wid) as [[cl|r|e]|]; try apply event_rel_refl.
  destruct (waiter_predicate cl resp); [|apply event_rel_refl].
  pose proof (set_waiters_rel (fun w => <[wid := WFulfilled resp]> w) s) as H1.
  destruct (waiter_monitor cl) as [[monitorId o]|]; [|exact H1].
  eapply event_rel_trans; [exact H1|].
  apply listener_event_rel, listener_rel_settle.
Qed.

Lemma on_waiter_error_rel wid err s : event_rel s (on_waiter_error wid err s).
Proof.
  unfold on_waiter_error.
  destruct (waiters s !! wid) as [[cl|r|e]|]; try apply event_rel_refl.
  pose proof (set_waiters_rel (fun w => <[wid := WRejected err]> w) s) as H1.
  destruct (waiter_monitor cl) as [[monitorId o]|]; [|exact H1].
  eapply event_rel_trans; [exact H1|].
  apply listener_event_rel, listener_rel_settle.
Qed.

Lemma on_event_rel s e : event_rel s (on_event s e).
Proof.
  destruct e; simpl.
  - apply listener_event_rel, listener_rel_on_request.
  - apply listener_event_rel, listener_rel_on_response.
  - apply listener_event_rel, listener_rel_on_response_body.
  - apply fire_timer_rel.
  - apply on_waiter_response_rel.
  - apply on_waiter_error_rel.
  - apply cancelAllMonitors_rel.
Qed.

Lemma on_events_rel evs s : event_rel s (on_events s evs).
Proof.
  revert s. induction evs as [|e evs IH]; intros s; simpl; [apply event_rel_refl|].
  eapply event_rel_trans; [apply on_event_rel|apply IH].
Qed.

(** Events other than the page closing leave the registry as it is. *)
Lemma on_event_promises s e :
  e <> EvClose -> monitorPromises (on_event s e) = monitorPromises s.
Proof.
  intros Hne. destruct e; simpl; try contradiction.
  - apply (lr_promises _ _ (listener_rel_on_request _ _ _)).
  - apply (lr_promises _ _ (listener_rel_on_response _ _ _)).
  - apply (lr_promises _ _ (listener_rel_on_response_body _ _ _)).
  - unfold fire_timer. destruct (timers s !! tid) as [[cl|cl|]|]; try reflexivity.
    destruct cl; [|reflexivity].
    now rewrite (lr_promises _ _ (listener_rel_settle _ _ _)).
  - unfold on_waiter_response.
    destruct (waiters s !! wid) as [[cl|r|e]|]; try reflexivity.
    destruct (waiter_predicate cl response); [|reflexivity].
    destruct (waiter_monitor cl) as [[monitorId o]|]; [|reflexivity].
    now rewrite (lr_promises _ _ (listener_rel_settle _ _ _)).
  - unfold on_waiter_error.
    destruct (waiters s !! wid) as [[cl|r|e]|]; try reflexivity.
    destruct (waiter_monitor cl) as [[monitorId o]|]; [|reflexivity].
    now rewrite (lr_promises _ _ (listener_rel_settle _ _ _)).
Qed.

Lemma on_events_promises evs s :
  ~ In EvClose evs -> monitorPromises (on_events s evs) = monitorPromises s.
Proof.
  revert s. induction evs as [|e evs IH]; intros s Hn; simpl; [reflexivity|].
  rewrite IH by (intros H; apply Hn; now right).
  apply on_event_promises. intros ->. apply Hn. now left.
Qed.

End EventProofs.

(** ** Well-formed registries *)

Lemma event_rel_wf s s' : event_rel s s' -> wf s -> wf s'.
Proof.
  intros [He Hcl Ht Htl Hp _ _ _] [Hnd Hb]. split.
  - destruct Hp as [-> | ->]; [exact Hnd|apply NoDup_nil_2].
  - intros a c' t Ha' Hid.
    destruct (heap_back _ _ _ _ He Hcl Ha') as [c [Hc E]].
    rewrite Htl. eapply Hb; [exact Hc|].
    rewrite <- (evolves_timeoutId _ _ E). exact Hid.
Qed.

(** ** Calls *)

Lemma op_rel_refl s : op_rel s s.
Proof. split; [apply heap_evolves_refl|split; [trivial|auto]]. Qed.

Lemma op_rel_trans s1 s2 s3 : op_rel s1 s2 -> op_rel s2 s3 -> op_rel s1 s3.
Proof.
  intros (H1 & W1 & U1) (H2 & W2 & U2).
  split; [eapply heap_evolves_trans; eassumption|split; [auto|]].
  intros a Hlt Hn. destruct (U1 a Hlt Hn) as [Hn2 E2].
  assert (Hlt2 : (a < length (controllers s2))%nat).
  { destruct (lookup_lt_is_Some_2 _ _ Hlt) as [c Hc].
    rewrite <- E2 in Hc. eapply lookup_lt_Some, Hc. }
  destruct (U2 a Hlt2 Hn2) as [Hn3 E3]. split; [exact Hn3|congruence].
Qed.

Lemma event_op_rel s s' : event_rel s s' -> op_rel s s'.
Proof.
  intros H. split; [apply (ev_heap _ _ H)|split; [now apply event_rel_wf|]].
  intros a _ Hn. split; [|now apply (ev_unref _ _ H)].
  intros Hr. apply Hn. eapply referenced_back; [apply (ev_promises _ _ H)|exact Hr].
Qed.

Lemma map_get_set {V} (k k' : string) (v : V) (m : jsmap V) :
  map_get k' (map_set k v m) = if String.eqb k' k then Some v else map_get k' m.
Proof.
  induction m as [|[k0 v0] m IH]; unfold map_get in *; simpl.
  - now destruct (String.eqb k' k).
  - destruct (String.eqb_spec k k0) as [->|Hne]; simpl.
    + now destruct (String.eqb k' k0).
    + destruct (String.eqb_spec k' k0) as [->|Hne'].
      * destruct (String.eqb_spec k0 k); [congruence|reflexivity].
      * exact IH.
Qed.

Lemma map_get_delete_Some {V} (k k' : string) (v : V) (m : jsmap V) :
  map_get k' (map_delete k m) = Some v -> map_get k' m = Some v.
Proof.
  destruct (String.eqb_spec k k') as [->|Hne].
  - now rewrite map_get_delete_eq.
  - now rewrite map_get_delete_ne.
Qed.

Lemma ctrl_ok_fresh tid : ctrl_ok (PromiseController.mk [] tid false false).
Proof. unfold ctrl_ok. simpl. auto. Qed.

Lemma register_rel monitorId path methodName opts now s :
  op_rel s (register monitorId path methodName opts now s).
Proof.
  unfold register. cbv zeta.
  set (fresh := PromiseController.mk [] None false false).
  assert (Hunref : forall a, (a < length (controllers s))%nat -> ~ referenced s a ->
            ~ (exists id, map_get id (map_set monitorId (length (controllers s))
                                        (monitorPromises s)) = Some a)).
  { intros a Hlt Hn [id Hid]. rewrite map_get_set in Hid.
    destruct (String.eqb id monitorId); [injection Hid as <-; lia|].
    apply Hn. now exists id. }
  destruct (negb (MonitorOptions.timeout opts =? 0)); simpl; repeat split; simpl.
  - intros a c Ha. exists c. split; [|apply evolves_refl].
    rewrite list_lookup_insert_ne by (apply lookup_lt_Some in Ha; lia).
    rewrite lookup_app_l; [exact Ha|eapply lookup_lt_Some, Ha].
  - intros a c' Hn Ha'. apply lookup_ge_None in Hn.
    destruct (decide (length (controllers s) = a)) as [<-|Hne].
    + rewrite list_lookup_insert_eq in Ha' by (rewrite length_app; simpl; lia).
      injection Ha' as <-. apply ctrl_ok_fresh.
    + rewrite list_lookup_insert_ne in Ha' by exact Hne.
      apply lookup_lt_Some in Ha'. rewrite length_app in Ha'. simpl in Ha'. lia.
  - destruct H as [Hnd Hb]. now apply NoDup_keys_set.
  - destruct H as [Hnd Hb]. intros a c t Ha Hid. rewrite length_app. simpl.
    destruct (decide (length (controllers s) = a)) as [<-|Hne].
    + rewrite list_lookup_insert_eq in Ha by (rewrite length_app; simpl; lia).
      injection Ha as <-. simpl in Hid. injection Hid as <-. lia.
    + rewrite list_lookup_insert_ne in Ha by exact Hne.
      destruct (decide (a < length (controllers s))%nat) as [Hlt|Hge].
      * rewrite lookup_app_l in Ha by exact Hlt. specialize (Hb _ _ _ Ha Hid). lia.
      * apply lookup_lt_Some in Ha. rewrite length_app in Ha. simpl in Ha. lia.
  - now apply Hunref.
  - rewrite list_lookup_insert_ne by lia. now apply lookup_app_l.
  - intros a c Ha. exists c. split; [|apply evolves_refl].
    rewrite lookup_app_l; [exact Ha|eapply lookup_lt_Some, Ha].
  - intros a c' Hn Ha'. apply lookup_ge_None in Hn.
    destruct (decide (length (controllers s) = a)) as [<-|Hne].
    + rewrite list_lookup_middle in Ha' by reflexivity. injection Ha' as <-.
      apply ctrl_ok_fresh.
    + apply lookup_lt_Some in Ha'. rewrite length_app in Ha'. simpl in Ha'. lia.
  - destruct H as [Hnd Hb]. now apply NoDup_keys_set.
  - destruct H as [Hnd Hb]. intros a c t Ha Hid.
    destruct (decide (a < length (controllers s))%nat) as [Hlt|Hge].
    + rewrite lookup_app_l in Ha by exact Hlt. eapply Hb; eassumption.
    + destruct (decide (length (controllers s) = a)) as [<-|Hne].
      * rewrite list_lookup_middle in Ha by reflexivity. injection Ha as <-. discriminate.
      * apply lookup_lt_Some in Ha. rewrite length_app in Ha. simpl in Ha. lia.
  - now apply Hunref.
  - now apply lookup_app_l.
Qed.

Lemma arm_waiter_rel cl s : op_rel s (snd (arm_waiter cl s)).
Proof. simpl. split; [apply heap_evolves_refl|split; [intros H; exact H|auto]]. Qed.

Lemma setTimeout_rel cl s : op_rel s (snd (setTimeout cl s)).
Proof.
  simpl. split; [apply heap_evolves_refl|split; [|auto]].
  intros [Hnd Hb]. split; [exact Hnd|]. simpl.
  intros a c t Ha Hid. rewrite length_app. specialize (Hb _ _ _ Ha Hid). lia.
Qed.

Lemma cleanupMonitor_rel monitorId s : op_rel s (cleanupMonitor monitorId s).
Proof.
  destruct (cleanupMonitor_fields monitorId s) as (Hc & Hp & _).
  split; [rewrite Hc; apply heap_evolves_refl|split].
  - intros [Hnd Hb]. split; [rewrite Hp; now apply NoDup_keys_delete|].
    rewrite Hc. intros a c t Ha Hid.
    pose proof (timers_evolve_length _ _ (cleanupMonitor_timers_evolve monitorId s)).
    specialize (Hb _ _ _ Ha Hid). lia.
  - intros a _ Hn. split; [|now rewrite Hc].
    intros [id Hid]. rewrite Hp in Hid. apply Hn. exists id.
    eapply map_get_delete_Some, Hid.
Qed.

Section CallProofs.
Context {rt : JsRuntime}.

Lemma await_race_prefix src tid timeout evs s :
  exists evs1 evs2,
    evs = (evs1 ++ evs2)%list
    /\ snd (await_race src tid timeout evs s) = on_events s evs1.
Proof.
  revert s. induction evs as [|e evs IH]; intros s; simpl.
  - exists [], []. split; [reflexivity|]. now destruct (race src tid timeout s).
  - destruct (race src tid timeout s).
    + exists [], (e :: evs). split; reflexivity.
    + destruct (IH (on_event s e)) as (evs1 & evs2 & -> & Hs).
      exists (e :: evs1), evs2. split; [reflexivity|exact Hs].
Qed.

Lemma await_race_rel src tid timeout evs s :
  event_rel s (snd (await_race src tid timeout evs s)).
Proof.
  destruct (await_race_prefix src tid timeout evs s) as (evs1 & evs2 & _ & ->).
  apply on_events_rel.
Qed.

Lemma wait_arm_rel monitorId timeout controller s :
  op_rel s (snd (wait_arm monitorId timeout controller s)).
Proof.
  unfold wait_arm. cbv zeta. simpl.
  destruct (negb (MonitorOptions.oneTime (options_of s monitorId))); simpl.
  - apply (setTimeout_rel (WaitTimeout timeout) s).
  - apply (setTimeout_rel (WaitTimeout timeout) s).
Qed.

Lemma wait_finish_rel monitorId startTime now1 after o s :
  op_rel s (snd (wait_finish monitorId startTime now1 after o s)).
Proof.
  unfold wait_finish. destruct o as [response|error]; cbv zeta.
  - destruct (decode_response response) as [responseData requestId]. simpl.
    eapply op_rel_trans; [apply event_op_rel, on_events_rel|apply cleanupMonitor_rel].
  - simpl. apply cleanupMonitor_rel.
Qed.

Lemma waitForResponse_rel monitorId timeout now0 during now1 after s :
  op_rel s (snd (waitForResponse monitorId timeout now0 during now1 after s)).
Proof.
  unfold waitForResponse.
  destruct (map_get monitorId (monitorPromises s)) as [controller|]; [|apply op_rel_refl].
  cbv zeta.
  pose proof (wait_arm_rel monitorId timeout controller s) as Harm.
  destruct (wait_arm monitorId timeout controller s) as [[src tid] s1]. simpl in Harm.
  pose proof (await_race_rel src tid timeout during s1) as Hrace.
  destruct (await_race src tid timeout during s1) as [[o|] s2]; simpl in Hrace.
  - pose proof (wait_finish_rel monitorId
                  (match map_get monitorId (monitorStartTimes s) with
                   | Some t => if t =? 0 then now0 else t
                   | None => now0
                   end) now1 after o s2) as Hfin.
    destruct (wait_finish _ _ _ _ _ _) as [r s3]. simpl in *.
    eapply op_rel_trans; [exact Harm|].
    eapply op_rel_trans; [apply event_op_rel, Hrace|exact Hfin].
  - simpl. eapply op_rel_trans; [exact Harm|apply event_op_rel, Hrace].
Qed.

Lemma start_waiter_rel (b : bool) cl s :
  op_rel s (if b then snd (arm_waiter cl s) else s).
Proof. destruct b; [apply arm_waiter_rel|apply op_rel_refl]. Qed.

Lemma step_rel s op : op_rel s (step s op).
Proof.
  destruct op; simpl.
  - apply register_rel.
  - eapply op_rel_trans; [apply register_rel|apply start_waiter_rel].
  - eapply op_rel_trans; [apply register_rel|apply start_waiter_rel].
  - eapply op_rel_trans; [apply register_rel|apply start_waiter_rel].
  - apply waitForResponse_rel.
  - unfold cancelMonitor. destruct (map_has _ _);
      [apply cleanupMonitor_rel|apply op_rel_refl].
  - apply event_op_rel, cancelAllMonitors_rel.
  - unfold clearTrafficData. destruct (truthy_str monitorId); simpl;
      (split; [apply heap_evolves_refl|split; [intros H; exact H|auto]]).
  - apply event_op_rel, on_event_rel.
Qed.

Lemma steps_rel ops s : op_rel s (fold_left step ops s).
Proof.
  revert s. induction ops as [|op ops IH]; intros s; simpl; [apply op_rel_refl|].
  eapply op_rel_trans; [apply step_rel|apply IH].
Qed.

Lemma wf_constructor : wf constructor.
Proof.
  split; simpl; [apply NoDup_nil_2|]. intros a c t Ha. now rewrite lookup_nil in Ha.
Qed.

Lemma wf_run ops : wf (run ops).
Proof. apply (steps_rel ops constructor), wf_constructor. Qed.

End CallProofs.

(** ** [waitForResponse] *)

Section WaitProofs.
Context {rt : JsRuntime}.

Lemma wait_arm_fields monitorId timeout controller s :
  let '(src, tid, s1) := wait_arm monitorId timeout controller s in
  tid = length (timers s)
  /\ controllers s1 = controllers s
  /\ monitorPromises s1 = monitorPromises s
  /\ timers s1 = (timers s ++ [TArmed (WaitTimeout timeout)])%list.
Proof.
  unfold wait_arm. cbv zeta. simpl.
  destruct (negb (MonitorOptions.oneTime (options_of s monitorId))); simpl; auto.
Qed.

(** The result of a wait that returned, and the events that were
    delivered before [cleanupMonitor] ran. *)
Lemma waitForResponse_final monitorId timeout now0 during now1 after s controller res s' :
  map_get monitorId (monitorPromises s) = Some controller ->
  waitForResponse monitorId timeout now0 during now1 after s = (Some res, s') ->
  exists evs,
    (forall e, In e evs -> In e (during ++ after)%list)
    /\ s' = cleanupMonitor monitorId
              (on_events (snd (wait_arm monitorId timeout controller s)) evs).
Proof.
  intros Hget. unfold waitForResponse. rewrite Hget. cbv zeta.
  destruct (wait_arm monitorId timeout controller s) as [[src tid] s1]. simpl.
  destruct (await_race_prefix src tid timeout during s1) as (evs1 & evs2 & -> & Hs).
  destruct (await_race src tid timeout (evs1 ++ evs2) s1) as [[o|] s2]; [|discriminate].
  simpl in Hs. subst s2. unfold wait_finish. destruct o as [response|error]; cbv zeta.
  - destruct (decode_response response) as [responseData requestId].
    intros H. injection H as _ <-. exists (evs1 ++ after)%list. split.
    + intros e He. apply in_app_iff in He as [He|He]; apply in_app_iff;
        [left; apply in_app_iff; now left|now right].
    + unfold on_events. now rewrite fold_left_app.
  - intros H. injection H as _ <-. exists evs1. split; [|reflexivity].
    intros e He. apply in_app_iff. left. apply in_app_iff. now left.
Qed.

Lemma cleanup_after_events s0 monitorId evs :
  wf s0 -> map_has monitorId (monitorPromises s0) = true ->
  let s' := cleanupMonitor monitorId (on_events s0 evs) in
  (forall tid, monitor_timer monitorId s0 = Some tid -> not_armed (timers s' !! tid))
  /\ (getActiveMonitorsCount s' < getActiveMonitorsCount s0)%nat
  /\ (~ In EvClose evs -> S (getActiveMonitorsCount s') = getActiveMonitorsCount s0).
Proof.
  intros [Hnd Hb] Hhas s'. subst s'.
  pose proof (on_events_rel evs s0) as Hrel.
  set (s2 := on_events s0 evs) in *.
  unfold map_has in Hhas.
  destruct (map_get monitorId (monitorPromises s0)) as [a|] eqn:Hget; [|discriminate].
  destruct (cleanupMonitor_fields monitorId s2) as (_ & Hp & _).
  unfold getActiveMonitorsCount. rewrite Hp.
  assert (Hsame : monitorPromises s2 = monitorPromises s0 ->
                  S (map_size (map_delete monitorId (monitorPromises s2)))
                  = map_size (monitorPromises s0)).
  { intros ->. eapply map_size_delete; eassumption. }
  split; [|split].
  - intros tid Hm.
    assert (Hlt : (tid < length (timers s0))%nat) by (eapply monitor_timer_bound; eassumption).
    destruct (ev_cleared _ _ Hrel _ _ Hm Hlt) as [Hm2|Hn].
    + now apply cleanupMonitor_clears.
    + eapply timers_evolve_not_armed;
        [apply cleanupMonitor_timers_evolve| |exact Hn].
      rewrite (ev_tlen _ _ Hrel). exact Hlt.
  - destruct (ev_promises _ _ Hrel) as [Heq|Heq].
    + specialize (Hsame Heq). lia.
    + rewrite Heq. simpl. destruct (monitorPromises s0); [discriminate|simpl; lia].
  - intros Hnc. apply Hsame. subst s2. now apply on_events_promises.
Qed.

Lemma race_fired src tid timeout s cl :
  timers s !! tid = Some (TFired cl) ->
  exists o, race src tid timeout s = Some o.
Proof.
  intros Ht. unfold race. rewrite Ht.
  destruct (match src with
            | FromController a => controllers s !! a ≫= promise_state
            | FromWaiter wid => waiters s !! wid ≫= waiter_state
            end); eauto.
Qed.

(** A wait whose own timer fires returns. *)
Lemma await_race_returns src tid timeout evs s cl :
  (forall a c, controllers s !! a = Some c -> PromiseController.timeoutId c <> Some tid) ->
  timers s !! tid = Some (TArmed cl) \/ timers s !! tid = Some (TFired cl) ->
  In (EvTimer tid) evs ->
  exists o s', await_race src tid timeout evs s = (Some o, s').
Proof.
  revert s. induction evs as [|e evs IH]; intros s Hfree Ht Hin; [contradiction|].
  simpl. destruct (race src tid timeout s) as [o|] eqn:Hrace; [eauto|].
  destruct Ht as [Ht|Ht];
    [|destruct (race_fired src tid timeout s cl Ht) as [o Ho]; congruence].
  pose proof (on_event_rel s e) as Hrel.
  assert (Hfree' : forall a c, controllers (on_event s e) !! a = Some c ->
                               PromiseController.timeoutId c <> Some tid).
  { intros a c' Ha'.
    destruct (heap_back _ _ _ _ (ev_heap _ _ Hrel) (ev_clen _ _ Hrel) Ha') as [c [Hc E]].
    rewrite (evolves_timeoutId _ _ E). eapply Hfree, Hc. }
  destruct Hin as [->|Hin].
  - simpl. pose proof (fire_timer_fired tid s cl Ht) as Hf.
    destruct (race_fired src tid timeout (fire_timer tid s) cl Hf) as [o Ho].
    destruct evs; simpl; rewrite Ho; eauto.
  - apply IH; [exact Hfree'| |exact Hin].
    apply (ev_free _ _ Hrel); assumption.
Qed.

Lemma waitForResponse_returns monitorId timeout now0 during now1 after s :
  wf s -> In (EvTimer (length (timers s))) during ->
  exists res s', waitForResponse monitorId timeout now0 during now1 after s = (Some res, s').
Proof.
  intros [_ Hb] Hin. unfold waitForResponse.
  destruct (map_get monitorId (monitorPromises s)) as [controller|]; [|eauto].
  cbv zeta.
  pose proof (wait_arm_fields monitorId timeout controller s) as Harm.
  destruct (wait_arm monitorId timeout controller s) as [[src tid] s1].
  destruct Harm as (-> & Hc & _ & Ht).
  destruct (await_race_returns src (length (timers s)) timeout during s1
              (WaitTimeout timeout)) as (o & s2 & ->).
  - rewrite Hc. intros a c Ha Hid. specialize (Hb _ _ _ Ha Hid). lia.
  - left. rewrite Ht. now apply list_lookup_middle.
  - exact Hin.
  - destruct (wait_finish _ _ _ _ o s2) as [r s3]. eauto.
Qed.

End WaitProofs.

(** ** The monitor's life cycle *)

Section MonitorClaims.
Context {rt : JsRuntime}.

Lemma ctrl_ok_length c : ctrl_ok c -> (length (PromiseController.promise c) <= 1)%nat.
Proof.
  unfold ctrl_ok. destruct (PromiseController.promise c) as [|[x|x] [|y p]]; simpl;
    intros H; try lia; contradiction.
Qed.

Lemma run_app ops more : run (ops ++ more) = fold_left step more (run ops).
Proof. unfold run. apply fold_left_app. Qed.

(** C1. Across any history of registrations, waits, cancellations,
    traffic events, completions of Playwright's [waitForResponse] and
    timer firings, every controller is settled at most once and its
    flags say how; a controller that is resolved or rejected is never
    touched again, whatever happens next; and each monitor is in exactly
    one of the states Pending, Resolved, Rejected, Cancelled, of which
    the last three are final. *)
Theorem C1_monitor_settled_at_most_once (ops : list Op) :
  Forall (fun c => ctrl_ok c /\ (length (PromiseController.promise c) <= 1)%nat)
         (controllers (run ops))
  /\ (forall (more : list Op) (a : nat) (c : PromiseController.t),
        controllers (run ops) !! a = Some c -> pending c = false ->
        controllers (run (ops ++ more)) !! a = Some c)
  /\ (forall (a : nat) (st st' : MonitorState),
        monitor_state (run ops) a st -> monitor_state (run ops) a st' -> st = st')
  /\ (forall (more : list Op) (a : nat) (st : MonitorState),
        monitor_state (run ops) a st -> st <> Pending ->
        monitor_state (run (ops ++ more)) a st).
Proof.
  assert (Hstable : forall more a c,
            controllers (run ops) !! a = Some c -> pending c = false ->
            controllers (run (ops ++ more)) !! a = Some c).
  { intros more a c Ha Hp. rewrite run_app.
    destruct (steps_rel more (run ops)) as [[He _] _].
    destruct (He a c Ha) as [c' [Ha' E]].
    now rewrite (evolves_settled _ _ E Hp) in Ha'. }
  split; [|split; [exact Hstable|split]].
  - assert (Hok : Forall ctrl_ok (controllers (run ops))).
    { destruct (steps_rel ops constructor) as [He _].
      eapply heap_evolves_ok; [exact He|constructor]. }
    eapply Forall_impl; [exact Hok|].
    intros c Hc. split; [exact Hc|now apply ctrl_ok_length].
  - intros a st st' [c [Ha H]] [c' [Ha' H']].
    assert (c' = c) by congruence. subst c'. unfold pending in *.
    destruct st, st'; try reflexivity; exfalso;
      repeat match goal with
             | H : _ /\ _ |- _ => destruct H
             | H : (_ && _) = true |- _ => apply andb_true_iff in H
             | H : negb _ = true |- _ => apply negb_true_iff in H
             end; try congruence; tauto.
  - intros more a st [c [Ha H]] Hne.
    destruct st; [contradiction| | |].
    + exists c. split; [|exact H].
      apply Hstable; [exact Ha|]. unfold pending. now rewrite H.
    + exists c. split; [|exact H].
      apply Hstable; [exact Ha|]. unfold pending. destruct H as [-> ->]. reflexivity.
    + destruct H as [Hp Hn]. rewrite run_app.
      destruct (steps_rel more (run ops)) as (_ & _ & Hu).
      destruct (Hu a (lookup_lt_Some _ _ _ Ha) Hn) as [Hn' E].
      exists c. split; [congruence|split; assumption].
Qed.

(** C2. A wait on a registered monitor returns once its own timer has
    fired at the latest, and whenever it returns, by the [try] path or
    by the [catch] path, the monitor is gone from the five registry
    maps, its timeout timer is no longer armed, and the number of active
    monitors is smaller than before the call: by exactly one unless the
    page closed meanwhile (which cancels every monitor). *)
Theorem C2_waitForResponse_removes_monitor (ops : list Op) (monitorId : string)
    (timeout now0 : Z) (during : list Event) (now1 : Z) (after : list Event) :
  map_has monitorId (monitorPromises (run ops)) = true ->
  (In (EvTimer (length (timers (run ops)))) during ->
   exists res s',
     waitForResponse monitorId timeout now0 during now1 after (run ops) = (Some res, s'))
  /\ forall res s',
       waitForResponse monitorId timeout now0 during now1 after (run ops) = (Some res, s') ->
       map_has monitorId (monitorPromises s') = false
       /\ map_has monitorId (monitorStartTimes s') = false
       /\ map_has monitorId (monitorPaths s') = false
       /\ map_has monitorId (monitorOptions s') = false
       /\ map_has monitorId (monitorMethods s') = false
       /\ (forall tid, monitor_timer monitorId (run ops) = Some tid ->
                       not_armed (timers s' !! tid))
       /\ (getActiveMonitorsCount s' < getActiveMonitorsCount (run ops))%nat
       /\ (~ In EvClose (during ++ after) ->
           S (getActiveMonitorsCount s') = getActiveMonitorsCount (run ops)).
Proof.
  intros Hhas. pose proof (wf_run ops) as Hwf. set (s := run ops) in *. clearbody s.
  split; [intros Hin; now apply waitForResponse_returns|].
  intros res s' Hw.
  assert (Hget : exists a, map_get monitorId (monitorPromises s) = Some a).
  { unfold map_has in Hhas. destruct (map_get monitorId (monitorPromises s)); eauto.
    discriminate. }
  destruct Hget as [a Hget].
  destruct (waitForResponse_final _ _ _ _ _ _ _ _ _ _ Hget Hw) as (evs & Hevs & ->).
  pose proof (wait_arm_fields monitorId timeout a s) as Harm.
  pose proof (wait_arm_rel monitorId timeout a s) as (_ & Hwf1 & _).
  destruct (wait_arm monitorId timeout a s) as [[src tid] s1]. simpl in *.
  destruct Harm as (_ & Hc & Hp & Ht).
  destruct (cleanupMonitor_absent monitorId (on_events s1 evs)) as (A1 & A2 & A3 & A4 & A5).
  assert (Hhas1 : map_has monitorId (monitorPromises s1) = true) by now rewrite Hp.
  destruct (cleanup_after_events s1 monitorId evs (Hwf1 Hwf) Hhas1) as (T & N & E).
  assert (Hmt : monitor_timer monitorId s1 = monitor_timer monitorId s).
  { unfold monitor_timer. now rewrite Hp, Hc. }
  unfold getActiveMonitorsCount in *. rewrite Hp in N, E.
  repeat split; try assumption.
  - intros t Hm. apply T. congruence.
  - intros Hnc. apply E. intros Hin. apply Hnc, Hevs, Hin.
Qed.

(** C10. A wait on an identifier the registry does not hold returns at
    once, whatever events are pending, with the "does not exist" result,
    and leaves the state as it was. *)
Theorem C10_wait_on_unknown_monitor (s : ApiMonitor) (monitorId : string)
    (timeout now0 : Z) (during : list Event) (now1 : Z) (after : list Event) :
  map_has monitorId (monitorPromises s) = false ->
  waitForResponse monitorId timeout now0 during now1 after s
  = (Some (ApiResponseResult.mk false JNull 0
             (Some ("Monitor " ++ monitorId ++ " does not exist"))
             None None None None None None), s).
Proof.
  unfold map_has, waitForResponse.
  destruct (map_get monitorId (monitorPromises s)); [discriminate|reflexivity].
Qed.

Lemma nonempty_append_l a b : nonempty a = true -> nonempty (a ++ b) = true.
Proof. destruct a; [discriminate|reflexivity]. Qed.

(** C6. When the race of a wait ends with the timeout error of the
    monitor's own timer or with the one of the timer of the wait, the
    call returns (it does not throw) a result with [success = false],
    [data = null], [timedOut = true] and the message of that error. *)
Theorem C6_timeout_is_returned_not_thrown (s : ApiMonitor) (monitorId : string)
    (timeout now0 : Z) (during : list Event) (now1 : Z) (after : list Event)
    (error : JsError) :
  wait_outcome monitorId timeout during s = Some (RaceError error) ->
  (exists monitorOptions, error = monitorTimeoutError monitorOptions)
  \/ error = waitTimeoutError timeout ->
  exists waitedTime s',
    waitForResponse monitorId timeout now0 during now1 after s
    = (Some (ApiResponseResult.mk false JNull waitedTime (Some (message error))
               None None None None None (Some true)), s')
    /\ map_has monitorId (monitorPromises s') = false.
Proof.
  unfold wait_outcome, waitForResponse.
  destruct (map_get monitorId (monitorPromises s)) as [controller|]; [|discriminate].
  cbv zeta. destruct (wait_arm monitorId timeout controller s) as [[src tid] s1].
  destruct (await_race src tid timeout during s1) as [o s2]. simpl.
  intros -> Herr. unfold wait_finish. cbv zeta.
  assert (Hmsg : nonempty (message error) = true /\ error_isTimeout error = true).
  { destruct Herr as [[o ->]| ->]; split; reflexivity. }
  destruct Hmsg as [-> ->].
  eexists _, _. split; [reflexivity|].
  apply cleanupMonitor_absent.
Qed.

End MonitorClaims.

(** ** The request listener and bodies that are not JSON *)

Section RequestClaims.
Context {rt : JsRuntime}.


End RequestClaims.

(** ** Closed scenarios *)



Lemma C2_witness :
  map_has "m1" (monitorPromises (@run rt_none route_monitor_ops)) = true
  /\ exists res s',
       @waitForResponse rt_none "m1" 5000 102 [EvTimer 1] 110 []
         (@run rt_none route_monitor_ops) = (Some res, s')
       /\ map_has "m1" (monitorPromises s') = false
       /\ S (getActiveMonitorsCount s') = getActiveMonitorsCount (@run rt_none route_monitor_ops).
Proof.
  split; [reflexivity|].
  destruct (@C2_waitForResponse_removes_monitor rt_none route_monitor_ops "m1" 5000 102
              [EvTimer 1] 110 [] eq_refl) as [Hret Hpost].
  destruct Hret as (res & s' & Hw); [now left|].
  exists res, s'. split; [exact Hw|].
  destruct (Hpost res s' Hw) as (H1 & _ & _ & _ & _ & _ & _ & H8).
  split; [exact H1|]. apply H8. simpl. intros [H|[]]. discriminate.
Defined.

Lemma C10_witness :
  map_has "m1" (monitorPromises (@run rt_none consumed_ops)) = false
  /\ @waitForResponse rt_none "m1" 5000 120 [] 121 [] (@run rt_none consumed_ops)
     = (Some (ApiResponseResult.mk false JNull 0 (Some "Monitor m1 does not exist")
                None None None None None None),
        @run rt_none consumed_ops).
Proof.
  split; [reflexivity|].
  apply (@C10_wait_on_unknown_monitor rt_none (@run rt_none consumed_ops) "m1"
           5000 120 [] 121 []).
  reflexivity.
Defined.

(** The monitor's own timer (number 0) fires while the wait is pending. *)
Lemma C6_witness :
  @wait_outcome rt_none "m1" 5000 [EvTimer 0] (@run rt_none route_monitor_ops)
  = Some (RaceError (mkError "Monitor timed out (5000ms)" true))
  /\ exists waitedTime s',
       @waitForResponse rt_none "m1" 5000 102 [EvTimer 0] 110 []
         (@run rt_none route_monitor_ops)
       = (Some (ApiResponseResult.mk false JNull waitedTime
                  (Some "Monitor timed out (5000ms)")
                  None None None None None (Some true)), s')
       /\ map_has "m1" (monitorPromises s') = false.
Proof.
  split; [reflexivity|].
  apply (@C6_timeout_is_returned_not_thrown rt_none (@run rt_none route_monitor_ops) "m1"
           5000 102 [EvTimer 0] 110 [] (mkError "Monitor timed out (5000ms)" true)).
  - reflexivity.
  - left. exists (MonitorOptions.mk true false 5000 true true). reflexivity.
Defined.

(** The timer of the wait itself (number 1) fires first. *)
Example wait_timer_fires_first :
  @wait_outcome rt_none "m1" 5000 [EvTimer 1; EvTimer 0] (@run rt_none route_monitor_ops)
  = Some (RaceError (mkError "Waiting for response timed out (5000ms)" true)).
Proof. reflexivity. Qed.

(** ** The route handler *)

Section HandlerClaims.
Context {rt : JsRuntime}.

Lemma includes_nonempty s sub : includes s sub = true -> nonempty sub = true -> nonempty s = true.
Proof. destruct s; [|reflexivity]. destruct sub; [discriminate|]. simpl. discriminate. Qed.


Lemma handleRouteApiResponse_non201 result apiResult now :
  status_is 201 apiResult = false ->
  handleRouteApiResponse result apiResult now
  = (true,
     BridgeOperationOutput.set_routePass (Some false)
       (BridgeOperationOutput.set_testProgress (Some routeTested)
          (BridgeOperationOutput.set_error
             (Some (if hasNoRoutesFoundError apiResult then "no routes found"
                    else non201_errorMessage "Route" apiResult))
             (recordApiResponse result apiResult "route" "/v2/fungible/route" now)))).
Proof. intros H. unfold handleRouteApiResponse. now rewrite H. Qed.

Lemma handleRouteApiResponse_201 result apiResult now :
  status_is 201 apiResult = true ->
  handleRouteApiResponse result apiResult now
  = match embedded_error apiResult with
    | Some dataStr =>
        (true,
         BridgeOperationOutput.set_routePass (Some false)
           (BridgeOperationOutput.set_testProgress (Some routeTested)
              (BridgeOperationOutput.set_error (Some dataStr)
                 (recordApiResponse result apiResult "route" "/v2/fungible/route" now))))
    | None =>
        (false,
         BridgeOperationOutput.set_routePass (Some true)
           (BridgeOperationOutput.set_testProgress (Some routeTested)
              (recordApiResponse result apiResult "route" "/v2/fungible/route" now)))
    end.
Proof. intros H. unfold handleRouteApiResponse. now rewrite H. Qed.

(** C5. For a route response with status 201 whose body is
    an object or an array, the handler scans the stringified body for
    ["error"] and ["Error"]; when one of them occurs it records the
    stringified body as the error, with [routeTested] and
    [routePass = false], and asks to abort. *)
Theorem C5_embedded_error_in_object_body (result : BridgeOperationOutput.t)
    (apiResult : ApiResponseResult.t) (now : Z) :
  ApiResponseResult.status apiResult = Some 201 ->
  typeof_object (ApiResponseResult.data apiResult) = true ->
  truthy (ApiResponseResult.data apiResult) = true ->
  includes (JSON_stringify (ApiResponseResult.data apiResult)) "error"
  || includes (JSON_stringify (ApiResponseResult.data apiResult)) "Error" = true ->
  exists result',
    handleRouteApiResponse result apiResult now = (true, result')
    /\ BridgeOperationOutput.error result'
       = Some (JSON_stringify (ApiResponseResult.data apiResult))
    /\ BridgeOperationOutput.testProgress result' = Some routeTested
    /\ BridgeOperationOutput.routePass result' = Some false.
Proof.
  intros Hs Ht Hd Hi.
  rewrite handleRouteApiResponse_201 by (unfold status_is; now rewrite Hs).
  unfold embedded_error. cbv zeta. rewrite Hd, Ht, Hi. simpl.
  eexists. split; [reflexivity|]. simpl. auto.
Qed.

End HandlerClaims.

(** C5, counterexample.  A status 201 whose body is the text
    ["Internal Server Error"]: the stringified body contains ["Error"],
    yet the handler lets the route pass and records no error. *)
Lemma C5_counterexample :
  includes (JSON_stringify (ApiResponseResult.data body_with_error_text)) "Error" = true
  /\ fst (@handleRouteApiResponse rt_none blank_result body_with_error_text 7) = false
  /\ BridgeOperationOutput.error
       (snd (@handleRouteApiResponse rt_none blank_result body_with_error_text 7)) = None
  /\ BridgeOperationOutput.routePass
       (snd (@handleRouteApiResponse rt_none blank_result body_with_error_text 7))
     = Some true.
Proof. repeat split; vm_compute; reflexivity. Qed.

Lemma C5_witness :
  exists result',
    @handleRouteApiResponse rt_none blank_result object_with_error_field 7 = (true, result')
    /\ BridgeOperationOutput.error result'
       = Some (JSON_stringify (ApiResponseResult.data object_with_error_field))
    /\ BridgeOperationOutput.testProgress result' = Some routeTested
    /\ BridgeOperationOutput.routePass result' = Some false.
Proof.
  apply (@C5_embedded_error_in_object_body rt_none blank_result object_with_error_field 7);
    reflexivity.
Defined.

(** ** The pipeline boundary *)

Lemma derivation_compose f g : derivation f -> derivation g -> derivation (fun r => g (f r)).
Proof.
  intros Hf Hg r. destruct (Hf r) as (F1 & F2 & F3 & F4 & F5 & F6).
  destruct (Hg (f r)) as (G1 & G2 & G3 & G4 & G5 & G6).
  repeat split; try congruence; auto.
Qed.

Lemma derivation_success_from_error : derivation success_from_error.
Proof.
  intros r. unfold success_from_error, undefined_success.
  destruct (error_truthy r), (BridgeOperationOutput.success r) eqn:Hs; simpl;
    repeat split; auto; intros; congruence.
Qed.

Lemma derivation_success_from_routePass : derivation success_from_routePass.
Proof.
  intros r. unfold success_from_routePass, undefined_success.
  destruct (BridgeOperationOutput.routePass r) as [[|]|] eqn:Hq,
           (BridgeOperationOutput.success r) eqn:Hs; simpl;
    repeat split; auto; intros; congruence.
Qed.

Lemma derivation_derive_testProgress : derivation derive_testProgress.
Proof.
  intros r. unfold derive_testProgress.
  destruct (BridgeOperationOutput.testProgress r) eqn:Ht;
    [repeat split; auto; intros; congruence|].
  destruct (match BridgeOperationOutput.error r with
            | Some e => String.eqb e "Wallet connection failed"
            | None => false
            end); simpl; [repeat split; auto; intros; congruence|].
  destruct (BridgeOperationOutput.routePass r) eqn:Hq; simpl;
    repeat split; auto; intros; congruence.
Qed.

Lemma derivation_default_success : derivation default_success.
Proof.
  intros r. unfold default_success, undefined_success.
  destruct (BridgeOperationOutput.success r) eqn:Hs; simpl;
    repeat split; auto; intros; congruence.
Qed.

Lemma derivation_tail :
  derivation (fun r => default_success
                         (derive_testProgress (success_from_routePass (success_from_error r)))).
Proof.
  apply (derivation_compose (fun r => derive_testProgress
                                        (success_from_routePass (success_from_error r))));
    [|apply derivation_default_success].
  apply (derivation_compose (fun r => success_from_routePass (success_from_error r)));
    [|apply derivation_derive_testProgress].
  apply (derivation_compose success_from_error);
    [apply derivation_success_from_error|apply derivation_success_from_routePass].
Qed.

Lemma apply_options_fields options r :
  BridgeOperationOutput.error (apply_options options r) = BridgeOperationOutput.error r
  /\ BridgeOperationOutput.timing (apply_options options r)
     = BridgeOperationOutput.timing r
  /\ BridgeOperationOutput.transactionHash (apply_options options r)
     = BridgeOperationOutput.transactionHash r.
Proof.
  unfold apply_options. destruct options as [[[b|] [p|] [q|]]|]; simpl; auto.
Qed.

Lemma finalize_status_fields options r :
  BridgeOperationOutput.error (finalize_status options r) = BridgeOperationOutput.error r
  /\ BridgeOperationOutput.timing (finalize_status options r)
     = BridgeOperationOutput.timing r
  /\ BridgeOperationOutput.transactionHash (finalize_status options r)
     = BridgeOperationOutput.transactionHash r.
Proof.
  unfold finalize_status.
  destruct (derivation_tail (apply_options options r)) as (-> & -> & -> & _).
  apply apply_options_fields.
Qed.

Lemma finalize_status_explicit b p q r :
  BridgeOperationOutput.success (finalize_status (Some (mkFinalize (Some b) p q)) r) = Some b
  /\ (forall x, p = Some x ->
        BridgeOperationOutput.testProgress
          (finalize_status (Some (mkFinalize (Some b) p q)) r) = Some x)
  /\ (forall x, q = Some x ->
        BridgeOperationOutput.routePass
          (finalize_status (Some (mkFinalize (Some b) p q)) r) = Some x).
Proof.
  unfold finalize_status.
  destruct (derivation_tail (apply_options (Some (mkFinalize (Some b) p q)) r))
    as (_ & _ & _ & Hq & Hs & Hp).
  split; [|split].
  - apply Hs. unfold apply_options. simpl. now destruct p, q.
  - intros x ->. apply Hp. unfold apply_options. simpl. now destruct q.
  - intros x ->. rewrite Hq. reflexivity.
Qed.

Section PipelineProofs.
Context {rt : JsRuntime}.
Variable env : Env.
Variable taskId : string.

Lemma bind_Ret {A B} (m : M A) (k : A -> M B) st st' b :
  bind m k st = (st', Ret b) ->
  exists a st1, m st = (st1, Ret a) /\ k a st1 = (st', Ret b).
Proof.
  unfold bind. destruct (m st) as [st1 [a|e]]; [eauto|discriminate].
Qed.

Lemma finalizing_bind {A} (m : M A) (k : A -> M BridgeOperationOutput.t) :
  (forall a, finalizing env (k a)) -> finalizing env (bind m k).
Proof.
  intros Hk st st' r H. apply bind_Ret in H as (a & st1 & _ & H). eapply Hk, H.
Qed.

Lemma timing_finalize_status options t r :
  BridgeOperationOutput.timing
    (finalize_status options (BridgeOperationOutput.set_timing (Some t) r)) = Some t.
Proof.
  destruct (finalize_status_fields options
              (BridgeOperationOutput.set_timing (Some t) r)) as (_ & -> & _).
  reflexivity.
Qed.

Lemma finalizeResult_spec options st :
  exists st' r,
    finalizeResult env options st = (st', Ret r)
    /\ finalized env st' r
    /\ calls st' = calls st
    /\ exists t, r = finalize_status options
                       (BridgeOperationOutput.set_timing (Some t) (result st)).
Proof.
  unfold finalizeResult, bind, get_result, date_now, update, ret, finalized.
  destruct (BridgeOperationOutput.timing (result st)) as [t|]; simpl;
    [destruct (Timing.startTime t =? 0); simpl
    |destruct (env_clock env (ticks st) =? 0); simpl];
    (eexists _, _; split; [reflexivity|]; simpl;
     split; [split; [reflexivity|
                     eexists; split; [apply timing_finalize_status|split; reflexivity]]
            |split; [reflexivity|eexists; reflexivity]]).
Qed.

Lemma finalizing_finalizeResult options : finalizing env (finalizeResult env options).
Proof.
  intros st st' r H. destruct (finalizeResult_spec options st) as (st1 & r1 & H1 & F & _).
  rewrite H1 in H. injection H as <- <-. exact F.
Qed.

Lemma finalizing_if (b : bool) m1 m2 :
  finalizing env m1 -> finalizing env m2 -> finalizing env (if b then m1 else m2).
Proof. now destruct b. Qed.

Lemma finalizing_body amount fromChain fromToken toChain toToken routeType :
  finalizing env
    (performBridgeOperation_body env taskId amount fromChain fromToken toChain toToken
       routeType).
Proof.
  unfold performBridgeOperation_body.
  repeat first
    [ apply finalizing_finalizeResult
    | apply finalizing_if
    | apply finalizing_bind; intros ? ].
Qed.

Lemma takeScreenshot_spec name st :
  takeScreenshot env name st
  = (mkPState (result st) (calls st ++ [PageScreenshot name])%list (ticks st), Ret tt).
Proof.
  unfold takeScreenshot, try_catch, ask, logged, ret.
  destruct (env_unit env (length (calls st)) (PageScreenshot name)) as [[]|e]; reflexivity.
Qed.

Lemma performBridgeOperation_catch_spec error st :
  exists st' r,
    performBridgeOperation_catch env taskId error st = (st', Ret r)
    /\ finalized env st' r
    /\ BridgeOperationOutput.error r = Some (message error)
    /\ BridgeOperationOutput.success r = Some false
    /\ calls st' = (calls st ++ [PageScreenshot "bridge-operation-error"])%list.
Proof.
  unfold performBridgeOperation_catch. unfold bind at 1. unfold update at 1.
  unfold bind at 1. rewrite takeScreenshot_spec.
  unfold bind at 1. unfold push_screenshot, update at 1.
  unfold bind at 1. unfold get_result at 1.
  match goal with
  | |- context [finalizeResult env ?o ?st0] =>
      destruct (finalizeResult_spec o st0) as (st' & r & -> & F & Hc & t & Hr)
  end.
  exists st', r. split; [reflexivity|]. split; [exact F|]. simpl in Hc.
  split; [|split; [|exact Hc]].
  - rewrite Hr.
    match goal with
    | |- BridgeOperationOutput.error (finalize_status ?o ?r) = _ =>
        destruct (finalize_status_fields o r) as (-> & _)
    end.
    simpl. now destruct (BridgeOperationOutput.screenshots _).
  - rewrite Hr. apply finalize_status_explicit.
Qed.

(** C7. Whatever the collaborators do (return or throw, at any call),
    [performBridgeOperation] returns a result record and never throws;
    the record is finalized ([endTime] is the last clock reading and
    [duration = endTime - startTime]); and when the [try] block ended
    with an exception, the record carries the exception's message in
    [error], [success] is [false], and the last call made is the
    screenshot of the error. *)
Theorem C7_performBridgeOperation_never_throws
    (amount fromChain fromToken toChain toToken routeType : string) :
  exists st r,
    performBridgeOperation env taskId amount fromChain fromToken toChain toToken routeType
    = (st, Ret r)
    /\ finalized env st r
    /\ forall st1 error,
         performBridgeOperation_body env taskId amount fromChain fromToken toChain toToken
           routeType (mkPState (initial_result (env_clock env 0)) [] 1)
         = (st1, Throw error) ->
         BridgeOperationOutput.error r = Some (message error)
         /\ BridgeOperationOutput.success r = Some false
         /\ calls st = (calls st1 ++ [PageScreenshot "bridge-operation-error"])%list.
Proof.
  unfold performBridgeOperation, try_catch. cbv zeta.
  destruct (performBridgeOperation_body env taskId amount fromChain fromToken toChain
              toToken routeType (mkPState (initial_result (env_clock env 0)) [] 1))
    as [st1 [r|error]] eqn:Hbody.
  - exists st1, r. split; [reflexivity|]. split; [|discriminate].
    eapply finalizing_body, Hbody.
  - destruct (performBridgeOperation_catch_spec error st1)
      as (st' & r & -> & F & He & Hs & Hc).
    exists st', r. split; [reflexivity|]. split; [exact F|].
    intros st2 error' H. injection H as <- <-. auto.
Qed.

End PipelineProofs.

(** ** Runs in which every collaborator succeeds *)

Lemma prefix_append (p s : string) : String.prefix p (p ++ s) = true.
Proof.
  induction p as [|a p IH]; simpl; [now destruct s|].
  destruct (ascii_dec a a); [exact IH|contradiction].
Qed.

Section ScenarioProofs.
Context {rt : JsRuntime}.
Variable env : Env.
Variable taskId : string.
Hypothesis Hcoop : cooperative env.

Lemma captured_wait prefix captured n suffix timeout :
  captures_only env prefix captured ->
  env_api env n (WaitForResponse (prefix ++ suffix) timeout) = captured.
Proof.
  intros H. specialize (H n (prefix ++ suffix) timeout). now rewrite prefix_append in H.
Qed.

Lemma other_wait prefix captured n monitorId timeout :
  captures_only env prefix captured ->
  String.prefix prefix monitorId = false ->
  ApiResponseResult.success (env_api env n (WaitForResponse monitorId timeout)) = false.
Proof. intros H Hp. specialize (H n monitorId timeout). now rewrite Hp in H. Qed.

Lemma bind_assoc {A B C} (m : M A) (f : A -> M B) (k : B -> M C) st :
  bind (bind m f) k st = bind m (fun a => bind (f a) k) st.
Proof. unfold bind. now destruct (m st) as [st' [a|e]]. Qed.

Lemma bind_ret {A B} (a : A) (k : A -> M B) st : bind (ret a) k st = k a st.
Proof. reflexivity. Qed.

Lemma bind_tell {B} c (k : unit -> M B) r cs t :
  bind (tell c) k (mkPState r cs t) = k tt (mkPState r (cs ++ [c])%list t).
Proof. reflexivity. Qed.

Lemma bind_update {B} f (k : unit -> M B) r cs t :
  bind (update f) k (mkPState r cs t) = k tt (mkPState (f r) cs t).
Proof. reflexivity. Qed.

Lemma bind_get_result {B} (k : BridgeOperationOutput.t -> M B) r cs t :
  bind get_result k (mkPState r cs t) = k r (mkPState r cs t).
Proof. reflexivity. Qed.

Lemma bind_date_now {B} (k : Z -> M B) r cs t :
  bind (date_now env) k (mkPState r cs t) = k (env_clock env t) (mkPState r cs (S t)).
Proof. reflexivity. Qed.

Lemma bind_takeScreenshot {B} name (k : unit -> M B) r cs t :
  bind (takeScreenshot env name) k (mkPState r cs t)
  = k tt (mkPState r (cs ++ [PageScreenshot name])%list t).
Proof. unfold bind. now rewrite takeScreenshot_spec. Qed.

Lemma bind_ask_unit {B} c (k : unit -> M B) r cs t :
  bind (ask (env_unit env) c) k (mkPState r cs t) = k tt (mkPState r (cs ++ [c])%list t).
Proof. unfold bind, ask. now rewrite (proj1 Hcoop). Qed.

Lemma bind_ask_bool {B} c (k : bool -> M B) r cs t :
  bind (ask (env_bool env) c) k (mkPState r cs t) = k true (mkPState r (cs ++ [c])%list t).
Proof. unfold bind, ask. now rewrite (proj1 (proj2 Hcoop)). Qed.

Lemma bind_ask_str {B} c (k : option string -> M B) r cs t :
  bind (ask (env_str env) c) k (mkPState r cs t) = k None (mkPState r (cs ++ [c])%list t).
Proof. unfold bind, ask. now rewrite (proj1 (proj2 (proj2 Hcoop))). Qed.

Lemma bind_ask_ui {B} c (k : jsmap string -> M B) r cs t :
  bind (ask (env_ui env) c) k (mkPState r cs t) = k [] (mkPState r (cs ++ [c])%list t).
Proof. unfold bind, ask. now rewrite (proj1 (proj2 (proj2 (proj2 Hcoop)))). Qed.

Lemma bind_ask_button {B} c (k : bool * bool -> M B) r cs t :
  bind (ask (env_button env) c) k (mkPState r cs t)
  = k (true, true) (mkPState r (cs ++ [c])%list t).
Proof. unfold bind, ask. now rewrite (proj2 (proj2 (proj2 (proj2 Hcoop)))). Qed.

Lemma bind_ask_api {B} c (k : ApiResponseResult.t -> M B) r cs t :
  bind (ask (fun n c => Ret (env_api env n c)) c) k (mkPState r cs t)
  = k (env_api env (length cs) c) (mkPState r (cs ++ [c])%list t).
Proof. reflexivity. Qed.

Lemma try_catch_Ret {A} (m : M A) h st st' a :
  m st = (st', Ret a) -> try_catch m h st = (st', Ret a).
Proof. unfold try_catch. now intros ->. Qed.

Lemma bind_try_catch_Ret {A B} (m : M A) h (k : A -> M B) st st' a :
  m st = (st', Ret a) -> bind (try_catch m h) k st = k a st'.
Proof. unfold bind, try_catch. now intros ->. Qed.

(** A condition that evaluates to a boolean decides its conditional. *)
Ltac pipeline_if b :=
  lazymatch b with
  | true => cbv iota
  | false => cbv iota
  | _ =>
      let b' := eval vm_compute in b in
      lazymatch b' with
      | true => change b with true; cbv iota
      | false => change b with false; cbv iota
      end
  end.

(** A [try] block that returns: its steps, then the rest. *)
Ltac pipeline_try := eapply eq_trans; [ eapply bind_try_catch_Ret | cbv beta zeta ].

(** One step of the pipeline at the head of the goal [m st = _]. *)
Ltac pipeline_by lemma := eapply eq_trans; [ apply lemma | ]; cbv beta zeta.

(** The result record, field by field. *)
Ltac result_norm :=
  cbn [initial_result app
       BridgeOperationOutput.success BridgeOperationOutput.transactionHash
       BridgeOperationOutput.error BridgeOperationOutput.testProgress
       BridgeOperationOutput.routePass BridgeOperationOutput.apiResponses
       BridgeOperationOutput.preview BridgeOperationOutput.timing
       BridgeOperationOutput.screenshots
       BridgeOperationOutput.set_success BridgeOperationOutput.set_transactionHash
       BridgeOperationOutput.set_error BridgeOperationOutput.set_testProgress
       BridgeOperationOutput.set_routePass BridgeOperationOutput.set_apiResponses
       BridgeOperationOutput.set_preview BridgeOperationOutput.set_timing
       BridgeOperationOutput.set_screenshots].

Ltac pipeline_step :=
  lazymatch goal with
  | |- bind (bind _ _) _ _ = _ => pipeline_by @bind_assoc
  | |- bind (ret _) _ _ = _ => pipeline_by @bind_ret
  | |- bind (tell _) _ _ = _ => pipeline_by @bind_tell; cbn [app]
  | |- bind (update _) _ _ = _ => pipeline_by @bind_update; result_norm
  | |- bind get_result _ _ = _ => pipeline_by @bind_get_result
  | |- bind (date_now _) _ _ = _ => pipeline_by @bind_date_now
  | |- bind (takeScreenshot _ _) _ _ = _ => pipeline_by @bind_takeScreenshot; cbn [app]
  | |- bind (ask (env_unit _) _) _ _ = _ => pipeline_by @bind_ask_unit; cbn [app]
  | |- bind (ask (env_bool _) _) _ _ = _ => pipeline_by @bind_ask_bool; cbn [app]
  | |- bind (ask (env_str _) _) _ _ = _ => pipeline_by @bind_ask_str; cbn [app]
  | |- bind (ask (env_ui _) _) _ _ = _ => pipeline_by @bind_ask_ui; cbn [app]
  | |- bind (ask (env_button _) _) _ _ = _ => pipeline_by @bind_ask_button; cbn [app]
  | |- bind (ask (fun n c => Ret (env_api _ n c)) _) _ _ = _ =>
      pipeline_by @bind_ask_api; cbn [app]
  | |- bind (push_screenshot _) _ _ = _ => unfold push_screenshot at 1
  | |- bind (setupWalletConnection _) _ _ = _ => unfold setupWalletConnection at 1
  | |- bind (setupBridgeTransaction _ _ _ _ _ _) _ _ = _ =>
      unfold setupBridgeTransaction at 1
  | |- bind (navigateToBridgeUI _) _ _ = _ => unfold navigateToBridgeUI at 1
  | |- bind (configure_side _ _ _ _) _ _ = _ => unfold configure_side at 1
  | |- bind (processAmountAndMonitorRoute _ _) _ _ = _ =>
      unfold processAmountAndMonitorRoute at 1
  | |- bind (checkUIStateForRouteValidity _) _ _ = _ =>
      unfold checkUIStateForRouteValidity at 1
  | |- bind (selectRouteAndGetPreview _ _ _) _ _ = _ =>
      unfold selectRouteAndGetPreview at 1
  | |- bind (previewAndSubmitRoute _ _) _ _ = _ => unfold previewAndSubmitRoute at 1
  | |- bind (handleSimulateRpcResponse _ _) _ _ = _ =>
      unfold handleSimulateRpcResponse at 1
  | |- bind (handleTransactionConfirmation _) _ _ = _ =>
      unfold handleTransactionConfirmation at 1
  | |- bind (set_error _) _ _ = _ => unfold set_error at 1
  | |- bind (set_progress _ _) _ _ = _ => unfold set_progress at 1
  | |- bind (set_preview_from_ui _) _ _ = _ => unfold set_preview_from_ui at 1
  | |- bind (if ?b then _ else _) _ _ = _ => pipeline_if b
  | |- (if ?b then _ else _) _ = _ => pipeline_if b
  | |- ret _ _ = (_, Ret _) => reflexivity
  | |- _ => progress cbv beta iota zeta
  end.

(** A run whose [try] block reaches [finalizeResult]. *)
Lemma finished_run amount fromChain fromToken toChain toToken routeType b p q r1 cs1 t1 :
  performBridgeOperation_body env taskId amount fromChain fromToken toChain toToken
    routeType (mkPState (initial_result (env_clock env 0)) [] 1)
  = finalizeResult env (Some (mkFinalize (Some b) p q)) (mkPState r1 cs1 t1) ->
  exists st r,
    performBridgeOperation env taskId amount fromChain fromToken toChain toToken routeType
    = (st, Ret r)
    /\ calls st = cs1
    /\ BridgeOperationOutput.success r = Some b
    /\ BridgeOperationOutput.error r = BridgeOperationOutput.error r1
    /\ BridgeOperationOutput.transactionHash r = BridgeOperationOutput.transactionHash r1
    /\ (forall x, p = Some x -> BridgeOperationOutput.testProgress r = Some x)
    /\ (forall x, q = Some x -> BridgeOperationOutput.routePass r = Some x).
Proof.
  intros Hrun.
  destruct (finalizeResult_spec env (Some (mkFinalize (Some b) p q)) (mkPState r1 cs1 t1))
    as (st & r & Hf & _ & Hc & t & Hr).
  exists st, r. split.
  { unfold performBridgeOperation, try_catch. cbv zeta. now rewrite Hrun, Hf. }
  split; [exact Hc|]. rewrite Hr.
  destruct (finalize_status_explicit b p q (BridgeOperationOutput.set_timing (Some t) r1))
    as (Hs & Hp & Hq).
  destruct (finalize_status_fields (Some (mkFinalize (Some b) p q))
              (BridgeOperationOutput.set_timing (Some t) r1)) as (He & _ & Hh).
  repeat split; assumption.
Qed.


Lemma broadcast_run amount fromChain fromToken toChain toToken routeType
    broadcastResult hash :
  captures_only env "broadcast_monitor_" broadcastResult ->
  ApiResponseResult.success broadcastResult = true ->
  processBroadcastResponse broadcastResult = (true, Some hash, None) ->
  exists st r,
    performBridgeOperation env taskId amount fromChain fromToken toChain toToken routeType
    = (st, Ret r)
    /\ BridgeOperationOutput.transactionHash r = Some hash
    /\ BridgeOperationOutput.success r = Some true
    /\ BridgeOperationOutput.error r = None
    /\ BridgeOperationOutput.testProgress r = Some SignTested
    /\ BridgeOperationOutput.routePass r = Some true.
Proof.
  intros Hcap Hsucc Hproc.
  evar (r1 : BridgeOperationOutput.t). evar (cs1 : list call). evar (t1 : nat).
  assert (Hrun :
    performBridgeOperation_body env taskId amount fromChain fromToken toChain toToken
      routeType (mkPState (initial_result (env_clock env 0)) [] 1)
    = finalizeResult env (Some (mkFinalize (Some true) (Some SignTested) (Some true)))
        (mkPState r1 cs1 t1)).
  { subst r1 cs1 t1. unfold performBridgeOperation_body.
    repeat pipeline_step.
    rewrite (other_wait _ _ _ _ _ Hcap) by reflexivity.
    repeat pipeline_step.
    rewrite (other_wait _ _ _ _ _ Hcap) by reflexivity.
    repeat pipeline_step.
    rewrite (other_wait _ _ _ _ _ Hcap) by reflexivity.
    repeat pipeline_step.
    pipeline_try.
    { repeat pipeline_step. pipeline_try; [repeat pipeline_step|].
      repeat pipeline_step.
      rewrite !(captured_wait _ _ _ _ _ Hcap), Hsucc.
      repeat pipeline_step. rewrite Hproc. repeat pipeline_step. }
    repeat pipeline_step. reflexivity. }
  destruct (finished_run _ _ _ _ _ _ _ _ _ _ _ _ Hrun)
    as (st & r & Hp & Hc & Hs & He & Hh & Ht & Hq).
  exists st, r. split; [exact Hp|].
  split; [rewrite Hh; reflexivity|]. split; [exact Hs|].
  split; [rewrite He; reflexivity|].
  split; [apply Ht; reflexivity|apply Hq; reflexivity].
Qed.

Lemma simulate_error_raw_log sim code log :
  truthy sim = true ->
  prop sim "code" = Some code ->
  is_num (Some code) 0 = false ->
  prop sim "raw_log" = Some (JStr log) ->
  nonempty log = true ->
  simulate_error sim = Some log.
Proof.
  intros Ht Hc Hn Hl Hne. unfold simulate_error. rewrite Ht. cbv zeta.
  rewrite Hc, Hn, Hl. simpl.
  destruct log; [discriminate|reflexivity].
Qed.

Lemma simulation_failure_stage simulateResult msg r cs t :
  captures_only env "simulate_monitor_" simulateResult ->
  ApiResponseResult.success simulateResult = true ->
  truthy (ApiResponseResult.data simulateResult) = true ->
  truthy_opt (prop (ApiResponseResult.data simulateResult) "error") = false ->
  simulate_error (simulateResult_of (ApiResponseResult.data simulateResult)) = Some msg ->
  exists st',
    previewAndSubmitRoute env taskId (mkPState r cs t) = (st', Ret false)
    /\ BridgeOperationOutput.error (result st')
       = Some ("Transaction simulation failed: " ++ msg)
    /\ BridgeOperationOutput.testProgress (result st') = Some SignTested
    /\ BridgeOperationOutput.routePass (result st') = Some true
    /\ BridgeOperationOutput.success (result st') = Some false.
Proof.
  intros Hcap Hsucc Hdata Herr Hsim.
  evar (st1 : PState).
  assert (Hrun : previewAndSubmitRoute env taskId (mkPState r cs t) = (st1, Ret false)).
  { subst st1. unfold previewAndSubmitRoute.
    repeat pipeline_step.
    rewrite (other_wait _ _ _ _ _ Hcap) by reflexivity.
    repeat pipeline_step.
    rewrite !(captured_wait _ _ _ _ _ Hcap), Hsucc.
    repeat pipeline_step.
    rewrite Hdata. repeat pipeline_step. rewrite Herr. repeat pipeline_step.
    rewrite Hsim. repeat pipeline_step. }
  exists st1. split; [exact Hrun|]. subst st1. repeat split.
Qed.

Lemma simulation_failure_run amount fromChain fromToken toChain toToken routeType
    simulateResult msg :
  captures_only env "simulate_monitor_" simulateResult ->
  ApiResponseResult.success simulateResult = true ->
  truthy (ApiResponseResult.data simulateResult) = true ->
  truthy_opt (prop (ApiResponseResult.data simulateResult) "error") = false ->
  simulate_error (simulateResult_of (ApiResponseResult.data simulateResult)) = Some msg ->
  exists st r,
    performBridgeOperation env taskId amount fromChain fromToken toChain toToken routeType
    = (st, Ret r)
    /\ calls st = simulate_abort_trace (env_clock env) amount fromChain fromToken toChain
                    toToken routeType
    /\ BridgeOperationOutput.error r = Some ("Transaction simulation failed: " ++ msg)
    /\ BridgeOperationOutput.success r = Some false
    /\ BridgeOperationOutput.testProgress r = Some routeTested
    /\ BridgeOperationOutput.routePass r = Some false.
Proof.
  intros Hcap Hsucc Hdata Herr Hsim.
  evar (r1 : BridgeOperationOutput.t). evar (cs1 : list call). evar (t1 : nat).
  assert (Hrun :
    performBridgeOperation_body env taskId amount fromChain fromToken toChain toToken
      routeType (mkPState (initial_result (env_clock env 0)) [] 1)
    = finalizeResult env (Some (mkFinalize (Some false) (Some routeTested) (Some false)))
        (mkPState r1 cs1 t1)).
  { subst r1 cs1 t1. unfold performBridgeOperation_body.
    repeat pipeline_step.
    rewrite (other_wait _ _ _ _ _ Hcap) by reflexivity.
    repeat pipeline_step.
    rewrite (other_wait _ _ _ _ _ Hcap) by reflexivity.
    repeat pipeline_step.
    rewrite !(captured_wait _ _ _ _ _ Hcap), Hsucc.
    repeat pipeline_step.
    rewrite Hdata. repeat pipeline_step. rewrite Herr. repeat pipeline_step.
    rewrite Hsim. repeat pipeline_step. reflexivity. }
  destruct (finished_run _ _ _ _ _ _ _ _ _ _ _ _ Hrun)
    as (st & r & Hp & Hc & Hs & He & _ & Ht & Hq).
  exists st, r. split; [exact Hp|]. split; [subst cs1; exact Hc|].
  split; [rewrite He; reflexivity|]. split; [exact Hs|].
  split; [apply Ht; reflexivity|apply Hq; reflexivity].
Qed.

End ScenarioProofs.

(** ** The claims about the pipeline's scenarios *)



Lemma prop_Some_truthy (v : json) (k : string) (x : json) :
  prop v k = Some x -> String.eqb k "length" = false -> truthy v = true.
Proof.
  destruct v; simpl; try discriminate; try reflexivity.
  intros H Hk. rewrite Hk in H. discriminate.
Qed.

Lemma simulateResult_of_falsy {rt : JsRuntime} (data : json) :
  truthy data = false -> simulateResult_of data = JNull.
Proof.
  destruct data as [|b|z|str|items|fields]; simpl; try discriminate; reflexivity.
Qed.

(** C8. The simulation monitor captures a response without a
    top-level error whose parsed result has a code other than 0 and the
    [raw_log] ["insufficient funds"], in a run whose collaborators all
    succeed.  Then [previewAndSubmitRoute] returns [false] with the
    error ["Transaction simulation failed: insufficient funds"],
    [SignTested], [routePass = true] and [success = false]; the run
    stops after the wait on the simulation monitor; and in the
    finalized result the error and [success = false] remain, but
    [testProgress] is [routeTested] and [routePass] is [false]:
    [finalizeResult] is called with these two and overwrites what the
    stage has set. *)
Theorem C8_simulation_failure_is_finalized_as_routeTested {rt : JsRuntime} (env : Env)
    (taskId amount fromChain fromToken toChain toToken routeType : string)
    (simulateResult : ApiResponseResult.t) (sim code : json) :
  cooperative env ->
  captures_only env "simulate_monitor_" simulateResult ->
  ApiResponseResult.success simulateResult = true ->
  truthy_opt (prop (ApiResponseResult.data simulateResult) "error") = false ->
  simulateResult_of (ApiResponseResult.data simulateResult) = sim ->
  prop sim "code" = Some code ->
  is_num (Some code) 0 = false ->
  prop sim "raw_log" = Some (JStr "insufficient funds") ->
  (forall r cs t,
     exists st',
       previewAndSubmitRoute env taskId (mkPState r cs t) = (st', Ret false)
       /\ BridgeOperationOutput.error (result st')
          = Some "Transaction simulation failed: insufficient funds"
       /\ BridgeOperationOutput.testProgress (result st') = Some SignTested
       /\ BridgeOperationOutput.routePass (result st') = Some true
       /\ BridgeOperationOutput.success (result st') = Some false)
  /\ exists st r,
       performBridgeOperation env taskId amount fromChain fromToken toChain toToken
         routeType = (st, Ret r)
       /\ calls st = simulate_abort_trace (env_clock env) amount fromChain fromToken
                       toChain toToken routeType
       /\ BridgeOperationOutput.error r
          = Some "Transaction simulation failed: insufficient funds"
       /\ BridgeOperationOutput.success r = Some false
       /\ BridgeOperationOutput.testProgress r = Some routeTested
       /\ BridgeOperationOutput.routePass r = Some false.
Proof.
  intros Hcoop Hcap Hsucc Herr Hsim Hcode Hnum Hlog.
  assert (Htsim : truthy sim = true) by (eapply prop_Some_truthy; [exact Hcode|reflexivity]).
  assert (Hdata : truthy (ApiResponseResult.data simulateResult) = true).
  { destruct (truthy (ApiResponseResult.data simulateResult)) eqn:E; [reflexivity|].
    rewrite (simulateResult_of_falsy _ E) in Hsim. subst sim. discriminate. }
  assert (Hse : simulate_error (simulateResult_of (ApiResponseResult.data simulateResult))
                = Some "insufficient funds").
  { rewrite Hsim. eapply simulate_error_raw_log; eauto. }
  split.
  - intros r cs t. now apply (simulation_failure_stage env taskId Hcoop simulateResult
                               "insufficient funds").
  - now apply (simulation_failure_run env taskId Hcoop amount fromChain fromToken toChain
                 toToken routeType simulateResult "insufficient funds").
Qed.

Lemma prefix_refl (s : string) : String.prefix s s = true.
Proof.
  induction s as [|a s IH]; simpl; [reflexivity|].
  destruct (ascii_dec a a); [exact IH|contradiction].
Qed.

Lemma includes_refl (s : string) : includes s s = true.
Proof.
  destruct s as [|a s]; [reflexivity|].
  change (includes (String a s) (String a s))
    with (String.prefix (String a s) (String a s) || includes s (String a s)).
  now rewrite prefix_refl.
Qed.

Lemma includes_append (a s sub : string) :
  includes s sub = true -> includes (a ++ s) sub = true.
Proof.
  intros H. induction a as [|c a IH]; [exact H|].
  change (includes (String c a ++ s) sub)
    with (String.prefix sub (String c (a ++ s)) || includes (a ++ s) sub).
  rewrite IH. apply orb_true_r.
Qed.

(** C9. On a captured broadcast response, [processBroadcastResponse]
    fails when the body has no (truthy) [result]; with a [result] it
    succeeds exactly when [result.code === 0], and then returns
    [result.hash] when it is there; for any other code it fails with a
    message that includes [result.log], or ["Unknown error"] when there
    is no log.  In a run whose collaborators all succeed and whose
    broadcast monitor captures a response with code 0 and a hash, the
    finalized result carries that hash and [success = true]. *)
Theorem C9_processBroadcastResponse (result : ApiResponseResult.t) :
  ApiResponseResult.success result = true ->
  (truthy_opt (prop (ApiResponseResult.data result) "result") = false ->
   fst (fst (processBroadcastResponse result)) = false)
  /\ (forall r : json,
        prop (ApiResponseResult.data result) "result" = Some r ->
        truthy r = true ->
        (is_num (prop r "code") 0 = true ->
         processBroadcastResponse result
         = (true,
            match prop r "hash" with
            | Some hash => if truthy hash then Some hash else None
            | None => None
            end,
            None))
        /\ (is_num (prop r "code") 0 = false ->
            exists msg,
              processBroadcastResponse result = (false, None, Some msg)
              /\ includes msg
                   match prop r "log" with
                   | Some l => if truthy l then to_String l else "Unknown error"
                   | None => "Unknown error"
                   end = true))
  /\ (fst (fst (processBroadcastResponse result)) = true
      <-> exists r, prop (ApiResponseResult.data result) "result" = Some r
                    /\ truthy r = true /\ is_num (prop r "code") 0 = true)
  /\ (forall {rt : JsRuntime} (env : Env)
        (taskId amount fromChain fromToken toChain toToken routeType : string)
        (r hash : json),
        cooperative env ->
        captures_only env "broadcast_monitor_" result ->
        prop (ApiResponseResult.data result) "result" = Some r ->
        truthy r = true ->
        is_num (prop r "code") 0 = true ->
        prop r "hash" = Some hash ->
        truthy hash = true ->
        exists st out,
          performBridgeOperation env taskId amount fromChain fromToken toChain toToken
            routeType = (st, Ret out)
          /\ BridgeOperationOutput.transactionHash out = Some hash
          /\ BridgeOperationOutput.success out = Some true
          /\ BridgeOperationOutput.testProgress out = Some SignTested
          /\ BridgeOperationOutput.routePass out = Some true).
Proof.
  intros Hsucc.
  assert (Hwith : forall r, prop (ApiResponseResult.data result) "result" = Some r ->
            truthy r = true ->
            processBroadcastResponse result
            = if is_num (prop r "code") 0 then
                (true,
                 match prop r "hash" with
                 | Some hash => if truthy hash then Some hash else None
                 | None => None
                 end, None)
              else
                (false, None,
                 Some ("Transaction failed (code=" ++ to_String_opt (prop r "code") ++ "): "
                       ++ match prop r "log" with
                          | Some l => if truthy l then to_String l else "Unknown error"
                          | None => "Unknown error"
                          end))).
  { intros r Hr Ht. unfold processBroadcastResponse.
    rewrite Hsucc, (prop_Some_truthy _ _ _ Hr eq_refl). simpl. rewrite Hr, Ht. cbv zeta.
    destruct (is_num (prop r "code") 0); [|reflexivity].
    destruct (prop r "hash") as [hash|]; [|reflexivity]. now destruct (truthy hash). }
  assert (Hwithout : truthy_opt (prop (ApiResponseResult.data result) "result") = false ->
            fst (fst (processBroadcastResponse result)) = false).
  { intros H. unfold processBroadcastResponse. rewrite Hsucc. simpl.
    destruct (truthy (ApiResponseResult.data result)); [|reflexivity]. simpl.
    destruct (prop (ApiResponseResult.data result) "result") as [r|]; [|reflexivity].
    simpl in H. now rewrite H. }
  split; [exact Hwithout|]. split; [|split].
  - intros r Hr Ht. rewrite (Hwith r Hr Ht). split.
    + now intros ->.
    + intros ->. eexists. split; [reflexivity|].
      do 3 apply includes_append. apply includes_refl.
  - split.
    + intros H.
      destruct (prop (ApiResponseResult.data result) "result") as [r|] eqn:Hr.
      * destruct (truthy r) eqn:Ht.
        -- exists r. split; [reflexivity|]. split; [exact Ht|].
           rewrite (Hwith r eq_refl Ht) in H.
           now destruct (is_num (prop r "code") 0).
        -- rewrite Hwithout in H; [discriminate|exact Ht].
      * rewrite Hwithout in H; [discriminate|reflexivity].
    + intros (r & Hr & Ht & Hc). now rewrite (Hwith r Hr Ht), Hc.
  - intros rt env taskId amount fromChain fromToken toChain toToken routeType r hash
      Hcoop Hcap Hr Ht Hc Hh Hth.
    destruct (broadcast_run env taskId Hcoop amount fromChain fromToken toChain toToken
                routeType result hash Hcap Hsucc) as (st & out & H & H1 & H2 & _ & H4 & H5).
    { now rewrite (Hwith r Hr Ht), Hc, Hh, Hth. }
    exists st, out. auto.
Qed.

(** ** Closed runs of the pipeline *)

Lemma scripted_env_cooperative prefix captured : cooperative (scripted_env prefix captured).
Proof. repeat split. Qed.

Lemma scripted_env_captures prefix captured :
  captures_only (scripted_env prefix captured) prefix captured.
Proof.
  intros n monitorId timeout. simpl. now destruct (String.prefix prefix monitorId).
Qed.


Lemma C8_witness :
  exists st r,
    @performBridgeOperation rt_none
      (scripted_env "simulate_monitor_" insufficient_funds_result)
      "0" "1" "cosmoshub" "ATOM" "osmosis" "OSMO" "fast" = (st, Ret r)
    /\ BridgeOperationOutput.error r
       = Some "Transaction simulation failed: insufficient funds"
    /\ BridgeOperationOutput.success r = Some false
    /\ BridgeOperationOutput.testProgress r = Some routeTested
    /\ BridgeOperationOutput.routePass r = Some false.
Proof.
  destruct (@C8_simulation_failure_is_finalized_as_routeTested rt_none
              (scripted_env "simulate_monitor_" insufficient_funds_result)
              "0" "1" "cosmoshub" "ATOM" "osmosis" "OSMO" "fast"
              insufficient_funds_result
              (JObj [("code", JNum 5); ("raw_log", JStr "insufficient funds")])
              (JNum 5)
              (scripted_env_cooperative _ _) (scripted_env_captures _ _)
              eq_refl eq_refl eq_refl eq_refl eq_refl eq_refl)
    as (_ & st & r & H & _ & He & Hs & Hp & Hq).
  exists st, r. auto.
Defined.

Lemma C9_witness :
  processBroadcastResponse broadcast_ok_result = (true, Some (JStr "ABC123"), None)
  /\ exists st out,
       @performBridgeOperation rt_none
         (scripted_env "broadcast_monitor_" broadcast_ok_result)
         "0" "1" "cosmoshub" "ATOM" "osmosis" "OSMO" "fast" = (st, Ret out)
       /\ BridgeOperationOutput.transactionHash out = Some (JStr "ABC123")
       /\ BridgeOperationOutput.success out = Some true.
Proof.
  destruct (C9_processBroadcastResponse broadcast_ok_result eq_refl)
    as (_ & Hresult & _ & Hrun).
  split.
  - apply (Hresult (JObj [("code", JNum 0); ("hash", JStr "ABC123")])); reflexivity.
  - destruct (Hrun rt_none (scripted_env "broadcast_monitor_" broadcast_ok_result)
                "0" "1" "cosmoshub" "ATOM" "osmosis" "OSMO" "fast"
                (JObj [("code", JNum 0); ("hash", JStr "ABC123")]) (JStr "ABC123")
                (scripted_env_cooperative _ _) (scripted_env_captures _ _)
                eq_refl eq_refl eq_refl eq_refl eq_refl)
      as (st & out & H & Hh & Hs & _).
    exists st, out. auto.
Defined.

(** An exception in the middle of the second stage: the run returns a
    record with the message, and its last call is the screenshot. *)
Example exception_mid_pipeline :
  exists st r,
    @performBridgeOperation rt_none throwing_env "0" "1" "cosmoshub" "ATOM" "osmosis" "OSMO"
      "fast" = (st, Ret r)
    /\ BridgeOperationOutput.error r = Some "Target closed"
    /\ BridgeOperationOutput.success r = Some false
    /\ BridgeOperationOutput.testProgress r = Some untested
    /\ last (calls st) = Some (PageScreenshot "bridge-operation-error").
Proof. eexists _, _. split; [vm_compute; reflexivity|]. repeat split. Qed.

(* ================================================================== *)
(** * Further properties of the sources                                 *)
(* ================================================================== *)

(** ** Path matching *)

Lemma nonempty_true (s : string) : nonempty s = true <-> s <> "".
Proof.
  unfold nonempty. destruct (String.eqb_spec s ""); simpl; split; congruence.
Qed.

(** X1. [pathMatches] on a URL: an empty URL or an empty path never
    matches; the exact mode matches exactly the path itself, the
    partial mode every URL that contains the path; so whatever matches
    exactly also matches partially. *)
Theorem pathMatches_modes (url path : string) (o : MonitorOptions.t) :
  urlMatches url "" o = false
  /\ urlMatches "" path o = false
  /\ (MonitorOptions.partialMatch o = false ->
      (urlMatches url path o = true <-> url = path /\ path <> ""))
  /\ (MonitorOptions.partialMatch o = true ->
      (urlMatches url path o = true
       <-> includes url path = true /\ url <> "" /\ path <> ""))
  /\ (forall o' : MonitorOptions.t,
        MonitorOptions.partialMatch o = false ->
        MonitorOptions.partialMatch o' = true ->
        urlMatches url path o = true -> urlMatches url path o' = true).
Proof.
  assert (Hexact : MonitorOptions.partialMatch o = false ->
                   (urlMatches url path o = true <-> url = path /\ path <> "")).
  { intros Hp. unfold urlMatches, pathMatches. simpl. fold (nonempty url). rewrite Hp.
    destruct (nonempty url) eqn:Hu, (nonempty path) eqn:Hn; simpl.
    - apply nonempty_true in Hn. destruct (String.eqb_spec url path); split;
        try tauto; discriminate.
    - split; [discriminate|]. intros [_ H]. destruct path; [now elim H|discriminate].
    - split; [discriminate|]. intros [-> _]. congruence.
    - split; [discriminate|]. intros [_ H]. destruct path; [now elim H|discriminate]. }
  assert (Hpartial : forall o' : MonitorOptions.t, MonitorOptions.partialMatch o' = true ->
                     (urlMatches url path o' = true
                      <-> includes url path = true /\ url <> "" /\ path <> "")).
  { intros o' Hp. unfold urlMatches, pathMatches. simpl. fold (nonempty url). rewrite Hp.
    destruct (nonempty url) eqn:Hu, (nonempty path) eqn:Hn; simpl;
      rewrite <- ?nonempty_true, ?Hu, ?Hn; split; try tauto; try discriminate;
      intros (_ & ? & ?); discriminate. }
  split; [|split; [|split; [|split]]].
  - unfold urlMatches, pathMatches. simpl. now rewrite orb_true_r.
  - reflexivity.
  - exact Hexact.
  - intros Hp. now apply Hpartial.
  - intros o' Hp Hp' H. apply Hexact in H as [-> Hne]; [|exact Hp].
    apply Hpartial; [exact Hp'|]. split; [apply includes_refl|tauto].
Qed.

(** ** The traffic logs *)

Lemma for_entries_rel_keys {V S} (R : S -> S -> Prop) (body : string -> V -> S -> option S)
    (entries : jsmap V) :
  (forall s, R s s) -> (forall a b c, R a b -> R b c -> R a c) ->
  (forall k v s s', k ∈ map_keys entries -> body k v s = Some s' -> R s s') ->
  forall s, R s (for_entries body entries s).
Proof.
  intros Hrefl Htrans. induction entries as [|[k v] rest IH]; intros Hbody s; simpl.
  - apply Hrefl.
  - destruct (body k v s) as [s'|] eqn:E; [|apply Hrefl].
    eapply Htrans.
    + eapply Hbody; [|exact E]. simpl. apply list_elem_of_here.
    + apply IH. intros k' v' s1 s2 Hin. apply Hbody. simpl. now apply list_elem_of_further.
Qed.

Lemma map_get_push {V} (k k' : string) (x : V) (m : jsmap (list V)) :
  map_get k' (push k x m)
  = if String.eqb k' k then Some (default [] (map_get k m) ++ [x])%list else map_get k' m.
Proof. unfold push. apply map_get_set. Qed.

Lemma same_traffic_refl monitorId s : same_traffic monitorId s s.
Proof. now split. Qed.

Lemma same_traffic_trans monitorId s1 s2 s3 :
  same_traffic monitorId s1 s2 -> same_traffic monitorId s2 s3 -> same_traffic monitorId s1 s3.
Proof. intros [A B] [C D]. split; congruence. Qed.

Lemma same_traffic_record_request monitorId k rec s :
  k <> monitorId -> same_traffic monitorId s (record_request k rec s).
Proof.
  intros Hne. split; [|reflexivity]. simpl. rewrite map_get_push.
  destruct (String.eqb_spec monitorId k); [congruence|reflexivity].
Qed.

Lemma same_traffic_record_response monitorId k rec s :
  k <> monitorId -> same_traffic monitorId s (record_response k rec s).
Proof.
  intros Hne. split; [reflexivity|]. simpl. rewrite map_get_push.
  destruct (String.eqb_spec monitorId k); [congruence|reflexivity].
Qed.

Lemma same_traffic_settle monitorId k how s :
  same_traffic monitorId s (settle_if_pending k how s).
Proof.
  unfold settle_if_pending.
  destruct (map_get k (monitorPromises s)) as [a|]; [|apply same_traffic_refl].
  destruct (controllers s !! a) as [c|]; [|apply same_traffic_refl].
  destruct (pending c); [now split|apply same_traffic_refl].
Qed.

Lemma same_traffic_resolve monitorId k options response s :
  same_traffic monitorId s (resolve_if_oneTime k options response s).
Proof.
  unfold resolve_if_oneTime.
  destruct (MonitorOptions.oneTime options);
    [apply same_traffic_settle|apply same_traffic_refl].
Qed.

Section TrafficProofs.
Context {rt : JsRuntime}.

(** The loops of the listeners touch only the logs of the identifiers
    they iterate over. *)
Ltac loop_keeps monitorId :=
  apply (for_entries_rel_keys (same_traffic monitorId));
  [ apply same_traffic_refl
  | apply same_traffic_trans
  | let k := fresh "k" in let Hin := fresh "Hin" in let E := fresh "E" in
    intros k ? ? ? Hin E;
    assert (k <> monitorId) by (intros ->; contradiction);
    repeat match type of E with
           | context [match ?x with _ => _ end] => destruct x; try discriminate
           end;
    injection E as <-;
    repeat first
      [ apply same_traffic_refl
      | apply same_traffic_record_request; assumption
      | apply same_traffic_record_response; assumption
      | eapply same_traffic_trans;
        [|apply same_traffic_resolve];
        apply same_traffic_record_response; assumption ] ].

Lemma on_request_loops monitorId request now s :
  monitorId ∉ map_keys (monitorPaths s) ->
  same_traffic monitorId
    (record_request "all"
       (CapturedRequest.mk (Request.url request) (Request.method request) now None None) s)
    (on_request request now s).
Proof.
  intros Hk. unfold on_request. cbv zeta.
  set (s1 := record_request "all" _ s).
  assert (Hk1 : monitorId ∉ map_keys (monitorPaths s1)) by exact Hk.
  clearbody s1.
  destruct (String.eqb (Request.method request) "POST").
  - destruct (Request.postData request) as [postData|]; [|apply same_traffic_refl].
    destruct (nonempty postData); [|apply same_traffic_refl].
    destruct (JSON_parse postData) as [jsonBody|]; [|apply same_traffic_refl].
    destruct jsonBody; try apply same_traffic_refl;
      match goal with
      | |- context [if ?b then _ else _] => destruct b
      end; loop_keeps monitorId.
  - loop_keeps monitorId.
Qed.

Lemma match_response_by_url_loops monitorId response now body s :
  monitorId ∉ map_keys (monitorPaths s) ->
  same_traffic monitorId s (match_response_by_url response now body s).
Proof. intros Hk. unfold match_response_by_url. cbv zeta. loop_keeps monitorId. Qed.

Lemma on_response_loops monitorId response now s :
  monitorId ∉ map_keys (monitorPaths s) ->
  same_traffic monitorId
    (record_response "all"
       (CapturedResponse.mk (Response.url response) (Response.status response) now None None)
       s)
    (on_response response now s).
Proof.
  intros Hk. unfold on_response. cbv zeta.
  destruct (String.eqb (Request.method (Response.request response)) "POST");
    [apply same_traffic_refl|].
  now apply match_response_by_url_loops.
Qed.

Lemma on_response_body_loops monitorId response now s :
  monitorId ∉ map_keys (monitorPaths s) ->
  same_traffic monitorId s (on_response_body response now s).
Proof.
  intros Hk. unfold on_response_body. cbv zeta.
  destruct (String.eqb (Request.method (Response.request response)) "POST");
    [|apply same_traffic_refl].
  destruct (listener_responseBody response) as [responseBody|]; [|apply same_traffic_refl].
  destruct (truthy responseBody); [|apply same_traffic_refl].
  destruct (parse_postData (Response.request response)) as [requestBody|];
    [|now apply match_response_by_url_loops].
  match goal with
  | |- context [if ?b then _ else _] => destruct b
  end; [loop_keeps monitorId|now apply match_response_by_url_loops].
Qed.

(** X2. Every request and every response the page reports is appended to
    the log of all traffic, whatever its method, body and status, and
    reading a POST response's body adds nothing to it; this needs that
    no monitor is registered under the identifier ["all"] itself. *)
Theorem all_traffic_is_logged (s : ApiMonitor) (request : Request.t)
    (response : Response.t) (now : Z) :
  map_has "all" (monitorPaths s) = false ->
  getAllTraffic (on_request request now s)
  = ((fst (getAllTraffic s)
      ++ [CapturedRequest.mk (Request.url request) (Request.method request) now None None])%list,
     snd (getAllTraffic s))
  /\ getAllTraffic (on_response response now s)
     = (fst (getAllTraffic s),
        (snd (getAllTraffic s)
         ++ [CapturedResponse.mk (Response.url response) (Response.status response) now
               None None])%list)
  /\ getAllTraffic (on_response_body response now s) = getAllTraffic s.
Proof.
  intros Hall. apply map_has_In_keys in Hall. unfold getAllTraffic.
  destruct (on_request_loops "all" request now s Hall) as [-> ->].
  destruct (on_response_loops "all" response now s Hall) as [-> ->].
  destruct (on_response_body_loops "all" response now s Hall) as [-> ->].
  simpl. rewrite !map_get_push. simpl. auto.
Qed.

End TrafficProofs.

(** ** The registry under events *)

Lemma same_registry_refl s : same_registry s s.
Proof. repeat split. Qed.

Lemma same_registry_trans s1 s2 s3 :
  same_registry s1 s2 -> same_registry s2 s3 -> same_registry s1 s3.
Proof.
  intros (A1 & A2 & A3 & A4 & A5) (B1 & B2 & B3 & B4 & B5).
  repeat split; congruence.
Qed.

Lemma listener_same_registry s s' : listener_rel s s' -> same_registry s s'.
Proof. intros []. repeat split; assumption. Qed.

Lemma settle_same_registry monitorId how s :
  same_registry s (settle_if_pending monitorId how s).
Proof. apply listener_same_registry, listener_rel_settle. Qed.

Section RegistryProofs.
Context {rt : JsRuntime}.

Lemma fire_timer_same_registry tid s : same_registry s (fire_timer tid s).
Proof.
  unfold fire_timer. destruct (timers s !! tid) as [[cl| |]|]; try apply same_registry_refl.
  destruct cl; [|repeat split].
  eapply same_registry_trans; [|apply settle_same_registry]. repeat split.
Qed.

Lemma on_waiter_response_same_registry wid resp s :
  same_registry s (on_waiter_response wid resp s).
Proof.
  unfold on_waiter_response.
  destruct (waiters s !! wid) as [[cl| |]|]; try apply same_registry_refl.
  destruct (waiter_predicate cl resp); [|apply same_registry_refl].
  destruct (waiter_monitor cl) as [[monitorId o]|]; [|repeat split].
  eapply same_registry_trans; [|apply settle_same_registry]. repeat split.
Qed.

Lemma on_waiter_error_same_registry wid err s :
  same_registry s (on_waiter_error wid err s).
Proof.
  unfold on_waiter_error.
  destruct (waiters s !! wid) as [[cl| |]|]; try apply same_registry_refl.
  destruct (waiter_monitor cl) as [[monitorId o]|]; [|repeat split].
  eapply same_registry_trans; [|apply settle_same_registry]. repeat split.
Qed.

Lemma on_event_same_registry s e : e <> EvClose -> same_registry s (on_event s e).
Proof.
  intros Hne. destruct e; simpl.
  - apply listener_same_registry, listener_rel_on_request.
  - apply listener_same_registry, listener_rel_on_response.
  - apply listener_same_registry, listener_rel_on_response_body.
  - apply fire_timer_same_registry.
  - apply on_waiter_response_same_registry.
  - apply on_waiter_error_same_registry.
  - contradiction.
Qed.

(** X3. No request, response, timer firing or completion of a Playwright
    waiter registers or removes a monitor or changes its start time,
    path, options or method: a monitor whose timeout has fired stays
    registered until it is waited for or cancelled.  Only the page's
    close event changes the registry. *)
Theorem events_keep_the_registry (s : ApiMonitor) (e : Event) :
  e <> EvClose ->
  same_registry s (on_event s e)
  /\ getActiveMonitorIds (on_event s e) = getActiveMonitorIds s
  /\ getActiveMonitorsCount (on_event s e) = getActiveMonitorsCount s.
Proof.
  intros Hne. pose proof (on_event_same_registry s e Hne) as H.
  split; [exact H|]. destruct H as (Hp & _).
  unfold getActiveMonitorIds, getActiveMonitorsCount. now rewrite Hp.
Qed.

Lemma paths_rel_refl s : paths_rel s s.
Proof. now intros H. Qed.

Lemma paths_rel_trans s1 s2 s3 : paths_rel s1 s2 -> paths_rel s2 s3 -> paths_rel s1 s3.
Proof. unfold paths_rel. auto. Qed.

Lemma paths_rel_eq s s' : monitorPaths s' = monitorPaths s -> paths_rel s s'.
Proof. intros E H. now rewrite E. Qed.

Lemma paths_rel_cleanupMonitor monitorId s : paths_rel s (cleanupMonitor monitorId s).
Proof.
  intros H. destruct (cleanupMonitor_fields monitorId s) as (_ & _ & _ & -> & _).
  now apply NoDup_keys_delete.
Qed.

Lemma paths_rel_cleanup_all ks s : paths_rel s (cleanup_all ks s).
Proof.
  revert s. induction ks as [|k ks IH]; intros s; [apply paths_rel_refl|].
  simpl. eapply paths_rel_trans; [apply paths_rel_cleanupMonitor|apply IH].
Qed.

Lemma paths_rel_on_event s e : paths_rel s (on_event s e).
Proof.
  assert (Hd : e = EvClose \/ e <> EvClose) by (destruct e; auto; right; discriminate).
  destruct Hd as [->|Hne].
  - apply paths_rel_cleanup_all.
  - apply paths_rel_eq. now destruct (on_event_same_registry s e Hne) as (_ & _ & ? & _).
Qed.

Lemma paths_rel_on_events evs s : paths_rel s (on_events s evs).
Proof.
  revert s. induction evs as [|e evs IH]; intros s; [apply paths_rel_refl|].
  simpl. eapply paths_rel_trans; [apply paths_rel_on_event|apply IH].
Qed.

Lemma paths_rel_await_race src tid timeout evs s :
  paths_rel s (snd (await_race src tid timeout evs s)).
Proof.
  destruct (await_race_prefix src tid timeout evs s) as (evs1 & evs2 & _ & ->).
  apply paths_rel_on_events.
Qed.

Lemma paths_rel_wait_arm monitorId timeout controller s :
  paths_rel s (snd (wait_arm monitorId timeout controller s)).
Proof.
  apply paths_rel_eq. unfold wait_arm. cbv zeta. simpl.
  now destruct (negb (MonitorOptions.oneTime (options_of s monitorId))).
Qed.

Lemma paths_rel_wait_finish monitorId startTime now1 after o s :
  paths_rel s (snd (wait_finish monitorId startTime now1 after o s)).
Proof.
  unfold wait_finish. destruct o as [response|error]; simpl.
  - destruct (decode_response response). simpl.
    eapply paths_rel_trans; [apply paths_rel_on_events|apply paths_rel_cleanupMonitor].
  - apply paths_rel_cleanupMonitor.
Qed.

Lemma paths_rel_waitForResponse monitorId timeout now0 during now1 after s :
  paths_rel s (snd (waitForResponse monitorId timeout now0 during now1 after s)).
Proof.
  unfold waitForResponse.
  destruct (map_get monitorId (monitorPromises s)) as [controller|];
    [|apply paths_rel_refl].
  pose proof (paths_rel_wait_arm monitorId timeout controller s) as H1.
  destruct (wait_arm monitorId timeout controller s) as [[src tid] s1]. simpl in H1.
  pose proof (paths_rel_await_race src tid timeout during s1) as H2.
  destruct (await_race src tid timeout during s1) as [[o|] s2]; simpl in H2.
  - pose proof (paths_rel_wait_finish monitorId
                  match map_get monitorId (monitorStartTimes s) with
                  | Some t => if t =? 0 then now0 else t
                  | None => now0
                  end now1 after o s2) as H3.
    destruct (wait_finish _ _ _ _ _ _) as [r s3]. simpl in *.
    eapply paths_rel_trans; [exact H1|]. eapply paths_rel_trans; [exact H2|exact H3].
  - simpl. eapply paths_rel_trans; [exact H1|exact H2].
Qed.

Lemma paths_rel_register monitorId path methodName opts now s :
  paths_rel s (register monitorId path methodName opts now s).
Proof.
  intros H. unfold register. cbv zeta.
  destruct (negb (MonitorOptions.timeout opts =? 0)); simpl;
    (destruct path as [p|]; simpl; [now apply NoDup_keys_set|exact H]).
Qed.

Lemma paths_rel_start_waiter (b : bool) cl s :
  paths_rel s (if b then snd (arm_waiter cl s) else s).
Proof. destruct b; [now apply paths_rel_eq|apply paths_rel_refl]. Qed.

Lemma paths_rel_step s op : paths_rel s (step s op).
Proof.
  destruct op; simpl.
  - apply paths_rel_register.
  - eapply paths_rel_trans; [apply paths_rel_register|apply paths_rel_start_waiter].
  - eapply paths_rel_trans; [apply paths_rel_register|apply paths_rel_start_waiter].
  - eapply paths_rel_trans; [apply paths_rel_register|apply paths_rel_start_waiter].
  - apply paths_rel_waitForResponse.
  - unfold cancelMonitor. destruct (map_has _ _);
      [apply paths_rel_cleanupMonitor|apply paths_rel_refl].
  - apply paths_rel_cleanup_all.
  - apply paths_rel_eq. unfold clearTrafficData. now destruct (truthy_str monitorId).
  - apply paths_rel_on_event.
Qed.

Lemma paths_nodup_run ops : NoDup (map_keys (monitorPaths (run ops))).
Proof.
  unfold run.
  assert (H : forall s, paths_rel s (fold_left step ops s)).
  { induction ops as [|op ops IH]; intros s; [apply paths_rel_refl|].
    simpl. eapply paths_rel_trans; [apply paths_rel_step|apply IH]. }
  apply H. simpl. apply NoDup_nil_2.
Qed.

End RegistryProofs.

(** ** The private log of a monitor *)

Lemma map_get_split {V} (k : string) (v : V) (m : jsmap V) :
  NoDup (map_keys m) -> map_get k m = Some v ->
  exists pre post,
    m = (pre ++ ((k, v) :: post))%list
    /\ (k ∉ map_keys pre) /\ (k ∉ map_keys post).
Proof.
  induction m as [|[k' v'] m IH]; simpl; [discriminate|].
  intros Hnd Hget. apply NoDup_cons in Hnd as [Hnotin Hnd].
  unfold map_get in *. simpl in Hget.
  destruct (String.eqb_spec k k') as [->|Hne].
  - injection Hget as ->. exists [], m. split; [reflexivity|].
    split; [apply not_elem_of_nil|exact Hnotin].
  - destruct (IH Hnd Hget) as (pre & post & -> & Hpre & Hpost).
    exists ((k', v') :: pre), post. split; [reflexivity|]. split; [|exact Hpost].
    simpl. apply not_elem_of_cons. now split.
Qed.

Lemma for_entries_app {V S} (body : string -> V -> S -> option S) (pre post : jsmap V) :
  (forall k v s, body k v s <> None) ->
  forall s, for_entries body (pre ++ post)%list s = for_entries body post (for_entries body pre s).
Proof.
  intros Htotal. induction pre as [|[k v] pre IH]; intros s; simpl; [reflexivity|].
  destruct (body k v s) as [s'|] eqn:E; [apply IH|]. now apply Htotal in E.
Qed.

Section PrivateLogProofs.
Context {rt : JsRuntime}.

Lemma url_loop_request url method now body (entries : jsmap string) monitorId path s :
  NoDup (map_keys entries) -> map_get monitorId entries = Some path ->
  let s' :=
    for_entries
      (fun monitorId path s =>
         Some (if urlMatches url path (options_of s monitorId)
               then record_request monitorId (CapturedRequest.mk url method now None body) s
               else s))
      entries s in
  map_get monitorId (capturedRequests s')
  = (if urlMatches url path (options_of s monitorId)
     then Some (default [] (map_get monitorId (capturedRequests s))
                ++ [CapturedRequest.mk url method now None body])%list
     else map_get monitorId (capturedRequests s))
  /\ map_get monitorId (capturedResponses s') = map_get monitorId (capturedResponses s).
Proof.
  intros Hnd Hget. destruct (map_get_split _ _ _ Hnd Hget) as (pre & post & -> & Hpre & Hpost).
  cbv zeta. rewrite for_entries_app by discriminate. simpl.
  set (body' := fun (monitorId : string) (path : string) (s : ApiMonitor) =>
         Some (if urlMatches url path (options_of s monitorId)
               then record_request monitorId (CapturedRequest.mk url method now None body) s
               else s)).
  assert (Hkeep : forall entries s, monitorId ∉ map_keys entries ->
            same_traffic monitorId s (for_entries body' entries s)
            /\ monitorOptions (for_entries body' entries s) = monitorOptions s).
  { intros entries s0 Hk. split.
    - apply (for_entries_rel_keys (same_traffic monitorId));
        [apply same_traffic_refl|apply same_traffic_trans|].
      intros k v a b Hin E. assert (k <> monitorId) by (intros ->; contradiction).
      unfold body' in E. injection E as <-.
      destruct (urlMatches _ _ _);
        [now apply same_traffic_record_request|apply same_traffic_refl].
    - apply (for_entries_rel (fun a b : ApiMonitor => monitorOptions b = monitorOptions a));
        [reflexivity|congruence|].
      intros k v a b E. unfold body' in E. injection E as <-.
      now destruct (urlMatches _ _ _). }
  destruct (Hkeep pre s Hpre) as [[Hq1 Hr1] Ho1].
  set (s1 := for_entries body' pre s) in *.
  assert (Hopt : options_of s1 monitorId = options_of s monitorId)
    by (unfold options_of; now rewrite Ho1).
  rewrite Hopt.
  set (s2 := if urlMatches url path (options_of s monitorId)
             then record_request monitorId (CapturedRequest.mk url method now None body) s1
             else s1).
  destruct (Hkeep post s2 Hpost) as [[Hq2 Hr2] _].
  rewrite Hq2, Hr2. unfold s2.
  destruct (urlMatches url path (options_of s monitorId)); simpl.
  - rewrite map_get_push, String.eqb_refl, Hq1. now split.
  - now split.
Qed.

(** X4. A request that is not a POST is appended to the private log of a
    registered monitor exactly when its URL matches the monitor's path
    (exactly or partially, by the monitor's options), once; the
    monitor's log of responses is not touched. *)
Theorem matching_request_is_captured (ops : list Op) (request : Request.t) (now : Z)
    (monitorId path : string) :
  map_get monitorId (monitorPaths (run ops)) = Some path ->
  monitorId <> "all" ->
  Request.method request <> "POST" ->
  getMonitorTraffic monitorId (on_request request now (run ops))
  = ((fst (getMonitorTraffic monitorId (run ops))
      ++ if urlMatches (Request.url request) path (options_of (run ops) monitorId)
         then [CapturedRequest.mk (Request.url request) (Request.method request) now
                 None None]
         else [])%list,
     snd (getMonitorTraffic monitorId (run ops))).
Proof.
  intros Hget Hall Hpost. unfold getMonitorTraffic, on_request. cbv zeta.
  destruct (String.eqb_spec (Request.method request) "POST") as [E|_]; [contradiction|].
  set (s1 := record_request "all" _ (run ops)).
  destruct (url_loop_request (Request.url request) (Request.method request) now None
              (monitorPaths s1) monitorId path s1 (paths_nodup_run ops) Hget) as [-> ->].
  assert (Hq : map_get monitorId (capturedRequests s1)
               = map_get monitorId (capturedRequests (run ops))).
  { unfold s1. simpl. rewrite map_get_push.
    destruct (String.eqb_spec monitorId "all"); [contradiction|reflexivity]. }
  rewrite Hq. change (options_of s1 monitorId) with (options_of (run ops) monitorId).
  destruct (urlMatches _ _ _); simpl; [reflexivity|].
  now rewrite app_nil_r.
Qed.

End PrivateLogProofs.

(** ** Responses and timeouts that come before the wait *)

Lemma resolved_open a response s : resolved_with a response s -> open_or_resolved a response s.
Proof. intros (c & H & Hs). exists c. auto. Qed.

Lemma promise_state_settle how c o :
  promise_state c = Some o -> promise_state (settle how c) = Some o.
Proof.
  unfold promise_state. destruct how; simpl;
    destruct (PromiseController.promise c) as [|[r|e] l]; simpl; congruence.
Qed.

Lemma settle_resolve_open a k response s :
  open_or_resolved a response s ->
  open_or_resolved a response (settle_if_pending k (Resolve response) s).
Proof.
  intros (c & Hc & Hs). unfold settle_if_pending.
  destruct (map_get k (monitorPromises s)) as [ak|]; [|now exists c].
  destruct (controllers s !! ak) as [ck|] eqn:Hk; [|now exists c].
  destruct (pending ck) eqn:Hp; [|now exists c].
  destruct (Nat.eq_dec ak a) as [->|Hne].
  - rewrite Hc in Hk. injection Hk as <-.
    exists (settle (Resolve response) c). simpl. split.
    + apply list_lookup_insert_eq. now apply lookup_lt_Some in Hc.
    + right. destruct Hs as [[_ He]|Hs]; [|exact (promise_state_settle (Resolve response) _ _ Hs)].
      unfold promise_state. simpl. now rewrite He.
  - exists c. simpl. split; [|exact Hs]. now rewrite list_lookup_insert_ne.
Qed.

Lemma settle_resolve_resolved a k response s :
  resolved_with a response s ->
  resolved_with a response (settle_if_pending k (Resolve response) s).
Proof.
  intros (c & Hc & Hs). unfold settle_if_pending.
  destruct (map_get k (monitorPromises s)) as [ak|]; [|now exists c].
  destruct (controllers s !! ak) as [ck|] eqn:Hk; [|now exists c].
  destruct (pending ck) eqn:Hp; [|now exists c].
  destruct (Nat.eq_dec ak a) as [->|Hne].
  - rewrite Hc in Hk. injection Hk as <-.
    exists (settle (Resolve response) c). simpl. split.
    + apply list_lookup_insert_eq. now apply lookup_lt_Some in Hc.
    + exact (promise_state_settle (Resolve response) _ _ Hs).
  - exists c. simpl. split; [|exact Hs]. now rewrite list_lookup_insert_ne.
Qed.

Lemma settle_resolve_here a monitorId response s :
  map_get monitorId (monitorPromises s) = Some a ->
  open_or_resolved a response s ->
  resolved_with a response (settle_if_pending monitorId (Resolve response) s).
Proof.
  intros Hm (c & Hc & Hs). unfold settle_if_pending. rewrite Hm, Hc.
  destruct (pending c) eqn:Hp.
  - exists (settle (Resolve response) c). simpl. split.
    + apply list_lookup_insert_eq. now apply lookup_lt_Some in Hc.
    + destruct Hs as [[_ He]|Hs]; [|exact (promise_state_settle (Resolve response) _ _ Hs)].
      unfold promise_state. simpl. now rewrite He.
  - exists c. split; [exact Hc|]. destruct Hs as [[Hp' _]|Hs]; [congruence|exact Hs].
Qed.

Section EarlyProofs.
Context {rt : JsRuntime}.

Lemma run_ctrl_ok ops a c : controllers (run ops) !! a = Some c -> ctrl_ok c.
Proof.
  intros H. destruct (steps_rel ops constructor) as ((_ & Hnew) & _).
  eapply Hnew; [|exact H]. reflexivity.
Qed.

(** The URL loop of the response listener resolves the controller of
    a one-time monitor whose path matches. *)
Lemma match_response_by_url_resolves response now body monitorId a path s :
  map_get monitorId (monitorPromises s) = Some a ->
  map_get monitorId (monitorPaths s) = Some path ->
  MonitorOptions.oneTime (options_of s monitorId) = true ->
  urlMatches (Response.url response) path (options_of s monitorId) = true ->
  open_or_resolved a response s ->
  resolved_with a response (match_response_by_url response now body s).
Proof.
  intros Hm Hpath Hone Hurl Hopen. unfold match_response_by_url. cbv zeta.
  set (body' := fun (monitorId : string) (path : string) (s : ApiMonitor) =>
         Some (if urlMatches (Response.url response) path (options_of s monitorId)
               then resolve_if_oneTime monitorId (options_of s monitorId) response
                      (record_response monitorId
                         (CapturedResponse.mk (Response.url response)
                            (Response.status response) now None body) s)
               else s)).
  assert (Hreg : forall k v st st', body' k v st = Some st' ->
            monitorPromises st' = monitorPromises st
            /\ monitorOptions st' = monitorOptions st).
  { intros k v st st' E. unfold body' in E. injection E as <-.
    destruct (urlMatches (Response.url response) v (options_of st k)); [|now split].
    match goal with
    | |- monitorPromises (resolve_if_oneTime ?k ?o ?r ?x) = _ /\ _ =>
        destruct (listener_rel_resolve k o r x) as [Lp _ _ Lo _ _ _ _ _ _];
        rewrite Lp, Lo
    end.
    now split. }
  assert (Hkeep : forall k v st st', body' k v st = Some st' ->
            (open_or_resolved a response st -> open_or_resolved a response st')
            /\ (resolved_with a response st -> resolved_with a response st')).
  { intros k v st st' E. unfold body' in E. injection E as <-.
    destruct (urlMatches (Response.url response) v (options_of st k)); [|now split].
    unfold resolve_if_oneTime.
    destruct (MonitorOptions.oneTime (options_of st k)); [|now split].
    split; intros H.
    - apply settle_resolve_open. exact H.
    - apply settle_resolve_resolved. exact H. }
  assert (Hres : forall entries st, resolved_with a response st ->
            resolved_with a response (for_entries body' entries st)).
  { intros entries. induction entries as [|[k v] rest IH]; intros st H; simpl; [exact H|].
    apply IH. eapply Hkeep; [reflexivity|exact H]. }
  assert (Hall : forall entries st,
            map_get monitorId entries = Some path ->
            monitorPromises st = monitorPromises s -> monitorOptions st = monitorOptions s ->
            open_or_resolved a response st ->
            resolved_with a response (for_entries body' entries st)).
  { intros entries. induction entries as [|[k v] rest IH]; intros st Hg Hp Ho H;
      [discriminate|].
    unfold map_get in Hg. simpl in Hg. simpl.
    destruct (String.eqb_spec monitorId k) as [<-|Hne].
    - injection Hg as ->. apply Hres.
      assert (Eo : options_of st monitorId = options_of s monitorId)
        by (unfold options_of; now rewrite Ho).
      rewrite Eo, Hurl. unfold resolve_if_oneTime. rewrite Hone.
      apply settle_resolve_here; [simpl; now rewrite Hp|exact H].
    - destruct (Hreg k v st _ eq_refl) as [Hp' Ho'].
      apply IH; [exact Hg|congruence|congruence|].
      eapply Hkeep; [reflexivity|exact H]. }
  apply Hall; auto.
Qed.

(** A wait on a one-time monitor whose controller is already settled
    does not suspend: no event is consumed. *)
Lemma wait_on_settled monitorId timeout now0 during now1 after s a c o :
  map_get monitorId (monitorPromises s) = Some a ->
  controllers s !! a = Some c ->
  promise_state c = Some o ->
  MonitorOptions.oneTime (options_of s monitorId) = true ->
  waitForResponse monitorId timeout now0 during now1 after s
  = let '(r, s') :=
      wait_finish monitorId
        match map_get monitorId (monitorStartTimes s) with
        | Some t => if t =? 0 then now0 else t
        | None => now0
        end now1 after o (snd (setTimeout (WaitTimeout timeout) s)) in
    (Some r, s').
Proof.
  intros Hm Hc Ho Hone. unfold waitForResponse, wait_arm. rewrite Hm. cbv zeta.
  rewrite Hone. simpl.
  assert (Hrace : race (FromController a) (length (timers s)) timeout
                    (set_timers (fun t => (t ++ [TArmed (WaitTimeout timeout)])%list) s)
                  = Some o).
  { unfold race. simpl. rewrite Hc. simpl. now rewrite Ho. }
  destruct during; simpl; rewrite Hrace; reflexivity.
Qed.

End EarlyProofs.

Section EarlyClaims.
Context {rt : JsRuntime}.

(** X5. A response to a request that is not a POST, arriving after a
    one-time path monitor has been registered but before
    [waitForResponse] is called, is not lost: the listener resolves the
    monitor's controller with it, and the wait, whenever it is made,
    returns at once with that response ([success], status, URL and
    body of the response, [timedOut = false]) and removes the
    monitor. *)
Theorem early_response_is_delivered (ops : list Op) (monitorId path : string) (a : nat)
    (c : PromiseController.t) (response : Response.t) (now timeout now0 now1 : Z)
    (during after : list Event) :
  map_get monitorId (monitorPromises (run ops)) = Some a ->
  controllers (run ops) !! a = Some c ->
  pending c = true ->
  map_get monitorId (monitorPaths (run ops)) = Some path ->
  MonitorOptions.oneTime (options_of (run ops) monitorId) = true ->
  urlMatches (Response.url response) path (options_of (run ops) monitorId) = true ->
  Request.method (Response.request response) <> "POST" ->
  exists res s',
    waitForResponse monitorId timeout now0 during now1 after
      (on_response response now (run ops)) = (Some res, s')
    /\ ApiResponseResult.success res = true
    /\ ApiResponseResult.rawResponse res = Some response
    /\ ApiResponseResult.status res = Some (Response.status response)
    /\ ApiResponseResult.url res = Some (Response.url response)
    /\ ApiResponseResult.data res = fst (decode_response response)
    /\ ApiResponseResult.timedOut res = Some false
    /\ map_has monitorId (monitorPromises s') = false.
Proof.
  intros Hm Hc Hp Hpath Hone Hurl Hmethod.
  assert (Hopen : open_or_resolved a response (run ops)).
  { exists c. split; [exact Hc|]. left. split; [exact Hp|].
    apply ctrl_ok_pending_promise; [|exact Hp]. eapply run_ctrl_ok, Hc. }
  assert (Hres : resolved_with a response (on_response response now (run ops))).
  { unfold on_response. cbv zeta.
    destruct (String.eqb_spec (Request.method (Response.request response)) "POST")
      as [E|_]; [contradiction|].
    apply match_response_by_url_resolves with (monitorId := monitorId) (path := path);
      assumption. }
  destruct Hres as (c' & Hc' & Hstate).
  destruct (listener_rel_on_response response now (run ops))
    as [Lp Ls _ Lo _ _ _ _ _ _].
  rewrite (wait_on_settled monitorId timeout now0 during now1 after _ a c'
             (RaceResponse response)); try assumption.
  - unfold wait_finish. destruct (decode_response response) as [responseData requestId].
    eexists _, _. split; [reflexivity|]. simpl. repeat split.
    apply cleanupMonitor_absent.
  - now rewrite Lp.
  - unfold options_of. now rewrite Lo.
Qed.


End EarlyClaims.

(** ** Registering and cancelling *)

Lemma map_size_set {V} (k : string) (v : V) (m : jsmap V) :
  map_size (map_set k v m) = if map_has k m then map_size m else S (map_size m).
Proof.
  unfold map_size, map_has, map_get.
  induction m as [|[k' v'] m IH]; simpl; [reflexivity|].
  destruct (String.eqb k k'); simpl; [reflexivity|].
  rewrite IH. now destruct (assoc k m).
Qed.

Lemma map_has_set {V} (k k' : string) (v : V) (m : jsmap V) :
  map_has k' (map_set k v m) = String.eqb k' k || map_has k' m.
Proof. unfold map_has. rewrite map_get_set. now destruct (String.eqb k' k). Qed.

Lemma cleanupMonitor_traffic monitorId s :
  capturedRequests (cleanupMonitor monitorId s) = capturedRequests s
  /\ capturedResponses (cleanupMonitor monitorId s) = capturedResponses s.
Proof.
  unfold cleanupMonitor.
  destruct (map_get monitorId (monitorPromises s)) as [a|]; [|now split].
  destruct (controllers s !! a) as [c|]; [|now split].
  destruct (PromiseController.timeoutId c) as [tid|]; [|now split].
  unfold clearTimeout. destruct (timers s !! tid) as [[cl| |]|]; now split.
Qed.


Section RegisterProofs.
Context {rt : JsRuntime}.

Lemma register_fields monitorId path methodName opts now s :
  let s' := register monitorId path methodName opts now s in
  monitorPromises s' = map_set monitorId (length (controllers s)) (monitorPromises s)
  /\ monitorStartTimes s' = map_set monitorId now (monitorStartTimes s)
  /\ monitorPaths s'
     = match path with
       | Some p => map_set monitorId p (monitorPaths s)
       | None => monitorPaths s
       end
  /\ monitorOptions s' = map_set monitorId opts (monitorOptions s)
  /\ monitorMethods s'
     = match methodName with
       | Some m => map_set monitorId m (monitorMethods s)
       | None => monitorMethods s
       end
  /\ capturedRequests s' = map_set monitorId [] (capturedRequests s)
  /\ capturedResponses s' = map_set monitorId [] (capturedResponses s)
  /\ waiters s' = waiters s
  /\ (forall a c, controllers s !! a = Some c -> controllers s' !! a = Some c)
  /\ exists tid,
       controllers s' !! length (controllers s)
       = Some (PromiseController.mk [] tid false false)
       /\ match tid with
          | Some t =>
              MonitorOptions.timeout opts <> 0 /\ t = length (timers s)
              /\ timers s' = (timers s ++ [TArmed (MonitorTimeout monitorId opts)])%list
          | None => MonitorOptions.timeout opts = 0 /\ timers s' = timers s
          end.
Proof.
  unfold register. cbv zeta.
  destruct (Z.eqb_spec (MonitorOptions.timeout opts) 0) as [E|E]; simpl.
  - repeat split; try reflexivity.
    + intros a c H. now apply lookup_app_l_Some.
    + exists None. split; [|now split]. apply list_lookup_middle. reflexivity.
  - repeat split; try reflexivity.
    + intros a c H. rewrite list_lookup_insert_ne.
      * now apply lookup_app_l_Some.
      * apply lookup_lt_Some in H. lia.
    + exists (Some (length (timers s))). split; [|now repeat split].
      apply list_lookup_insert_eq. rewrite length_app. simpl. lia.
Qed.

(** X7. [startMonitoringSpecificPath(path, method, monitorId, options)]
    returns [monitorId] and leaves it registered with a new pending
    controller, the start time, the path, the defaults overridden by
    [options], and empty private logs; the number of active monitors
    grows by one unless the identifier was registered already; the
    monitors under other identifiers, their logs and every controller
    that existed are untouched. *)
Theorem startMonitoringSpecificPath_registers (path method monitorId : string)
    (options : MonitorOptions.arg) (now : Z) (s : ApiMonitor) :
  let s' := snd (startMonitoringSpecificPath path method monitorId options now s) in
  fst (startMonitoringSpecificPath path method monitorId options now s) = monitorId
  /\ map_get monitorId (monitorPromises s') = Some (length (controllers s))
  /\ (exists c, controllers s' !! length (controllers s) = Some c
                /\ pending c = true /\ PromiseController.promise c = [])
  /\ map_get monitorId (monitorStartTimes s') = Some now
  /\ map_get monitorId (monitorPaths s') = Some path
  /\ options_of s' monitorId = MonitorOptions.spread defaultOptions options
  /\ getMonitorTraffic monitorId s' = ([], [])
  /\ getActiveMonitorsCount s'
     = (if map_has monitorId (monitorPromises s) then getActiveMonitorsCount s
        else S (getActiveMonitorsCount s))
  /\ (forall other, other <> monitorId ->
        map_get other (monitorPromises s') = map_get other (monitorPromises s)
        /\ map_get other (monitorPaths s') = map_get other (monitorPaths s)
        /\ options_of s' other = options_of s other
        /\ getMonitorTraffic other s' = getMonitorTraffic other s)
  /\ (forall a c, controllers s !! a = Some c -> controllers s' !! a = Some c).
Proof.
  cbv zeta. unfold startMonitoringSpecificPath. cbv zeta.
  set (o := MonitorOptions.spread defaultOptions options).
  destruct (register_fields monitorId (Some path) None o now s)
    as (Hp & Hs & Hpa & Ho & _ & Hq & Hr & _ & Hold & tid & Hnew & _).
  set (s1 := register monitorId (Some path) None o now s) in *.
  cbn [fst snd].
  set (s2 := if MonitorOptions.oneTime o
             then snd (arm_waiter (PathWaiter monitorId path method o) s1) else s1).
  assert (E : controllers s2 = controllers s1 /\ monitorPromises s2 = monitorPromises s1
              /\ monitorStartTimes s2 = monitorStartTimes s1
              /\ monitorPaths s2 = monitorPaths s1 /\ monitorOptions s2 = monitorOptions s1
              /\ capturedRequests s2 = capturedRequests s1
              /\ capturedResponses s2 = capturedResponses s1).
  { unfold s2. destruct (MonitorOptions.oneTime o); repeat split. }
  destruct E as (Ec & Ep & Es & Epa & Eo & Eq & Er).
  unfold getMonitorTraffic, options_of, getActiveMonitorsCount.
  rewrite Ec, Ep, Es, Epa, Eo, Eq, Er, Hp, Hs, Hpa, Ho, Hq, Hr.
  rewrite !map_get_set, String.eqb_refl, map_size_set.
  split; [reflexivity|]. split; [reflexivity|].
  split; [eexists; split; [exact Hnew|split; reflexivity]|].
  repeat (split; [reflexivity|]).
  split; [|exact Hold].
  intros other Hne. rewrite !map_get_set.
  destruct (String.eqb_spec other monitorId); [contradiction|]. repeat split.
Qed.

End RegisterProofs.

Lemma map_keys_delete_back {V} (k x : string) (m : jsmap V) :
  x <> k -> x ∈ map_keys m -> x ∈ map_keys (map_delete k m).
Proof.
  intros Hne. induction m as [|[k' v'] m IH]; simpl; [auto|].
  intros H. apply elem_of_cons in H as [->|H].
  - destruct (String.eqb_spec k k'); [congruence|]. simpl. apply list_elem_of_here.
  - destruct (String.eqb k k'); [auto|]. simpl. apply list_elem_of_further. auto.
Qed.

Lemma map_keys_set_iff {V} (k x : string) (v : V) (m : jsmap V) :
  x ∈ map_keys (map_set k v m) <-> x = k \/ x ∈ map_keys m.
Proof.
  rewrite map_keys_set. destruct (map_has k m) eqn:E.
  - split; [auto|]. intros [->|H]; [|exact H].
    unfold map_has in E. destruct (map_get k m) eqn:G; [|discriminate].
    eapply map_get_In_keys, G.
  - rewrite elem_of_app, list_elem_of_singleton. tauto.
Qed.

Lemma map_delete_set_fresh {V} (k : string) (v : V) (m : jsmap V) :
  k ∉ map_keys m -> map_delete k (map_set k v m) = m.
Proof.
  induction m as [|[k' v'] m IH]; simpl; intros H.
  - now rewrite String.eqb_refl.
  - apply not_elem_of_cons in H as [Hne H].
    destruct (String.eqb_spec k k'); [congruence|]. simpl.
    destruct (String.eqb_spec k k'); [congruence|]. now rewrite IH.
Qed.

Lemma closed_rel_refl s : closed_rel s s.
Proof. now intros H. Qed.

Lemma closed_rel_trans s1 s2 s3 : closed_rel s1 s2 -> closed_rel s2 s3 -> closed_rel s1 s3.
Proof. unfold closed_rel. auto. Qed.

Lemma closed_rel_same s s' : same_registry s s' -> closed_rel s s'.
Proof.
  intros (E1 & E2 & E3 & E4 & E5) H k. rewrite E1, E2, E3, E4, E5. apply H.
Qed.

Lemma closed_rel_cleanupMonitor monitorId s : closed_rel s (cleanupMonitor monitorId s).
Proof.
  intros H k. destruct (cleanupMonitor_fields monitorId s)
    as (_ & -> & -> & -> & -> & -> & _).
  intros Hk.
  assert (Hk' : k <> monitorId
                /\ (k ∈ map_keys (monitorStartTimes s) \/ k ∈ map_keys (monitorPaths s)
                    \/ k ∈ map_keys (monitorOptions s) \/ k ∈ map_keys (monitorMethods s))).
  { destruct Hk as [Hk|[Hk|[Hk|Hk]]]; apply map_keys_delete in Hk as [? ?]; auto. }
  destruct Hk' as [Hne Hk']. apply map_keys_delete_back; auto.
Qed.

Lemma closed_rel_cleanup_all ks s : closed_rel s (cleanup_all ks s).
Proof.
  revert s. induction ks as [|k ks IH]; intros s; [apply closed_rel_refl|].
  simpl. eapply closed_rel_trans; [apply closed_rel_cleanupMonitor|apply IH].
Qed.

Section ClosedProofs.
Context {rt : JsRuntime}.

Lemma closed_rel_on_event s e : closed_rel s (on_event s e).
Proof.
  assert (Hd : e = EvClose \/ e <> EvClose) by (destruct e; auto; right; discriminate).
  destruct Hd as [->|Hne].
  - apply closed_rel_cleanup_all.
  - apply closed_rel_same. now apply on_event_same_registry.
Qed.

Lemma closed_rel_on_events evs s : closed_rel s (on_events s evs).
Proof.
  revert s. induction evs as [|e evs IH]; intros s; [apply closed_rel_refl|].
  simpl. eapply closed_rel_trans; [apply closed_rel_on_event|apply IH].
Qed.

Lemma wait_arm_same_registry monitorId timeout controller s :
  same_registry s (snd (wait_arm monitorId timeout controller s)).
Proof.
  unfold wait_arm. cbv zeta. simpl.
  destruct (negb (MonitorOptions.oneTime (options_of s monitorId))); repeat split.
Qed.

Lemma closed_rel_waitForResponse monitorId timeout now0 during now1 after s :
  closed_rel s (snd (waitForResponse monitorId timeout now0 during now1 after s)).
Proof.
  unfold waitForResponse.
  destruct (map_get monitorId (monitorPromises s)) as [controller|];
    [|apply closed_rel_refl].
  pose proof (closed_rel_same _ _ (wait_arm_same_registry monitorId timeout controller s))
    as H1.
  destruct (wait_arm monitorId timeout controller s) as [[src tid] s1]. simpl in H1.
  destruct (await_race_prefix src tid timeout during s1) as (evs1 & evs2 & _ & H2).
  destruct (await_race src tid timeout during s1) as [[o|] s2]; simpl in H2; subst s2.
  - unfold wait_finish. destruct o as [response|error]; simpl.
    + destruct (decode_response response). simpl.
      eapply closed_rel_trans; [exact H1|].
      eapply closed_rel_trans; [apply closed_rel_on_events|].
      eapply closed_rel_trans; [apply closed_rel_on_events|apply closed_rel_cleanupMonitor].
    + eapply closed_rel_trans; [exact H1|].
      eapply closed_rel_trans; [apply closed_rel_on_events|apply closed_rel_cleanupMonitor].
  - simpl. eapply closed_rel_trans; [exact H1|apply closed_rel_on_events].
Qed.

Lemma closed_rel_register monitorId path methodName opts now s :
  closed_rel s (register monitorId path methodName opts now s).
Proof.
  intros H k.
  destruct (register_fields monitorId path methodName opts now s)
    as (-> & -> & -> & -> & -> & _).
  rewrite !map_keys_set_iff. intros Hk.
  assert (Hk' : k = monitorId
                \/ (k ∈ map_keys (monitorStartTimes s) \/ k ∈ map_keys (monitorPaths s)
                    \/ k ∈ map_keys (monitorOptions s)
                    \/ k ∈ map_keys (monitorMethods s))).
  { destruct path, methodName; rewrite ?map_keys_set_iff in Hk; tauto. }
  destruct Hk' as [->|Hk']; auto.
Qed.

Lemma closed_rel_start_waiter (b : bool) cl s :
  closed_rel s (if b then snd (arm_waiter cl s) else s).
Proof. destruct b; [|apply closed_rel_refl]. apply closed_rel_same. repeat split. Qed.

Lemma closed_rel_step s op : closed_rel s (step s op).
Proof.
  destruct op; simpl.
  - apply closed_rel_register.
  - eapply closed_rel_trans; [apply closed_rel_register|apply closed_rel_start_waiter].
  - eapply closed_rel_trans; [apply closed_rel_register|apply closed_rel_start_waiter].
  - eapply closed_rel_trans; [apply closed_rel_register|apply closed_rel_start_waiter].
  - apply closed_rel_waitForResponse.
  - unfold cancelMonitor. destruct (map_has _ _);
      [apply closed_rel_cleanupMonitor|apply closed_rel_refl].
  - apply closed_rel_cleanup_all.
  - apply closed_rel_same. unfold clearTrafficData.
    destruct (truthy_str monitorId); repeat split.
  - apply closed_rel_on_event.
Qed.

Lemma registry_closed_run ops : registry_closed (run ops).
Proof.
  unfold run.
  assert (H : forall s, closed_rel s (fold_left step ops s)).
  { induction ops as [|op ops IH]; intros s; [apply closed_rel_refl|].
    simpl. eapply closed_rel_trans; [apply closed_rel_step|apply IH]. }
  apply H. intros k. simpl. intros [Hk|[Hk|[Hk|Hk]]]; exact Hk.
Qed.

Lemma unregistered_everywhere ops monitorId :
  map_has monitorId (monitorPromises (run ops)) = false ->
  (monitorId ∉ map_keys (monitorPromises (run ops)))
  /\ (monitorId ∉ map_keys (monitorStartTimes (run ops)))
  /\ (monitorId ∉ map_keys (monitorPaths (run ops)))
  /\ (monitorId ∉ map_keys (monitorOptions (run ops)))
  /\ (monitorId ∉ map_keys (monitorMethods (run ops))).
Proof.
  intros H. apply map_has_In_keys in H. pose proof (registry_closed_run ops monitorId) as Hc.
  repeat split; try exact H; intros Hk; apply H, Hc; auto.
Qed.

End ClosedProofs.

Section CancelClaims.
Context {rt : JsRuntime}.

(** X8. [cancelMonitor(monitorId)] does nothing for an identifier that is
    not registered.  For a registered one it removes the identifier
    from the registry, so that one monitor less is active, and disarms
    its timer; it settles no promise (the controller objects are as
    before, so whoever awaits the cancelled monitor's promise is not
    woken), keeps the captured traffic, and leaves the monitors under
    other identifiers as they are. *)
Theorem cancelMonitor_removes_one (ops : list Op) (monitorId : string) :
  let s := run ops in
  let s' := cancelMonitor monitorId s in
  (map_has monitorId (monitorPromises s) = false -> s' = s)
  /\ (map_has monitorId (monitorPromises s) = true ->
      S (getActiveMonitorsCount s') = getActiveMonitorsCount s
      /\ forall tid, monitor_timer monitorId s = Some tid -> not_armed (timers s' !! tid))
  /\ map_has monitorId (monitorPromises s') = false
  /\ controllers s' = controllers s
  /\ capturedRequests s' = capturedRequests s
  /\ capturedResponses s' = capturedResponses s
  /\ (forall other, other <> monitorId ->
        map_get other (monitorPromises s') = map_get other (monitorPromises s)
        /\ map_get other (monitorStartTimes s') = map_get other (monitorStartTimes s)
        /\ map_get other (monitorPaths s') = map_get other (monitorPaths s)
        /\ map_get other (monitorOptions s') = map_get other (monitorOptions s)
        /\ map_get other (monitorMethods s') = map_get other (monitorMethods s)).
Proof.
  cbv zeta. unfold cancelMonitor.
  destruct (map_has monitorId (monitorPromises (run ops))) eqn:Hhas.
  - destruct (cleanupMonitor_fields monitorId (run ops))
      as (Hc & Hp & Hs & Hpa & Ho & Hm & _).
    destruct (cleanupMonitor_traffic monitorId (run ops)) as [Hq Hr].
    split; [discriminate|]. split; [intros _; split|].
    + unfold getActiveMonitorsCount. rewrite Hp.
      unfold map_has in Hhas.
      destruct (map_get monitorId (monitorPromises (run ops))) as [a|] eqn:Hg;
        [|discriminate].
      eapply map_size_delete; [apply (wf_run ops)|exact Hg].
    + intros tid Ht. now apply cleanupMonitor_clears.
    + split; [apply cleanupMonitor_absent|]. split; [exact Hc|].
      split; [exact Hq|]. split; [exact Hr|].
      intros other Hne. rewrite Hp, Hs, Hpa, Ho, Hm.
      repeat split; apply map_get_delete_ne; congruence.
  - split; [reflexivity|]. split; [discriminate|]. repeat split; try exact Hhas.
Qed.

(** X9. Starting a monitor under an identifier that is not registered and
    cancelling it again gives the registry back as it was: the five
    bookkeeping maps are those from before the start, entry by entry
    and in the same order; the timer the start has armed is disarmed,
    and every controller that existed is untouched. *)
Theorem start_then_cancel_restores_registry (ops : list Op)
    (path method monitorId : string) (options : MonitorOptions.arg) (now : Z) :
  map_has monitorId (monitorPromises (run ops)) = false ->
  let s := run ops in
  let s' := cancelMonitor monitorId
              (snd (startMonitoringSpecificPath path method monitorId options now s)) in
  same_registry s s'
  /\ getActiveMonitorIds s' = getActiveMonitorIds s
  /\ (forall tid, (length (timers s) <= tid)%nat -> not_armed (timers s' !! tid))
  /\ (forall a c, controllers s !! a = Some c -> controllers s' !! a = Some c).
Proof.
  intros Hfresh. cbv zeta.
  destruct (unregistered_everywhere ops monitorId Hfresh) as (Kp & Ks & Kpa & Ko & Km).
  unfold startMonitoringSpecificPath. cbv zeta. cbn [snd].
  set (o := MonitorOptions.spread defaultOptions options).
  destruct (register_fields monitorId (Some path) None o now (run ops))
    as (Hp & Hs & Hpa & Ho & Hm & _ & _ & _ & Hold & tid & Hnew & Htid).
  set (s1 := register monitorId (Some path) None o now (run ops)) in *.
  set (s2 := if MonitorOptions.oneTime o
             then snd (arm_waiter (PathWaiter monitorId path method o) s1) else s1).
  assert (E : controllers s2 = controllers s1 /\ monitorPromises s2 = monitorPromises s1
              /\ monitorStartTimes s2 = monitorStartTimes s1
              /\ monitorPaths s2 = monitorPaths s1 /\ monitorOptions s2 = monitorOptions s1
              /\ monitorMethods s2 = monitorMethods s1 /\ timers s2 = timers s1).
  { unfold s2. destruct (MonitorOptions.oneTime o); repeat split. }
  destruct E as (Ec & Ep & Es & Epa & Eo & Em & Et).
  assert (Hhas : map_has monitorId (monitorPromises s2) = true).
  { rewrite Ep, Hp, map_has_set, String.eqb_refl. reflexivity. }
  unfold cancelMonitor. rewrite Hhas.
  destruct (cleanupMonitor_fields monitorId s2)
    as (Cc & Cp & Cs & Cpa & Co & Cm & _ & Ct).
  assert (Hreg : same_registry (run ops) (cleanupMonitor monitorId s2)).
  { unfold same_registry. rewrite Cp, Cs, Cpa, Co, Cm, Ep, Es, Epa, Eo, Em, Hp, Hs, Hpa, Ho, Hm.
    rewrite !map_delete_set_fresh by assumption.
    repeat split. now apply map_delete_absent. }
  split; [exact Hreg|]. split.
  { unfold getActiveMonitorIds. now destruct Hreg as (-> & _). }
  split.
  - intros t Hle.
    assert (Hmt : monitor_timer monitorId s2 = tid).
    { unfold monitor_timer. rewrite Ep, Hp, map_get_set, String.eqb_refl, Ec, Hnew.
      reflexivity. }
    rewrite Ct, Hmt. destruct tid as [t0|].
    + destruct Htid as (_ & -> & Htimers).
      destruct (Nat.eq_dec t (length (timers (run ops)))) as [->|Hne].
      * apply clearTimeout_not_armed.
      * rewrite clearTimeout_other by congruence. rewrite Et, Htimers.
        rewrite lookup_ge_None_2; [discriminate|]. rewrite length_app. simpl. lia.
    + destruct Htid as (_ & Htimers). rewrite Et, Htimers.
      rewrite lookup_ge_None_2; [discriminate|exact Hle].
  - intros a c H. rewrite Cc, Ec. now apply Hold.
Qed.


End CancelClaims.

(** ** Clearing the logs *)

Lemma map_get_map_clear {V} (k : string) (m : jsmap (list V)) :
  default [] (map_get k (map (fun kv : string * list V => (fst kv, @nil V)) m)) = [].
Proof.
  unfold map_get. induction m as [|[k' v] m IH]; simpl; [reflexivity|].
  now destruct (String.eqb k k').
Qed.

(** X11. [clearTrafficData(monitorId)] empties both logs of [monitorId] and
    no other log; called without an identifier, or with the empty
    string, it empties every log, the one of all traffic included.  In
    both cases the registry, the controllers and the timers are as
    before: the monitors stay active. *)
Theorem clearTrafficData_empties_logs (s : ApiMonitor) (monitorId : option string) :
  let s' := clearTrafficData monitorId s in
  same_registry s s'
  /\ controllers s' = controllers s
  /\ timers s' = timers s
  /\ (truthy_str monitorId = false ->
      getAllTraffic s' = ([], [])
      /\ forall other, getMonitorTraffic other s' = ([], []))
  /\ (forall m, monitorId = Some m -> m <> "" ->
      getMonitorTraffic m s' = ([], [])
      /\ forall other, other <> m -> getMonitorTraffic other s' = getMonitorTraffic other s).
Proof.
  cbv zeta. unfold clearTrafficData.
  split; [destruct (truthy_str monitorId); repeat split|].
  split; [now destruct (truthy_str monitorId)|].
  split; [now destruct (truthy_str monitorId)|].
  split.
  - intros ->. unfold getAllTraffic, getMonitorTraffic. simpl.
    split; [|intros other]; now rewrite !map_get_map_clear.
  - intros m -> Hne. apply nonempty_true in Hne. simpl. rewrite Hne.
    unfold getMonitorTraffic. simpl. rewrite !map_get_set, String.eqb_refl.
    split; [reflexivity|]. intros other Ho. rewrite !map_get_set.
    destruct (String.eqb_spec other m); [contradiction|reflexivity].
Qed.

(** ** The verdicts of the two response handlers *)

Section VerdictProofs.
Context {rt : JsRuntime}.

Lemma non201_errorMessage_nonempty what apiResult :
  nonempty what = true -> nonempty (non201_errorMessage what apiResult) = true.
Proof.
  intros H. unfold non201_errorMessage. cbv zeta.
  match goal with
  | |- nonempty (if nonempty ?e then _ else _) = true => destruct (nonempty e) eqn:E
  end; [exact E|]. now apply nonempty_append_l.
Qed.

Lemma embedded_error_nonempty apiResult dataStr :
  embedded_error apiResult = Some dataStr -> nonempty dataStr = true.
Proof.
  unfold embedded_error. cbv zeta.
  destruct (truthy (ApiResponseResult.data apiResult)
            && typeof_object (ApiResponseResult.data apiResult)); [|discriminate].
  destruct (includes (JSON_stringify (ApiResponseResult.data apiResult)) "error") eqn:E1.
  - simpl. intros H. injection H as <-. eapply includes_nonempty; [exact E1|reflexivity].
  - destruct (includes (JSON_stringify (ApiResponseResult.data apiResult)) "Error") eqn:E2;
      simpl; [|discriminate].
    intros H. injection H as <-. eapply includes_nonempty; [exact E2|reflexivity].
Qed.

Lemma embedded_error_spec apiResult :
  match embedded_error apiResult with Some _ => true | None => false end
  = truthy (ApiResponseResult.data apiResult)
    && typeof_object (ApiResponseResult.data apiResult)
    && (includes (JSON_stringify (ApiResponseResult.data apiResult)) "error"
        || includes (JSON_stringify (ApiResponseResult.data apiResult)) "Error").
Proof.
  unfold embedded_error. cbv zeta.
  destruct (truthy _ && typeof_object _); simpl; [|reflexivity].
  now destruct (includes _ "error" || includes _ "Error").
Qed.

(** The record [recordApiResponse] stores. *)
Lemma recordApiResponse_fields result apiResult key endpoint now :
  let r' := recordApiResponse result apiResult key endpoint now in
  BridgeOperationOutput.success r' = BridgeOperationOutput.success result
  /\ BridgeOperationOutput.transactionHash r' = BridgeOperationOutput.transactionHash result
  /\ BridgeOperationOutput.error r' = BridgeOperationOutput.error result
  /\ BridgeOperationOutput.testProgress r' = BridgeOperationOutput.testProgress result
  /\ BridgeOperationOutput.routePass r' = BridgeOperationOutput.routePass result
  /\ BridgeOperationOutput.preview r' = BridgeOperationOutput.preview result
  /\ BridgeOperationOutput.timing r' = BridgeOperationOutput.timing result
  /\ BridgeOperationOutput.screenshots r' = BridgeOperationOutput.screenshots result
  /\ exists responses,
       BridgeOperationOutput.apiResponses r' = Some responses
       /\ (exists record, map_get key responses = Some record
                          /\ ApiResponseRecord.endpoint record = endpoint
                          /\ ApiResponseRecord.status record
                             = default 0 (ApiResponseResult.status apiResult)
                          /\ ApiResponseRecord.success record
                             = ApiResponseResult.success apiResult
                          /\ ApiResponseRecord.timestamp record = now)
       /\ forall other, other <> key ->
            map_get other responses
            = map_get other (default [] (BridgeOperationOutput.apiResponses result)).
Proof.
  cbv zeta. unfold recordApiResponse. cbv zeta. simpl. repeat split.
  eexists. split; [reflexivity|]. split.
  - eexists. rewrite map_get_set, String.eqb_refl. split; [reflexivity|]. repeat split.
  - intros other Hne. rewrite map_get_set.
    destruct (String.eqb_spec other key); [contradiction|reflexivity].
Qed.

(** X12. [handleRouteApiResponse] asks to abort exactly when the status is
    not 201 or the body is an object whose JSON text contains
    ["error"] or ["Error"].  Whatever the response, it records it under
    ["route"] and sets [testProgress] to [routeTested]; [routePass]
    becomes the negation of the verdict; an abort always comes with a
    non-empty error message, and a pass leaves [error] alone.  It never
    touches [success], the hash, the preview, the timing or the
    screenshots. *)
Theorem handleRouteApiResponse_verdict (result : BridgeOperationOutput.t)
    (apiResult : ApiResponseResult.t) (now : Z) :
  let abort := fst (handleRouteApiResponse result apiResult now) in
  let r' := snd (handleRouteApiResponse result apiResult now) in
  abort
  = negb (status_is 201 apiResult)
    || truthy (ApiResponseResult.data apiResult)
       && typeof_object (ApiResponseResult.data apiResult)
       && (includes (JSON_stringify (ApiResponseResult.data apiResult)) "error"
           || includes (JSON_stringify (ApiResponseResult.data apiResult)) "Error")
  /\ BridgeOperationOutput.testProgress r' = Some routeTested
  /\ BridgeOperationOutput.routePass r' = Some (negb abort)
  /\ (if abort
      then exists msg, BridgeOperationOutput.error r' = Some msg /\ nonempty msg = true
      else BridgeOperationOutput.error r' = BridgeOperationOutput.error result)
  /\ BridgeOperationOutput.success r' = BridgeOperationOutput.success result
  /\ BridgeOperationOutput.transactionHash r' = BridgeOperationOutput.transactionHash result
  /\ BridgeOperationOutput.preview r' = BridgeOperationOutput.preview result
  /\ BridgeOperationOutput.timing r' = BridgeOperationOutput.timing result
  /\ BridgeOperationOutput.screenshots r' = BridgeOperationOutput.screenshots result
  /\ exists responses record,
       BridgeOperationOutput.apiResponses r' = Some responses
       /\ map_get "route" responses = Some record
       /\ ApiResponseRecord.endpoint record = "/v2/fungible/route"
       /\ ApiResponseRecord.status record = default 0 (ApiResponseResult.status apiResult)
       /\ ApiResponseRecord.timestamp record = now.
Proof.
  cbv zeta.
  destruct (recordApiResponse_fields result apiResult "route" "/v2/fungible/route" now)
    as (Fs & Fh & Fe & _ & _ & Fp & Ft & Fsc & responses & Fa & (record & Fr & F1 & F2 & _ & F4)
        & _).
  rewrite <- Fs, <- Fh, <- Fe, <- Fp, <- Ft, <- Fsc, <- embedded_error_spec.
  destruct (status_is 201 apiResult) eqn:H201.
  - rewrite handleRouteApiResponse_201 by exact H201.
    destruct (embedded_error apiResult) as [dataStr|] eqn:He; simpl.
    + repeat split; eauto using embedded_error_nonempty.
      exists responses, record. auto.
    + repeat split. exists responses, record. auto.
  - rewrite handleRouteApiResponse_non201 by exact H201. simpl. repeat split.
    + eexists. split; [reflexivity|].
      destruct (hasNoRoutesFoundError apiResult); [reflexivity|].
      now apply non201_errorMessage_nonempty.
    + exists responses, record. auto.
Qed.

(** X13. A failure with a status other than 404 is not the "no routes
    found" case, whatever its body says: when the monitor has captured
    the response ([success] is true) and the body is an object, the
    error recorded is the body's JSON text. *)
Theorem only_404_is_no_routes_found (result : BridgeOperationOutput.t)
    (apiResult : ApiResponseResult.t) (now : Z) (fields : list (string * json)) :
  ApiResponseResult.success apiResult = true ->
  status_is 404 apiResult = false ->
  status_is 201 apiResult = false ->
  ApiResponseResult.data apiResult = JObj fields ->
  hasNoRoutesFoundError apiResult = false
  /\ handleRouteApiResponse result apiResult now
     = (true,
        BridgeOperationOutput.set_routePass (Some false)
          (BridgeOperationOutput.set_testProgress (Some routeTested)
             (BridgeOperationOutput.set_error (Some (JSON_stringify (JObj fields)))
                (recordApiResponse result apiResult "route" "/v2/fungible/route" now)))).
Proof.
  intros Hs H404 H201 Hd.
  assert (Hno : hasNoRoutesFoundError apiResult = false).
  { unfold hasNoRoutesFoundError. cbv zeta. now rewrite H404, Hs. }
  split; [exact Hno|].
  rewrite handleRouteApiResponse_non201 by exact H201. rewrite Hno.
  unfold non201_errorMessage. cbv zeta. rewrite Hd.
  cbn [truthy]. cbv iota.
  assert (Hne : nonempty (JSON_stringify (JObj fields)) = true) by reflexivity.
  now rewrite Hne.
Qed.

End VerdictProofs.

Section MsgsProofs.
Context {rt : JsRuntime}.

Lemma same_but_preview_refl r : same_but_preview r r.
Proof. repeat split. Qed.

Lemma same_but_preview_trans r1 r2 r3 :
  same_but_preview r1 r2 -> same_but_preview r2 r3 -> same_but_preview r1 r3.
Proof.
  intros (A1 & A2 & A3 & A4 & A5 & A6 & A7 & A8) (B1 & B2 & B3 & B4 & B5 & B6 & B7 & B8).
  repeat split; congruence.
Qed.

Lemma same_but_preview_field k v r : same_but_preview r (set_preview_field k v r).
Proof. repeat split. Qed.

Lemma same_but_preview_opt (o : option json) (f : json -> bool) k (g : json -> json) r :
  same_but_preview r
    match o with
    | Some x => if f x then set_preview_field k (g x) r else r
    | None => r
    end.
Proof.
  destruct o as [x|]; [|apply same_but_preview_refl].
  destruct (f x); [apply same_but_preview_field|apply same_but_preview_refl].
Qed.

Lemma extract_msgs_preview_frame data r : same_but_preview r (extract_msgs_preview data r).
Proof.
  unfold extract_msgs_preview. cbv zeta.
  set (r0 := BridgeOperationOutput.set_preview _ r).
  assert (H0 : same_but_preview r r0) by repeat split.
  set (r1 := match prop data "fee" with Some fee => _ | None => r0 end).
  assert (H1 : same_but_preview r0 r1).
  { unfold r1. destruct (prop data "fee") as [fee|]; [|apply same_but_preview_refl].
    destruct (truthy fee); [apply same_but_preview_field|apply same_but_preview_refl]. }
  set (r2 := match prop data "estimatedDuration" with Some d => _ | None => r1 end).
  assert (H2 : same_but_preview r1 r2).
  { unfold r2. destruct (prop data "estimatedDuration") as [d|];
      [|apply same_but_preview_refl].
    destruct (truthy d); [apply same_but_preview_field|apply same_but_preview_refl]. }
  assert (H : same_but_preview r r2)
    by (eapply same_but_preview_trans; [|exact H2];
        eapply same_but_preview_trans; [exact H0|exact H1]).
  clearbody r2. clear - H.
  destruct (prop data "txs") as [txs|]; [|exact H].
  destruct (truthy txs && length_positive txs); [|exact H].
  eapply same_but_preview_trans; [exact H|].
  set (ctx := chain (first_item txs) "cosmos_tx").
  eapply same_but_preview_trans;
    [|apply (same_but_preview_opt _ truthy "msgsCount" (fun n => n))].
  eapply same_but_preview_trans;
    [|apply (same_but_preview_opt _ truthy "signerAddress" (fun n => n))].
  eapply same_but_preview_trans;
    [apply (same_but_preview_opt (chain ctx "chain_id") truthy "chainId" (fun n => n))|].
  destruct (chain ctx "path") as [[]|];
    try apply same_but_preview_refl. apply same_but_preview_field.
Qed.

Lemma preview_shows_field k v k' v' r :
  k <> k' -> preview_shows k v r -> preview_shows k v (set_preview_field k' v' r).
Proof.
  intros Hne (pv & Hp & Hg). unfold set_preview_field. rewrite Hp. simpl.
  eexists. split; [reflexivity|]. rewrite map_get_set.
  destruct (String.eqb_spec k k'); [contradiction|exact Hg].
Qed.

Lemma preview_shows_opt k v (o : option json) (f : json -> bool) k' (g : json -> json) r :
  k <> k' -> preview_shows k v r ->
  preview_shows k v
    match o with
    | Some x => if f x then set_preview_field k' (g x) r else r
    | None => r
    end.
Proof.
  intros Hne H. destruct o as [x|]; [|exact H].
  destruct (f x); [now apply preview_shows_field|exact H].
Qed.

Lemma extract_msgs_preview_fee data r fee :
  prop data "fee" = Some fee -> truthy fee = true ->
  preview_shows "fee"
    (JStr (if typeof_object fee then JSON_stringify fee else to_String fee))
    (extract_msgs_preview data r).
Proof.
  intros Hf Ht. unfold extract_msgs_preview. cbv zeta. rewrite Hf, Ht.
  set (v := JStr (if typeof_object fee then JSON_stringify fee else to_String fee)).
  set (r1 := set_preview_field "fee" v _).
  assert (H1 : preview_shows "fee" v r1).
  { unfold r1, set_preview_field. simpl. eexists. split; [reflexivity|].
    now rewrite map_get_set. }
  clearbody r1.
  assert (H2 : preview_shows "fee" v
                 match prop data "estimatedDuration" with
                 | Some d =>
                     if truthy d
                     then set_preview_field "estimatedDuration" (JStr (to_String d)) r1
                     else r1
                 | None => r1
                 end).
  { apply (preview_shows_opt "fee" v _ truthy "estimatedDuration"
             (fun d => JStr (to_String d))); [discriminate|exact H1]. }
  match goal with
  | H : preview_shows "fee" v ?x |- context [?y] =>
      constr_eq x y; set (r2 := x) in *
  end.
  clearbody r2. clear - H2.
  destruct (prop data "txs") as [txs|]; [|exact H2].
  destruct (truthy txs && length_positive txs); [|exact H2].
  set (ctx := chain (first_item txs) "cosmos_tx").
  apply (preview_shows_opt "fee" v _ truthy "msgsCount" (fun n => n)); [discriminate|].
  apply (preview_shows_opt "fee" v _ truthy "signerAddress" (fun n => n)); [discriminate|].
  assert (H3 : preview_shows "fee" v
                 match chain ctx "chain_id" with
                 | Some chainId =>
                     if truthy chainId then set_preview_field "chainId" chainId r2 else r2
                 | None => r2
                 end).
  { apply (preview_shows_opt "fee" v _ truthy "chainId" (fun n => n));
      [discriminate|exact H2]. }
  destruct (chain ctx "path") as [[]|]; try exact H3.
  apply preview_shows_field; [discriminate|exact H3].
Qed.

(** X14. [handleMsgsApiResponse] asks to abort under the same condition as
    the route handler, and an abort always comes with a non-empty
    error message; but unlike the route handler it never sets
    [testProgress] or [routePass], nor [success], the hash, the timing
    or the screenshots.  It records the response under ["msgs"]; on an
    abort the preview is as before, and on a pass with a captured body
    that has a fee the preview shows it: the JSON text of an object,
    the string of anything else. *)
Theorem handleMsgsApiResponse_verdict (result : BridgeOperationOutput.t)
    (apiResult : ApiResponseResult.t) (now : Z) :
  let abort := fst (handleMsgsApiResponse result apiResult now) in
  let r' := snd (handleMsgsApiResponse result apiResult now) in
  abort
  = negb (status_is 201 apiResult)
    || truthy (ApiResponseResult.data apiResult)
       && typeof_object (ApiResponseResult.data apiResult)
       && (includes (JSON_stringify (ApiResponseResult.data apiResult)) "error"
           || includes (JSON_stringify (ApiResponseResult.data apiResult)) "Error")
  /\ (if abort
      then (exists msg, BridgeOperationOutput.error r' = Some msg /\ nonempty msg = true)
           /\ BridgeOperationOutput.preview r' = BridgeOperationOutput.preview result
      else BridgeOperationOutput.error r' = BridgeOperationOutput.error result)
  /\ BridgeOperationOutput.testProgress r' = BridgeOperationOutput.testProgress result
  /\ BridgeOperationOutput.routePass r' = BridgeOperationOutput.routePass result
  /\ BridgeOperationOutput.success r' = BridgeOperationOutput.success result
  /\ BridgeOperationOutput.transactionHash r' = BridgeOperationOutput.transactionHash result
  /\ BridgeOperationOutput.timing r' = BridgeOperationOutput.timing result
  /\ BridgeOperationOutput.screenshots r' = BridgeOperationOutput.screenshots result
  /\ (exists responses record,
        BridgeOperationOutput.apiResponses r' = Some responses
        /\ map_get "msgs" responses = Some record
        /\ ApiResponseRecord.endpoint record = "/v2/fungible/msgs"
        /\ ApiResponseRecord.status record = default 0 (ApiResponseResult.status apiResult)
        /\ ApiResponseRecord.timestamp record = now)
  /\ (abort = false ->
      forall fee,
        ApiResponseResult.success apiResult = true ->
        prop (ApiResponseResult.data apiResult) "fee" = Some fee ->
        truthy fee = true ->
        preview_shows "fee"
          (JStr (if typeof_object fee then JSON_stringify fee else to_String fee)) r').
Proof.
  cbv zeta.
  destruct (recordApiResponse_fields result apiResult "msgs" "/v2/fungible/msgs" now)
    as (Fs & Fh & Fe & Ftp & Frp & Fp & Ft & Fsc & responses & Fa
        & (record & Fr & F1 & F2 & _ & F4) & _).
  rewrite <- Fs, <- Fh, <- Fe, <- Ftp, <- Frp, <- Fp, <- Ft, <- Fsc, <- embedded_error_spec.
  set (r0 := recordApiResponse result apiResult "msgs" "/v2/fungible/msgs" now) in *.
  unfold handleMsgsApiResponse. cbv zeta. fold r0.
  destruct (status_is 201 apiResult) eqn:H201; simpl.
  - destruct (embedded_error apiResult) as [dataStr|] eqn:He; simpl.
    + repeat split; eauto using embedded_error_nonempty.
      * exists responses, record. auto.
      * discriminate.
    + destruct (ApiResponseResult.success apiResult
                && truthy (ApiResponseResult.data apiResult)) eqn:Hex; simpl.
      * destruct (extract_msgs_preview_frame (ApiResponseResult.data apiResult) r0)
          as (E1 & E2 & E3 & E4 & E5 & E6 & E7 & E8).
        rewrite E1, E2, E3, E4, E5, E6, E7, E8. repeat split.
        -- exists responses, record. auto.
        -- intros _ fee _ Hf Ht. now apply extract_msgs_preview_fee.
      * repeat split; [exists responses, record; auto|].
        intros _ fee Hs Hf Ht. rewrite Hs in Hex. simpl in Hex.
        rewrite (prop_Some_truthy _ _ _ Hf eq_refl) in Hex. discriminate.
  - repeat split.
    + eexists. split; [reflexivity|]. now apply non201_errorMessage_nonempty.
    + exists responses, record. auto.
    + discriminate.
Qed.

End MsgsProofs.

(** ** Runs that stop early *)

Lemma bind_ask_Ret {A B} (oracle : nat -> call -> outcome A) (c : call) (k : A -> M B)
    (r : BridgeOperationOutput.t) (cs : list call) (t : nat) (a : A) :
  oracle (length cs) c = Ret a ->
  bind (ask oracle c) k (mkPState r cs t) = k a (mkPState r (cs ++ [c])%list t).
Proof. intros H. unfold bind, ask, logged. simpl. now rewrite H. Qed.

Lemma bind_ask_Throw {A B} (oracle : nat -> call -> outcome A) (c : call) (k : A -> M B)
    (r : BridgeOperationOutput.t) (cs : list call) (t : nat) (e : JsError) :
  oracle (length cs) c = Throw e ->
  bind (ask oracle c) k (mkPState r cs t) = (mkPState r (cs ++ [c])%list t, Throw e).
Proof. intros H. unfold bind, ask, logged. simpl. now rewrite H. Qed.

Lemma bind_returns {A B} (m : M A) (k : A -> M B) (st st' : PState) (a : A) :
  m st = (st', Ret a) -> bind m k st = k a st'.
Proof. unfold bind. now intros ->. Qed.

Lemma try_catch_Throw {A} (m : M A) (h : JsError -> M A) (st st' : PState) (e : JsError) :
  m st = (st', Throw e) -> try_catch m h st = h e st'.
Proof. unfold try_catch. now intros ->. Qed.

Lemma finalize_status_routePass b p r :
  BridgeOperationOutput.routePass (finalize_status (Some (mkFinalize b p None)) r)
  = BridgeOperationOutput.routePass r.
Proof.
  unfold finalize_status.
  destruct (derivation_tail (apply_options (Some (mkFinalize b p None)) r))
    as (_ & _ & _ & -> & _).
  unfold apply_options. simpl. now destruct b, p.
Qed.

(** One step of a stage at the head of the goal [m st = _]; a call on a
    collaborator is answered by the hypotheses about the environment. *)
Ltac stage_by lemma := eapply eq_trans; [ apply lemma | ]; cbv beta zeta.

Ltac stage_norm :=
  cbn [initial_result app
       BridgeOperationOutput.success BridgeOperationOutput.transactionHash
       BridgeOperationOutput.error BridgeOperationOutput.testProgress
       BridgeOperationOutput.routePass BridgeOperationOutput.apiResponses
       BridgeOperationOutput.preview BridgeOperationOutput.timing
       BridgeOperationOutput.screenshots
       BridgeOperationOutput.set_success BridgeOperationOutput.set_transactionHash
       BridgeOperationOutput.set_error BridgeOperationOutput.set_testProgress
       BridgeOperationOutput.set_routePass BridgeOperationOutput.set_apiResponses
       BridgeOperationOutput.set_preview BridgeOperationOutput.set_timing
       BridgeOperationOutput.set_screenshots].

Ltac stage_if b :=
  lazymatch b with
  | true => cbv iota
  | false => cbv iota
  | _ =>
      let b' := eval vm_compute in b in
      lazymatch b' with
      | true => change b with true; cbv iota
      | false => change b with false; cbv iota
      end
  end.

Ltac stage_step :=
  lazymatch goal with
  | |- bind (bind _ _) _ _ = _ => stage_by @bind_assoc
  | |- bind (ret _) _ _ = _ => stage_by @bind_ret
  | |- bind (tell _) _ _ = _ => stage_by @bind_tell; cbn [app]
  | |- bind (update _) _ _ = _ => stage_by @bind_update; stage_norm
  | |- bind get_result _ _ = _ => stage_by @bind_get_result
  | |- bind (date_now _) _ _ = _ => stage_by @bind_date_now
  | |- bind (takeScreenshot _ _) _ _ = _ => stage_by @bind_takeScreenshot; cbn [app]
  | |- bind (ask (fun n c => Ret (env_api _ n c)) _) _ _ = _ =>
      stage_by @bind_ask_api; cbn [app]
  | |- bind (ask _ _) _ _ = _ =>
      eapply eq_trans; [ eapply bind_ask_Ret; solve [eauto] | ]; cbv beta zeta; cbn [app]
  | |- bind (push_screenshot _) _ _ = _ => unfold push_screenshot at 1
  | |- bind (set_error _) _ _ = _ => unfold set_error at 1
  | |- bind (set_progress _ _) _ _ = _ => unfold set_progress at 1
  | |- bind (set_preview_from_ui _) _ _ = _ => unfold set_preview_from_ui at 1
  | |- bind (setupWalletConnection _) _ _ = _ => unfold setupWalletConnection at 1
  | |- bind (setupBridgeTransaction _ _ _ _ _ _) _ _ = _ =>
      unfold setupBridgeTransaction at 1
  | |- bind (navigateToBridgeUI _) _ _ = _ => unfold navigateToBridgeUI at 1
  | |- bind (configure_side _ _ _ _) _ _ = _ => unfold configure_side at 1
  | |- bind (processAmountAndMonitorRoute _ _) _ _ = _ =>
      unfold processAmountAndMonitorRoute at 1
  | |- bind (checkUIStateForRouteValidity _) _ _ = _ =>
      unfold checkUIStateForRouteValidity at 1
  | |- bind (selectRouteAndGetPreview _ _ _) _ _ = _ =>
      unfold selectRouteAndGetPreview at 1
  | |- bind (previewAndSubmitRoute _ _) _ _ = _ => unfold previewAndSubmitRoute at 1
  | |- bind (handleSimulateRpcResponse _ _) _ _ = _ =>
      unfold handleSimulateRpcResponse at 1
  | |- bind (handleTransactionConfirmation _) _ _ = _ =>
      unfold handleTransactionConfirmation at 1
  | |- bind (if ?b then _ else _) _ _ = _ => stage_if b
  | |- (if ?b then _ else _) _ = _ => stage_if b
  | |- ret _ _ = (_, Ret _) => reflexivity
  | |- _ => progress cbv beta iota zeta
  end.

Section EarlyStops.
Context {rt : JsRuntime}.
Variable env : Env.
Variable taskId : string.

(** A run whose [try] block reaches [finalizeResult], with the fields
    the options leave alone. *)
Lemma finished_run_without_routePass amount fromChain fromToken toChain toToken routeType
    b p r1 cs1 t1 :
  performBridgeOperation_body env taskId amount fromChain fromToken toChain toToken
    routeType (mkPState (initial_result (env_clock env 0)) [] 1)
  = finalizeResult env (Some (mkFinalize (Some b) (Some p) None)) (mkPState r1 cs1 t1) ->
  exists st r,
    performBridgeOperation env taskId amount fromChain fromToken toChain toToken routeType
    = (st, Ret r)
    /\ calls st = cs1
    /\ BridgeOperationOutput.success r = Some b
    /\ BridgeOperationOutput.error r = BridgeOperationOutput.error r1
    /\ BridgeOperationOutput.testProgress r = Some p
    /\ BridgeOperationOutput.routePass r = BridgeOperationOutput.routePass r1.
Proof.
  intros Hrun.
  destruct (finalizeResult_spec env (Some (mkFinalize (Some b) (Some p) None))
              (mkPState r1 cs1 t1)) as (st & r & Hf & _ & Hc & t & Hr).
  exists st, r. split.
  { unfold performBridgeOperation, try_catch. cbv zeta. now rewrite Hrun, Hf. }
  split; [exact Hc|]. rewrite Hr.
  destruct (finalize_status_explicit b (Some p) None
              (BridgeOperationOutput.set_timing (Some t) r1)) as (Hs & Hp & _).
  destruct (finalize_status_fields (Some (mkFinalize (Some b) (Some p) None))
              (BridgeOperationOutput.set_timing (Some t) r1)) as (He & _).
  rewrite finalize_status_routePass.
  split; [exact Hs|]. split; [exact He|]. split; [now apply Hp|reflexivity].
Qed.

(** X15. When the wallet is not connected and connecting it does not help,
    the run stops in the first stage: the only calls are the opening
    screenshot, the cancellation of stale monitors, and the two checks
    around [connectWallet]; the wallet UI is not launched.  The result
    has the error ["Wallet connection failed"], [success = false],
    [testProgress = untested] and no [routePass]. *)
Theorem wallet_connection_failure_stops_the_run
    (amount fromChain fromToken toChain toToken routeType : string) :
  (forall n, env_bool env n VerifyWalletConnected = Ret false) ->
  (forall n, env_unit env n ConnectWallet = Ret tt) ->
  exists st r,
    performBridgeOperation env taskId amount fromChain fromToken toChain toToken routeType
    = (st, Ret r)
    /\ calls st = [PageScreenshot "bridge-operation-start"; CancelAllMonitors;
                   VerifyWalletConnected; ConnectWallet; VerifyWalletConnected]
    /\ BridgeOperationOutput.error r = Some "Wallet connection failed"
    /\ BridgeOperationOutput.success r = Some false
    /\ BridgeOperationOutput.testProgress r = Some untested
    /\ BridgeOperationOutput.routePass r = None.
Proof.
  intros Hverify Hconnect.
  evar (r1 : BridgeOperationOutput.t). evar (cs1 : list call). evar (t1 : nat).
  assert (Hrun :
    performBridgeOperation_body env taskId amount fromChain fromToken toChain toToken
      routeType (mkPState (initial_result (env_clock env 0)) [] 1)
    = finalizeResult env (Some (mkFinalize (Some false) (Some untested) None))
        (mkPState r1 cs1 t1)).
  { subst r1 cs1 t1. unfold performBridgeOperation_body.
    repeat stage_step. reflexivity. }
  destruct (finished_run_without_routePass _ _ _ _ _ _ _ _ _ _ _ Hrun)
    as (st & r & Hp & Hc & Hs & He & Ht & Hq).
  exists st, r. split; [exact Hp|]. split; [subst cs1; exact Hc|].
  split; [rewrite He; reflexivity|]. split; [exact Hs|].
  split; [exact Ht|]. rewrite Hq. reflexivity.
Qed.

(** X16. When the wallet is connected but the Bridge interface cannot be
    reached, the run stops in the second stage, before any monitor is
    started: the result has the error ["Unable to navigate to Bridge
    interface"], [success = false], [testProgress = untested] and no
    [routePass]. *)
Theorem navigation_failure_stops_the_run
    (amount fromChain fromToken toChain toToken routeType : string) :
  (forall n, env_bool env n VerifyWalletConnected = Ret true) ->
  (forall n, env_bool env n LaunchWalletUI = Ret true) ->
  (forall n, env_bool env n NavigateToBridgeUI = Ret false) ->
  exists st r,
    performBridgeOperation env taskId amount fromChain fromToken toChain toToken routeType
    = (st, Ret r)
    /\ calls st = [PageScreenshot "bridge-operation-start"; CancelAllMonitors;
                   VerifyWalletConnected; LaunchWalletUI; LaunchWalletUI;
                   NavigateToBridgeUI]
    /\ BridgeOperationOutput.error r = Some "Unable to navigate to Bridge interface"
    /\ BridgeOperationOutput.success r = Some false
    /\ BridgeOperationOutput.testProgress r = Some untested
    /\ BridgeOperationOutput.routePass r = None.
Proof.
  intros Hverify Hlaunch Hnavigate.
  evar (r1 : BridgeOperationOutput.t). evar (cs1 : list call). evar (t1 : nat).
  assert (Hrun :
    performBridgeOperation_body env taskId amount fromChain fromToken toChain toToken
      routeType (mkPState (initial_result (env_clock env 0)) [] 1)
    = finalizeResult env (Some (mkFinalize (Some false) (Some untested) None))
        (mkPState r1 cs1 t1)).
  { subst r1 cs1 t1. unfold performBridgeOperation_body.
    repeat stage_step. reflexivity. }
  destruct (finished_run_without_routePass _ _ _ _ _ _ _ _ _ _ _ Hrun)
    as (st & r & Hp & Hc & Hs & He & Ht & Hq).
  exists st, r. split; [exact Hp|]. split; [subst cs1; exact Hc|].
  split; [rewrite He; reflexivity|]. split; [exact Hs|].
  split; [exact Ht|]. rewrite Hq. reflexivity.
Qed.

End EarlyStops.

(** ** Stages that decide by the page *)

Section StageClaims.
Context {rt : JsRuntime}.
Variable env : Env.

(** X17. [checkUIStateForRouteValidity], the fallback when no route
    response was captured, lets the route pass exactly when the preview
    shows no error and the Preview Route button is found and enabled.
    In every case it sets [testProgress] to [routeTested], [routePass]
    to its verdict and the preview to what the page shows; a failure
    records the page's error, or which of the two button checks failed;
    and the button is not looked for once the page shows an error. *)
Theorem ui_check_decides_the_route (uiInfo : jsmap string) (found enabled : bool)
    (r : BridgeOperationOutput.t) (cs : list call) (t : nat) :
  (forall n, env_ui env n GetBridgePreviewInfo = Ret uiInfo) ->
  (forall n, env_button env n EvaluatePreviewRouteButton = Ret (found, enabled)) ->
  let shown := truthy_str (map_get "error" uiInfo) in
  let ok := negb shown && found && enabled in
  exists st',
    checkUIStateForRouteValidity env (mkPState r cs t) = (st', Ret ok)
    /\ BridgeOperationOutput.testProgress (result st') = Some routeTested
    /\ BridgeOperationOutput.routePass (result st') = Some ok
    /\ BridgeOperationOutput.preview (result st') = Some (preview_of_ui uiInfo)
    /\ BridgeOperationOutput.error (result st')
       = (if shown then map_get "error" uiInfo
          else if negb found then Some "Preview Route button not found"
          else if negb enabled then Some "Preview Route button is disabled"
          else BridgeOperationOutput.error r)
    /\ BridgeOperationOutput.success (result st') = BridgeOperationOutput.success r
    /\ calls st'
       = (cs ++ [PageScreenshot "route-ui-check"; GetBridgePreviewInfo]
          ++ if shown then [] else [EvaluatePreviewRouteButton])%list.
Proof.
  intros Hui Hbutton. cbv zeta.
  destruct (truthy_str (map_get "error" uiInfo)) eqn:Herr; [|destruct found, enabled];
    (eexists; split;
     [ unfold checkUIStateForRouteValidity; repeat stage_step; rewrite Herr;
       repeat stage_step
     | cbn; rewrite <- !app_assoc; repeat split ]).
  destruct (map_get "error" uiInfo); [reflexivity|discriminate].
Qed.

(** X18. [handleTransactionConfirmation] with a disabled Approve button:
    it returns [false] with [success = false], [SignTested] and
    [routePass = true]; the error is ["Approve button is disabled"],
    followed by the page's error message when there is one; and it
    neither starts the broadcast monitor nor clicks anything. *)
Theorem disabled_approve_button_is_reported (fee reason : option string)
    (r : BridgeOperationOutput.t) (cs : list call) (t : nat) :
  (forall n, env_unit env n (WaitForTimeout 2000) = Ret tt) ->
  (forall n, env_str env n ExtractGasFeeInfo = Ret fee) ->
  (forall n, env_bool env n IsApproveButtonEnabled = Ret false) ->
  (forall n, env_str env n CheckForErrorMessage = Ret reason) ->
  exists st',
    handleTransactionConfirmation env (mkPState r cs t) = (st', Ret false)
    /\ BridgeOperationOutput.error (result st')
       = Some (if truthy_str reason
               then "Approve button is disabled, reason might be: " ++ default "" reason
               else "Approve button is disabled")
    /\ BridgeOperationOutput.success (result st') = Some false
    /\ BridgeOperationOutput.testProgress (result st') = Some SignTested
    /\ BridgeOperationOutput.routePass (result st') = Some true
    /\ calls st'
       = (cs ++ [WaitForTimeout 2000; ExtractGasFeeInfo; IsApproveButtonEnabled;
                 CheckForErrorMessage])%list.
Proof.
  intros Hwait Hfee Happrove Hreason.
  assert (Hgas : forall st,
            exists st0,
              try_catch
                (bind (ask (env_str env) ExtractGasFeeInfo)
                   (fun fee =>
                      match fee with
                      | Some f =>
                          if nonempty f then update (set_preview_field "gasfee" (JStr f))
                          else ret tt
                      | None => ret tt
                      end))
                (fun error =>
                   set_error ("Failed to extract Gas Fee information: " ++ message error))
                st = (st0, Ret tt)
              /\ same_but_preview (result st) (result st0)
              /\ calls st0 = (calls st ++ [ExtractGasFeeInfo])%list
              /\ ticks st0 = ticks st).
  { intros [r0 cs0 t0].
    destruct fee as [f|]; [destruct (nonempty f) eqn:Hf|];
      (eexists; split;
       [ apply try_catch_Ret; repeat stage_step; rewrite ?Hf; reflexivity
       | cbn; repeat split ]). }
  destruct (Hgas (mkPState r (cs ++ [WaitForTimeout 2000])%list t))
    as ([r0 cs0 t0] & Hg & Hsame & Hcalls & Hticks).
  simpl in Hcalls, Hticks, Hsame. subst cs0 t0.
  destruct (truthy_str reason) eqn:Hr;
    (eexists; split;
     [ unfold handleTransactionConfirmation; apply try_catch_Ret; repeat stage_step;
       (eapply eq_trans; [eapply bind_returns; exact Hg|]); cbv beta zeta;
       repeat stage_step; rewrite Hr; repeat stage_step
     | cbn; rewrite <- !app_assoc; repeat split ]).
Qed.

(** X19. No exception leaves [handleTransactionConfirmation]: whatever
    the page objects do, it returns.  When the click on the Approve
    button throws, it returns [false] with the error ["Transaction
    confirmation failed: "] followed by the exception's message; the
    stage has by then set [SignTested] and [routePass = true] and has
    started the broadcast monitor, on which it never waits. *)
Theorem confirmation_failure_is_caught_in_the_stage :
  (forall st, exists st' b, handleTransactionConfirmation env st = (st', Ret b))
  /\ forall (error : JsError) (fee : option string) (r : BridgeOperationOutput.t)
        (cs : list call) (t : nat),
      (forall n, env_unit env n (WaitForTimeout 2000) = Ret tt) ->
      (forall n, env_str env n ExtractGasFeeInfo = Ret fee) ->
      (forall n, env_bool env n IsApproveButtonEnabled = Ret true) ->
      (forall n, env_bool env n ClickApproveButton = Throw error) ->
      exists st',
        handleTransactionConfirmation env (mkPState r cs t) = (st', Ret false)
        /\ BridgeOperationOutput.error (result st')
           = Some ("Transaction confirmation failed: " ++ message error)
        /\ BridgeOperationOutput.testProgress (result st') = Some SignTested
        /\ BridgeOperationOutput.routePass (result st') = Some true
        /\ BridgeOperationOutput.success (result st') = BridgeOperationOutput.success r
        /\ calls st'
           = (cs ++ [WaitForTimeout 2000; ExtractGasFeeInfo; IsApproveButtonEnabled;
                     StartMonitoringBroadcastRPC "broadcast_tx_sync"
                       ("broadcast_monitor_" ++ num_to_string (env_clock env t))
                       broadcastOptions;
                     ClickApproveButton])%list.
Proof.
  split.
  - intros st. unfold handleTransactionConfirmation, try_catch.
    match goal with
    | |- context [match ?m st with _ => _ end] => destruct (m st) as [st1 [b|e]]
    end; [eauto|].
    eexists _, _. reflexivity.
  - intros error fee r cs t Hwait Hfee Happrove Hclick.
    destruct fee as [f|]; [destruct (nonempty f) eqn:Hf|];
      (eexists; split;
       [ unfold handleTransactionConfirmation;
         eapply eq_trans;
         [ eapply try_catch_Throw; repeat stage_step;
           (eapply eq_trans;
            [ eapply bind_try_catch_Ret; repeat stage_step; rewrite ?Hf; reflexivity | ]);
           cbv beta zeta; repeat stage_step;
           eapply bind_ask_Throw; eauto
         | repeat stage_step ]
       | cbn; rewrite <- !app_assoc; repeat split ]).
Qed.

End StageClaims.

(** ** Runs that reach the later stages *)

Lemma processBroadcastResponse_with_result (broadcastResult : ApiResponseResult.t)
    (r : json) :
  ApiResponseResult.success broadcastResult = true ->
  prop (ApiResponseResult.data broadcastResult) "result" = Some r ->
  truthy r = true ->
  processBroadcastResponse broadcastResult
  = if is_num (prop r "code") 0 then
      (true,
       match prop r "hash" with
       | Some hash => if truthy hash then Some hash else None
       | None => None
       end, None)
    else
      (false, None,
       Some ("Transaction failed (code=" ++ to_String_opt (prop r "code") ++ "): "
             ++ match prop r "log" with
                | Some l => if truthy l then to_String l else "Unknown error"
                | None => "Unknown error"
                end)).
Proof.
  intros Hsucc Hr Ht. unfold processBroadcastResponse.
  rewrite Hsucc, (prop_Some_truthy _ _ _ Hr eq_refl). simpl. rewrite Hr, Ht. cbv zeta.
  destruct (is_num (prop r "code") 0); [|reflexivity].
  destruct (prop r "hash") as [hash|]; [|reflexivity]. now destruct (truthy hash).
Qed.

Section LateStops.
Context {rt : JsRuntime}.
Variable env : Env.
Variable taskId : string.
Hypothesis Hcoop : cooperative env.

(** X20. When the page objects cooperate but none of the four waits comes
    back with a captured response, nothing stops the run: it goes
    through every stage and is reported as [success = true],
    [testProgress = SignTested], [routePass = true], with no error and
    no transaction hash. *)
Theorem uncaptured_run_reports_success
    (amount fromChain fromToken toChain toToken routeType : string) :
  (forall n monitorId timeout,
     ApiResponseResult.success (env_api env n (WaitForResponse monitorId timeout)) = false) ->
  exists st r,
    performBridgeOperation env taskId amount fromChain fromToken toChain toToken routeType
    = (st, Ret r)
    /\ calls st = complete_trace (env_clock env) amount fromChain fromToken toChain toToken
                    routeType
    /\ BridgeOperationOutput.success r = Some true
    /\ BridgeOperationOutput.testProgress r = Some SignTested
    /\ BridgeOperationOutput.routePass r = Some true
    /\ BridgeOperationOutput.error r = None
    /\ BridgeOperationOutput.transactionHash r = None.
Proof.
  intros Hnone. destruct Hcoop as (Hu & Hb & Hs & Hui & Hbtn).
  evar (r1 : BridgeOperationOutput.t). evar (cs1 : list call). evar (t1 : nat).
  assert (Hrun :
    performBridgeOperation_body env taskId amount fromChain fromToken toChain toToken
      routeType (mkPState (initial_result (env_clock env 0)) [] 1)
    = finalizeResult env (Some (mkFinalize (Some true) (Some SignTested) (Some true)))
        (mkPState r1 cs1 t1)).
  { subst r1 cs1 t1. unfold performBridgeOperation_body.
    repeat stage_step. rewrite Hnone. repeat stage_step.
    rewrite Hnone. repeat stage_step. rewrite Hnone. repeat stage_step.
    eapply eq_trans; [eapply bind_try_catch_Ret|].
    { repeat stage_step.
      eapply eq_trans; [eapply bind_try_catch_Ret; repeat stage_step|].
      cbv beta zeta. repeat stage_step. rewrite Hnone. repeat stage_step. }
    cbv beta zeta. repeat stage_step. reflexivity. }
  destruct (finished_run env taskId _ _ _ _ _ _ _ _ _ _ _ _ Hrun)
    as (st & r & Hp & Hc & Hsu & He & Hh & Ht & Hq).
  exists st, r. split; [exact Hp|]. split; [subst cs1; exact Hc|].
  split; [exact Hsu|]. split; [now apply Ht|]. split; [now apply Hq|].
  split; [rewrite He|rewrite Hh]; reflexivity.
Qed.

End LateStops.

(** ** The broadcast *)

Section BroadcastClaims.
Context {rt : JsRuntime}.
Variable env : Env.

(** X21. [handleTransactionConfirmation] with an enabled Approve button
    waits for the broadcast and follows [processBroadcastResponse]:
    when a response was captured, the stage returns its verdict and
    stores it in [success]; a confirmed transaction stores its hash, a
    rejected one stores the reason in [error] and leaves the hash
    alone.  When no response was captured the stage returns [true] and
    leaves [success], [error] and the hash as they were.  In every case
    [testProgress] is [SignTested] and [routePass] is [true]. *)
Theorem broadcast_verdict_is_recorded (fee : option string)
    (clicked handled confirmed : bool)
    (broadcastResult : ApiResponseResult.t)
    (r : BridgeOperationOutput.t) (cs : list call) (t : nat) :
  (forall n, env_unit env n (WaitForTimeout 2000) = Ret tt) ->
  (forall n, env_str env n ExtractGasFeeInfo = Ret fee) ->
  (forall n, env_bool env n IsApproveButtonEnabled = Ret true) ->
  (forall n, env_bool env n ClickApproveButton = Ret clicked) ->
  (forall n, env_bool env n HandlePossibleModals = Ret handled) ->
  (forall n, env_bool env n HandleKeplrConfirmation = Ret confirmed) ->
  (forall n monitorId timeout,
     env_api env n (WaitForResponse monitorId timeout) = broadcastResult) ->
  let captured := ApiResponseResult.success broadcastResult in
  let txSuccess := fst (fst (processBroadcastResponse broadcastResult)) in
  let txHash := snd (fst (processBroadcastResponse broadcastResult)) in
  let txError := snd (processBroadcastResponse broadcastResult) in
  exists st',
    handleTransactionConfirmation env (mkPState r cs t)
    = (st', Ret (negb captured || txSuccess))
    /\ BridgeOperationOutput.success (result st')
       = (if captured then Some txSuccess else BridgeOperationOutput.success r)
    /\ BridgeOperationOutput.transactionHash (result st')
       = (if captured && txSuccess
          then match txHash with
               | Some h => Some h
               | None => BridgeOperationOutput.transactionHash r
               end
          else BridgeOperationOutput.transactionHash r)
    /\ BridgeOperationOutput.error (result st')
       = (if captured && negb txSuccess then txError else BridgeOperationOutput.error r)
    /\ BridgeOperationOutput.testProgress (result st') = Some SignTested
    /\ BridgeOperationOutput.routePass (result st') = Some true.
Proof.
  intros Hwait Hfee Happrove Hclick Hmodal Hkeplr Hapi. cbv zeta.
  destruct (ApiResponseResult.success broadcastResult) eqn:Hcap;
    [destruct (processBroadcastResponse broadcastResult) as [[txSuccess txHash] txError]
       eqn:Htx; destruct txSuccess; [destruct txHash as [h|]|]|];
    destruct clicked; (destruct fee as [f|]; [destruct (nonempty f) eqn:Hf|]);
    (eexists; split;
     [ unfold handleTransactionConfirmation; apply try_catch_Ret; repeat stage_step;
       (eapply eq_trans;
        [ eapply bind_try_catch_Ret; repeat stage_step; rewrite ?Hf; reflexivity | ]);
       cbv beta zeta; repeat stage_step;
       rewrite Hapi, Hcap; repeat stage_step; rewrite ?Htx; repeat stage_step
     | cbn; repeat split ]).
Qed.

End BroadcastClaims.

(** ** The verdict of [finalizeResult] *)

Lemma derive_testProgress_success r :
  BridgeOperationOutput.success (derive_testProgress r) = BridgeOperationOutput.success r.
Proof.
  unfold derive_testProgress.
  destruct (BridgeOperationOutput.testProgress r); [reflexivity|].
  destruct (BridgeOperationOutput.error r) as [e|];
    [destruct (String.eqb e "Wallet connection failed"); [reflexivity|]|];
    destruct (BridgeOperationOutput.routePass r); reflexivity.
Qed.

Lemma default_success_success r :
  BridgeOperationOutput.success (default_success r)
  = Some match BridgeOperationOutput.success r with Some b => b | None => true end.
Proof.
  unfold default_success, undefined_success.
  now destruct r as [[b|] h e p q a pv tm sc].
Qed.

Lemma derivation_success r :
  BridgeOperationOutput.success
    (default_success (derive_testProgress (success_from_routePass (success_from_error r))))
  = Some match BridgeOperationOutput.success r with
         | Some b => b
         | None =>
             negb (error_truthy r)
             && negb match BridgeOperationOutput.routePass r with
                     | Some false => true
                     | _ => false
                     end
         end.
Proof.
  rewrite default_success_success, derive_testProgress_success.
  unfold success_from_routePass, success_from_error, undefined_success, error_truthy.
  destruct r as [s h e p q a pv tm sc].
  cbn [BridgeOperationOutput.error BridgeOperationOutput.success
       BridgeOperationOutput.routePass].
  generalize (truthy_str e) as shown. intros shown.
  destruct s as [[|]|], shown, q as [[|]|]; reflexivity.
Qed.

Lemma apply_options_success options r :
  BridgeOperationOutput.success (apply_options options r)
  = match match options with Some o => o_success o | None => None end with
    | Some b => Some b
    | None => BridgeOperationOutput.success r
    end.
Proof. unfold apply_options. destruct options as [[[b|] [p|] [q|]]|]; reflexivity. Qed.

Lemma apply_options_routePass options r :
  BridgeOperationOutput.routePass (apply_options options r)
  = match match options with Some o => o_routePass o | None => None end with
    | Some q => Some q
    | None => BridgeOperationOutput.routePass r
    end.
Proof. unfold apply_options. destruct options as [[[b|] [p|] [q|]]|]; reflexivity. Qed.

Section FinalizeClaims.
Context {rt : JsRuntime}.
Variable env : Env.

(** X22. [finalizeResult] always returns, calls no collaborator, and
    returns the record it stores.  The returned [success] is always
    defined: it is the one given in the options; failing that, the one
    the record already had; failing that, [false] when the record has
    an error or [routePass] ends up [false], and [true] otherwise.
    [error] and the transaction hash are not touched, and the timing
    has [duration = endTime - startTime]. *)
Theorem finalizeResult_decides_success (options : option FinalizeOptions) (st : PState) :
  let given f := match options with Some o => f o | None => None end in
  let routePass := match given o_routePass with
                   | Some q => Some q
                   | None => BridgeOperationOutput.routePass (result st)
                   end in
  exists st' r,
    finalizeResult env options st = (st', Ret r)
    /\ result st' = r
    /\ calls st' = calls st
    /\ BridgeOperationOutput.success r
       = Some (match given o_success with
               | Some b => b
               | None =>
                   match BridgeOperationOutput.success (result st) with
                   | Some b => b
                   | None =>
                       negb (error_truthy (result st))
                       && negb match routePass with Some false => true | _ => false end
                   end
               end)
    /\ BridgeOperationOutput.routePass r = routePass
    /\ BridgeOperationOutput.error r = BridgeOperationOutput.error (result st)
    /\ BridgeOperationOutput.transactionHash r
       = BridgeOperationOutput.transactionHash (result st)
    /\ exists t, BridgeOperationOutput.timing r = Some t
                 /\ Timing.duration t = Timing.endTime t - Timing.startTime t.
Proof.
  cbv zeta.
  destruct (finalizeResult_spec env options st)
    as (st' & r & Hf & (Hres & t & Ht & _ & Hd) & Hc & t0 & Hr).
  exists st', r. split; [exact Hf|]. split; [exact Hres|]. split; [exact Hc|].
  assert (Hfields := finalize_status_fields options
                       (BridgeOperationOutput.set_timing (Some t0) (result st))).
  rewrite <- Hr in Hfields. destruct Hfields as (He & _ & Hh).
  split; [|split; [|split; [rewrite He; reflexivity|split; [rewrite Hh; reflexivity|eauto]]]].
  - rewrite Hr. unfold finalize_status. rewrite derivation_success.
    unfold error_truthy.
    destruct (apply_options_fields options
                (BridgeOperationOutput.set_timing (Some t0) (result st))) as (-> & _).
    rewrite apply_options_success, apply_options_routePass. simpl.
    destruct options as [[[b|] x y]|]; reflexivity.
  - rewrite Hr. unfold finalize_status.
    destruct (derivation_tail (apply_options options
                (BridgeOperationOutput.set_timing (Some t0) (result st))))
      as (_ & _ & _ & -> & _).
    rewrite apply_options_routePass. reflexivity.
Qed.

End FinalizeClaims.

(** ** The simulation *)

Section SimulateClaims.
Context {rt : JsRuntime}.
Variable env : Env.

(** X23. [handleSimulateRpcResponse] records the response under
    ["simulate"], with the status and the success flag of the wait and
    the time of the call, whatever its verdict.  When it reports a
    failure, [error] is ["Transaction simulation failed: "] followed
    by a reason; otherwise [error] is left alone; and a response
    without data is never a failure.  The handler calls no
    collaborator and never touches [success], [testProgress],
    [routePass] or the hash: the stage that calls it sets them. *)
Theorem handleSimulateRpcResponse_verdict (rpcResult : ApiResponseResult.t)
    (r : BridgeOperationOutput.t) (cs : list call) (t : nat) :
  exists st' failed,
    handleSimulateRpcResponse env rpcResult (mkPState r cs t) = (st', Ret failed)
    /\ calls st' = cs
    /\ (exists responses record,
          BridgeOperationOutput.apiResponses (result st') = Some responses
          /\ map_get "simulate" responses = Some record
          /\ ApiResponseRecord.status record
             = default 0 (ApiResponseResult.status rpcResult)
          /\ ApiResponseRecord.success record = ApiResponseResult.success rpcResult
          /\ ApiResponseRecord.timestamp record = env_clock env t)
    /\ (if failed
        then exists reason,
               BridgeOperationOutput.error (result st')
               = Some ("Transaction simulation failed: " ++ reason)
        else BridgeOperationOutput.error (result st') = BridgeOperationOutput.error r)
    /\ (truthy (ApiResponseResult.data rpcResult) = false -> failed = false)
    /\ BridgeOperationOutput.success (result st') = BridgeOperationOutput.success r
    /\ BridgeOperationOutput.testProgress (result st')
       = BridgeOperationOutput.testProgress r
    /\ BridgeOperationOutput.routePass (result st') = BridgeOperationOutput.routePass r
    /\ BridgeOperationOutput.transactionHash (result st')
       = BridgeOperationOutput.transactionHash r.
Proof.
  assert (Hrecord : forall v (m : jsmap ApiResponseRecord.t),
            map_get "simulate" (map_set "simulate" v m) = Some v).
  { intros v m. now rewrite map_get_set, String.eqb_refl. }
  destruct (truthy (ApiResponseResult.data rpcResult)) eqn:Hdata;
    [destruct (truthy_opt (prop (ApiResponseResult.data rpcResult) "error")) eqn:Herr;
     [|destruct (simulate_error (simulateResult_of (ApiResponseResult.data rpcResult)))
         as [errorMessage|] eqn:Hsim]|];
    (eexists _, _; split;
     [ unfold handleSimulateRpcResponse; repeat stage_step;
       rewrite ?Hdata, ?Herr, ?Hsim; repeat stage_step; reflexivity
     | cbn [result calls]; stage_norm;
       split; [reflexivity|];
       split; [eexists _, _; split; [reflexivity|]; split; [apply Hrecord|];
               repeat split|];
       split; [try (eexists; reflexivity); reflexivity|];
       split; [try discriminate; reflexivity|];
       repeat split ]).
Qed.

End SimulateClaims.

(** ** Screenshot files *)

Lemma prefix_app_r (sub s b : string) :
  String.prefix sub s = true -> String.prefix sub (s ++ b) = true.
Proof.
  revert s. induction sub as [|c sub IH]; intros s H;
    [destruct s; [destruct b|]; reflexivity|].
  destruct s as [|d s]; [discriminate|]. simpl in *.
  destruct (ascii_dec c d); [now apply IH|discriminate].
Qed.

Lemma includes_app_r (s b sub : string) :
  includes s sub = true -> includes (s ++ b) sub = true.
Proof.
  induction s as [|c s IH]; intros H.
  - simpl in H. rewrite orb_false_r in H. destruct sub; [|discriminate].
    now destruct b.
  - change (String.prefix sub (String c s) || includes s sub = true) in H.
    change (String.prefix sub (String c s ++ b) || includes (s ++ b) sub = true).
    apply orb_true_iff in H as [H|H]; apply orb_true_iff.
    + left. now apply prefix_app_r.
    + right. now apply IH.
Qed.

Lemma prefix_app_inv (p x s : string) :
  String.prefix (p ++ x) s = true -> String.prefix p s = true.
Proof.
  revert s. induction p as [|c p IH]; intros s H; [now destruct s|].
  destruct s as [|d s]; [discriminate|]. simpl in *.
  destruct (ascii_dec c d); [now apply (IH s)|discriminate].
Qed.

Lemma includes_prefix_of (s p x : string) :
  includes s (p ++ x) = true -> includes s p = true.
Proof.
  induction s as [|c s IH]; intros H.
  - simpl in *. rewrite orb_false_r in *. destruct p; [reflexivity|discriminate].
  - change (String.prefix (p ++ x) (String c s) || includes s (p ++ x) = true) in H.
    change (String.prefix p (String c s) || includes s p = true).
    apply orb_true_iff in H as [H|H]; apply orb_true_iff.
    + left. eapply prefix_app_inv, H.
    + right. now apply IH.
Qed.

(** X24. Whatever its name, the file [takeScreenshot] writes carries the
    tag [task-<taskId>] of the running task in its name. *)
Theorem screenshot_fileName_is_tagged (taskId name : string) :
  includes (screenshot_fileName taskId name) ("task-" ++ taskId) = true.
Proof.
  unfold screenshot_fileName.
  destruct (includes name ("task-" ++ taskId)) eqn:H.
  - now apply includes_app_r.
  - change (name ++ "-task-" ++ taskId ++ ".png")%string
      with (name ++ "-" ++ ("task-" ++ taskId) ++ ".png")%string.
    apply includes_append, (includes_append "-"), includes_app_r, includes_refl.
Qed.

(** X25. For a name that does not contain ["task-"], as all the names
    [performBridgeOperation] uses, the path recorded in
    [result.screenshots] is the path of the file [takeScreenshot]
    writes, whatever the task identifier. *)
Theorem recorded_screenshot_is_the_file (taskId name : string) :
  includes name "task-" = false ->
  screenshot_file taskId name = "./" ++ screenshot_path taskId name.
Proof.
  intros H. unfold screenshot_file, screenshot_fileName, screenshot_path.
  destruct (includes name ("task-" ++ taskId)) eqn:Htag; [|reflexivity].
  apply includes_prefix_of in Htag. congruence.
Qed.

(** ** The registry over a whole run *)

Section RegistryInvariant.
Context {rt : JsRuntime}.

(** X26. Whatever calls and events came before, the bookkeeping of the
    monitors does not leak: a start time, path, options or method is
    kept only for a monitor that is still registered, so that waiting
    for a monitor, cancelling it or closing the page leaves nothing of
    it behind but its captured traffic; and no identifier is
    registered twice. *)
Theorem registry_holds_only_active_monitors (ops : list Op) (monitorId : string) :
  NoDup (getActiveMonitorIds (run ops))
  /\ NoDup (map_keys (monitorPaths (run ops)))
  /\ (monitorId ∉ getActiveMonitorIds (run ops) ->
      map_get monitorId (monitorStartTimes (run ops)) = None
      /\ map_get monitorId (monitorPaths (run ops)) = None
      /\ map_get monitorId (monitorOptions (run ops)) = None
      /\ map_get monitorId (monitorMethods (run ops)) = None).
Proof.
  split; [apply wf_run|]. split; [apply paths_nodup_run|].
  intros Hno. pose proof (registry_closed_run ops monitorId) as Hc.
  assert (Hnone : forall V (m : jsmap V), monitorId ∉ map_keys m -> map_get monitorId m = None).
  { intros V m Hk. destruct (map_get monitorId m) as [v|] eqn:E; [|reflexivity].
    exfalso. apply Hk. eapply map_get_In_keys, E. }
  repeat split; apply Hnone; intros Hk; apply Hno, Hc; auto.
Qed.

End RegistryInvariant.

(** ** The properties on concrete runs *)

(** The closed runs below use the runtime that parses nothing. *)
#[local] Existing Instance rt_none.

Lemma all_traffic_is_logged_witness :
  map_has "all" (monitorPaths (run route_monitor_ops)) = false
  /\ fst (getAllTraffic
            (on_request plain_get 101 (run route_monitor_ops)))
     = [CapturedRequest.mk route_url "GET" 101 None None].
Proof.
  split; [reflexivity|].
  destruct (all_traffic_is_logged (run route_monitor_ops)
              plain_get plain_response 101 eq_refl) as (H & _).
  rewrite H. reflexivity.
Defined.

Lemma events_keep_the_registry_witness :
  EvTimer 0 <> EvClose
  /\ getActiveMonitorIds
       (on_event (run route_monitor_ops) (EvTimer 0))
     = ["m1"].
Proof.
  split; [discriminate|].
  destruct (events_keep_the_registry
              (run route_monitor_ops) (EvTimer 0)) as (_ & H & _);
    [discriminate|].
  rewrite H. reflexivity.
Defined.

Lemma matching_request_is_captured_witness :
  map_get "m1" (monitorPaths (run route_monitor_ops)) = Some "route"
  /\ "m1" <> "all"
  /\ Request.method plain_get <> "POST"
  /\ getMonitorTraffic "m1"
       (on_request plain_get 101 (run route_monitor_ops))
     = ([CapturedRequest.mk route_url "GET" 101 None None], []).
Proof.
  split; [reflexivity|]. split; [discriminate|]. split; [discriminate|].
  rewrite (matching_request_is_captured route_monitor_ops plain_get 101
             "m1" "route" eq_refl); [reflexivity|discriminate|discriminate].
Defined.

Lemma early_response_is_delivered_witness :
  urlMatches route_url "route"
    (options_of (run route_monitor_ops) "m1") = true
  /\ exists res s',
       waitForResponse "m1" 5000 102 [] 103 []
         (on_response plain_response 101
            (run route_monitor_ops)) = (Some res, s')
       /\ ApiResponseResult.success res = true
       /\ ApiResponseResult.status res = Some 200
       /\ map_has "m1" (monitorPromises s') = false.
Proof.
  split; [reflexivity|].
  destruct (early_response_is_delivered route_monitor_ops "m1" "route" 0
              (PromiseController.mk [] (Some 0%nat) false false) plain_response 101
              5000 102 103 [] [])
    as (res & s' & Hw & Hs & _ & Hst & _ & _ & _ & Hgone);
    try reflexivity; try discriminate.
  exists res, s'. repeat split; assumption.
Defined.


Lemma start_then_cancel_restores_registry_witness :
  map_has "m2" (monitorPromises (run route_monitor_ops)) = false
  /\ getActiveMonitorIds
       (cancelMonitor "m2"
          (snd (startMonitoringSpecificPath "msgs" "POST" "m2" route_options
                  105 (run route_monitor_ops))))
     = ["m1"].
Proof.
  split; [reflexivity|].
  destruct (start_then_cancel_restores_registry route_monitor_ops
              "msgs" "POST" "m2" route_options 105 eq_refl) as (_ & H & _).
  rewrite H. reflexivity.
Defined.

Lemma only_404_is_no_routes_found_witness :
  status_is 404 server_error_result = false
  /\ hasNoRoutesFoundError server_error_result = false
  /\ BridgeOperationOutput.error
       (snd (handleRouteApiResponse blank_result server_error_result 7))
     = Some (JSON_stringify (JObj [("message", JStr "no routes found")])).
Proof.
  split; [reflexivity|].
  destruct (only_404_is_no_routes_found blank_result server_error_result 7
              [("message", JStr "no routes found")] eq_refl eq_refl eq_refl eq_refl)
    as (H1 & H2).
  split; [exact H1|]. rewrite H2. reflexivity.
Defined.

Lemma wallet_connection_failure_witness :
  env_bool disconnected_env 0 VerifyWalletConnected = Ret false
  /\ exists st r,
       performBridgeOperation disconnected_env "7" "0.00002" "BFB" "INIT"
         "BFB" "BFB" "Optimistic bridge" = (st, Ret r)
       /\ BridgeOperationOutput.error r = Some "Wallet connection failed"
       /\ BridgeOperationOutput.success r = Some false
       /\ BridgeOperationOutput.testProgress r = Some untested.
Proof.
  split; [reflexivity|].
  destruct (wallet_connection_failure_stops_the_run disconnected_env "7"
              "0.00002" "BFB" "INIT" "BFB" "BFB" "Optimistic bridge"
              (fun _ => eq_refl) (fun _ => eq_refl))
    as (st & r & Hp & _ & He & Hs & Ht & _).
  exists st, r. repeat split; assumption.
Defined.

Lemma navigation_failure_witness :
  env_bool unreachable_env 0 NavigateToBridgeUI = Ret false
  /\ exists st r,
       performBridgeOperation unreachable_env "7" "0.00002" "BFB" "INIT"
         "BFB" "BFB" "Optimistic bridge" = (st, Ret r)
       /\ BridgeOperationOutput.error r = Some "Unable to navigate to Bridge interface"
       /\ BridgeOperationOutput.success r = Some false
       /\ BridgeOperationOutput.testProgress r = Some untested.
Proof.
  split; [reflexivity|].
  destruct (navigation_failure_stops_the_run unreachable_env "7"
              "0.00002" "BFB" "INIT" "BFB" "BFB" "Optimistic bridge"
              (fun _ => eq_refl) (fun _ => eq_refl) (fun _ => eq_refl))
    as (st & r & Hp & _ & He & Hs & Ht & _).
  exists st, r. repeat split; assumption.
Defined.

Lemma ui_check_decides_the_route_witness :
  env_button (scripted_env "none" no_capture) 0 EvaluatePreviewRouteButton = Ret (true, true)
  /\ exists st',
       checkUIStateForRouteValidity (scripted_env "none" no_capture)
         (mkPState blank_result [] 0) = (st', Ret true)
       /\ BridgeOperationOutput.routePass (result st') = Some true
       /\ BridgeOperationOutput.testProgress (result st') = Some routeTested.
Proof.
  split; [reflexivity|].
  destruct (ui_check_decides_the_route (scripted_env "none" no_capture) [] true true
              blank_result [] 0 (fun _ => eq_refl) (fun _ => eq_refl))
    as (st' & Hp & Ht & Hq & _).
  exists st'. repeat split; assumption.
Defined.

Lemma disabled_approve_button_witness :
  env_bool disabled_approve_env 0 IsApproveButtonEnabled = Ret false
  /\ exists st',
       handleTransactionConfirmation disabled_approve_env
         (mkPState blank_result [] 0) = (st', Ret false)
       /\ BridgeOperationOutput.error (result st')
          = Some "Approve button is disabled, reason might be: Insufficient balance"
       /\ BridgeOperationOutput.success (result st') = Some false.
Proof.
  split; [reflexivity|].
  destruct (disabled_approve_button_is_reported disabled_approve_env None
              (Some "Insufficient balance") blank_result [] 0
              (fun _ => eq_refl) (fun _ => eq_refl) (fun _ => eq_refl) (fun _ => eq_refl))
    as (st' & Hp & He & Hs & _).
  exists st'. repeat split; assumption.
Defined.

Lemma uncaptured_run_witness :
  cooperative (scripted_env "none" no_capture)
  /\ exists st r,
       performBridgeOperation (scripted_env "none" no_capture) "7"
         "0.00002" "BFB" "INIT" "BFB" "BFB" "Optimistic bridge" = (st, Ret r)
       /\ BridgeOperationOutput.success r = Some true
       /\ BridgeOperationOutput.testProgress r = Some SignTested
       /\ BridgeOperationOutput.transactionHash r = None.
Proof.
  assert (Hcoop : cooperative (scripted_env "none" no_capture)) by (repeat split).
  split; [exact Hcoop|].
  destruct (uncaptured_run_reports_success (scripted_env "none" no_capture)
              "7" Hcoop "0.00002" "BFB" "INIT" "BFB" "BFB" "Optimistic bridge")
    as (st & r & Hp & _ & Hs & Ht & _ & _ & Hh).
  { intros n monitorId timeout. simpl.
    destruct (String.prefix "none" monitorId); reflexivity. }
  exists st, r. repeat split; assumption.
Defined.

Lemma broadcast_verdict_witness :
  processBroadcastResponse broadcast_rejected_result
  = (false, None, Some "Transaction failed (code=13): insufficient fees")
  /\ exists st',
       handleTransactionConfirmation rejecting_env
         (mkPState blank_result [] 0) = (st', Ret false)
       /\ BridgeOperationOutput.success (result st') = Some false
       /\ BridgeOperationOutput.error (result st')
          = Some "Transaction failed (code=13): insufficient fees".
Proof.
  split; [vm_compute; reflexivity|].
  destruct (broadcast_verdict_is_recorded rejecting_env None true true true
              broadcast_rejected_result blank_result [] 0
              (fun _ => eq_refl) (fun _ => eq_refl) (fun _ => eq_refl) (fun _ => eq_refl)
              (fun _ => eq_refl) (fun _ => eq_refl) (fun _ _ _ => eq_refl))
    as (st' & Hp & Hs & _ & He & _).
  exists st'. split; [exact Hp|]. split; [exact Hs|exact He].
Defined.

Lemma recorded_screenshot_witness :
  includes "bridge-form-filled" "task-" = false
  /\ screenshot_file "7" "bridge-form-filled"
     = "./screenshots/bridge-form-filled-task-7.png".
Proof.
  split; [reflexivity|].
  rewrite (recorded_screenshot_is_the_file "7" "bridge-form-filled" eq_refl). reflexivity.
Defined.
